(** * Health Data Generator: the app-icon scripts

    A shallow embedding of [create_icons.py], [create_solid_icons.py] and
    [create_beautiful_icons.py].  Each script draws one square RGB raster
    per catalog size with Pillow and saves it as a PNG file.

    Numbers are modelled as the scripts use them:
    - Python [int] is [Z]; [//] is [Z.div] (floor division);
    - the gradient arithmetic is IEEE binary64, through the kernel's
      primitive floats, so that [int(...)] yields the very integers
      CPython yields;
    - the glyph geometry (heart curve, gear teeth, data dots) calls
      [math.sin] and [math.cos]; it is modelled over the real numbers,
      [math.pi] being [PI].

    Pillow itself is not part of the repository.  Its drawing calls are
    modelled by what they paint: every call overwrites, with one ink, the
    pixels of the canvas that a coverage predicate selects.  Horizontal
    lines and rectangles have their coverage written out; polygons,
    ellipses and rounded rectangles take theirs from a [Pillow] profile.
    What is proved of the shape of the raster, of the gradient and of the
    exceptions holds for every profile.  What is proved of a single pixel
    near a glyph or a rounded corner holds for the profiles that obey the
    laws [Lawful] and [Faithful]; the scan conversion [Reference.pillow]
    obeys both. *)

From Stdlib Require Import ZArith List Bool Lia String Floats QArith Reals Lra Zfloor.
Import ListNotations.
Local Open Scope Z_scope.

(** ** Python: exceptions, loops and numbers *)

Module Py.

Inductive exn : Type :=
| ValueError (msg : string)
| TypeError (msg : string)
| ZeroDivisionError (msg : string).

Definition result (A : Type) : Type := (exn + A)%type.

Definition ret {A : Type} (a : A) : result A := inr a.

Definition raise {A : Type} (e : exn) : result A := inl e.

Definition bind {A B : Type} (c : result A) (k : A -> result B) : result B :=
  match c with
  | inl e => inl e
  | inr a => k a
  end.

(** [range(n)] *)
Definition range (n : Z) : list Z := map Z.of_nat (seq 0 (Z.to_nat n)).

(** [range(start, stop, step)] for a positive [step] *)
Definition range3 (start stop step : Z) : list Z :=
  map (fun k => start + step * Z.of_nat k)
      (seq 0 (Z.to_nat ((stop - start + step - 1) / step))).

(** [for a in l: s = body(a, s)], stopping at the first exception *)
Fixpoint for_each {A S : Type} (l : list A) (body : A -> S -> result S) (s : S)
  : result S :=
  match l with
  | [] => ret s
  | a :: l' => bind (body a s) (for_each l' body)
  end.

(** [int -> float], exact below 2^53 *)
Definition float_of_int (z : Z) : float :=
  if z <? 0 then PrimFloat.opp (PrimFloat.of_uint63 (Uint63.of_Z (- z)))
  else PrimFloat.of_uint63 (Uint63.of_Z z).

(** [a / b] on two ints *)
Definition truediv (a b : Z) : result float :=
  if b =? 0 then raise (ZeroDivisionError "division by zero")
  else ret (PrimFloat.div (float_of_int a) (float_of_int b)).

(** [int(f)]: truncation toward zero.  CPython raises on an infinity or a
    NaN; the gradient expressions, which lie between two colour channels,
    produce neither, and the model returns 0 there. *)
Definition int_of_float (f : float) : Z :=
  match Prim2SF f with
  | S754_finite s m e =>
      let mag := match e with
                 | Z0 => Zpos m
                 | Zpos p => Z.shiftl (Zpos m) (Zpos p)
                 | Zneg p => Z.shiftr (Zpos m) (Zpos p)
                 end in
      if s then - mag else mag
  | _ => 0
  end.

(** [math.radians] of an int, over the reals *)
Definition radians (angle : Z) : R := (IZR angle * PI / 180)%R.

End Py.

Notation "x <- c ;; k" := (Py.bind c (fun x => k))
  (at level 61, c at next level, right associativity).

(** ** Pillow: images, inks and the drawing calls *)

Module PIL.

Import Py.

Inductive Mode : Type := L | RGB.

(** A pixel holds one band in mode [L] and three in mode [RGB]; there is
    no constructor with an alpha band. *)
Inductive Pixel : Type :=
| PxL (v : Z)
| PxRGB (r g b : Z).

(** A colour argument: an int or a tuple of ints *)
Inductive Color : Type :=
| Int (v : Z)
| Tuple (bands : list Z).

Record Image : Type := mkImage {
  mode : Mode;
  width : Z;
  height : Z;
  data : list (list Pixel)  (* rows, top to bottom *)
}.

Definition clip8 (v : Z) : Z := Z.max 0 (Z.min 255 v).

(** The ink a colour argument gives on an image of mode [m].  On an RGB
    image a four-element tuple is accepted and its fourth element does not
    reach the three bands. *)
Definition getink (m : Mode) (c : Color) : result Pixel :=
  match m, c with
  | L, Int v => ret (PxL (clip8 v))
  | L, Tuple [v] => ret (PxL (clip8 v))
  | RGB, Int v =>
      ret (PxRGB (Z.land v 255) (Z.land (Z.shiftr v 8) 255)
                 (Z.land (Z.shiftr v 16) 255))
  | RGB, Tuple [r; g; b] => ret (PxRGB (clip8 r) (clip8 g) (clip8 b))
  | RGB, Tuple [r; g; b; _] => ret (PxRGB (clip8 r) (clip8 g) (clip8 b))
  | _, _ => raise (TypeError "color must be int or tuple")
  end.

(** [Image.new(mode, (w, h), color)] *)
Definition new (m : Mode) (w h : Z) (color : Color) : result Image :=
  if (w <? 0) || (h <? 0)
  then raise (ValueError "Width and height must be >= 0")
  else px <- getink m color ;;
       ret (mkImage m w h (repeat (repeat px (Z.to_nat w)) (Z.to_nat h))).

(** [im.getpixel((x, y))], [None] outside the raster *)
Definition getpixel (im : Image) (x y : Z) : option Pixel :=
  if (x <? 0) || (y <? 0) then None
  else match nth_error (data im) (Z.to_nat y) with
       | Some row => nth_error row (Z.to_nat x)
       | None => None
       end.

Fixpoint mapi {A B : Type} (f : Z -> A -> B) (i : Z) (l : list A) : list B :=
  match l with
  | [] => []
  | a :: l' => f i a :: mapi f (i + 1) l'
  end.

(** Every drawing call ends here: the pixels of the raster that [cover]
    selects take [ink]; coordinates outside the raster select nothing. *)
Definition paint (cover : Z -> Z -> bool) (ink : Pixel) (im : Image) : Image :=
  mkImage (mode im) (width im) (height im)
    (mapi (fun y row => mapi (fun x old => if cover x y then ink else old) 0 row)
          0 (data im)).

(** What varies with the Pillow release and lives in its C sources: the
    scan conversion of sloped lines, polygons, ellipses and rounded
    rectangles (on integer coordinates), and whether a bounding box with
    [x1 < x0] or [y1 < y0] is refused (it is from release 9.5 on). *)
Record Pillow : Type := mkPillow {
  checks_xy_order : bool;
  line_cover : Z -> Z -> Z -> Z -> Z -> Z -> bool;
  polygon_cover : list (Z * Z) -> Z -> Z -> bool;
  ellipse_cover : Z -> Z -> Z -> Z -> Z -> Z -> bool;
  rounded_rectangle_cover : Z -> Z -> Z -> Z -> Z -> Z -> Z -> bool
}.

(** The C cast [(int)] of a double: truncation toward zero *)
Definition c_int (r : R) : Z := if Rle_dec 0 r then Zfloor r else Zceil r.

(** The pixels a filled shape selects.  The drawing calls hand their
    coordinates to C as doubles, where each is cast to [int]. *)
Definition Region : Type := Z -> Z -> bool.

Definition polygon_region (P : Pillow) (points : list (R * R)) : Region :=
  polygon_cover P (map (fun p => (c_int (fst p), c_int (snd p))) points).

Definition ellipse_region (P : Pillow) (x0 y0 x1 y1 : R) : Region :=
  ellipse_cover P (c_int x0) (c_int y0) (c_int x1) (c_int y1).

Definition Rltb (a b : R) : bool := if Rlt_dec a b then true else false.

Definition span (lo hi v : Z) : bool := (lo <=? v) && (v <=? hi).

Definition rectangle_cover (x0 y0 x1 y1 x y : Z) : bool :=
  span (Z.min x0 x1) (Z.max x0 x1) x && span (Z.min y0 y1) (Z.max y0 y1) y.

Definition hline_cover (x0 x1 y0 x y : Z) : bool :=
  (y =? y0) && span (Z.min x0 x1) (Z.max x0 x1) x.

Definition blend (m dst src : Z) : Z :=
  if m =? 0 then dst
  else if m =? 255 then src
  else let t := dst * (255 - m) + src * m + 128 in
       Z.shiftr (Z.shiftr t 8 + t) 8.

Definition paste_pixel (d s m : Pixel) : Pixel :=
  match m, d, s with
  | PxL a, PxRGB r g b, PxRGB r' g' b' =>
      PxRGB (blend a r r') (blend a g g') (blend a b b')
  | PxL a, PxL v, PxL v' => PxL (blend a v v')
  | _, _, _ => d
  end.

Fixpoint map3 {A B C D : Type} (f : A -> B -> C -> D)
  (la : list A) (lb : list B) (lc : list C) : list D :=
  match la, lb, lc with
  | a :: la', b :: lb', c :: lc' => f a b c :: map3 f la' lb' lc'
  | _, _, _ => []
  end.

(** [dst.paste(src, mask=mask)] at the origin *)
Definition paste (dst src mask : Image) : result Image :=
  if (width src =? width dst) && (height src =? height dst)
     && (width mask =? width dst) && (height mask =? height dst)
  then ret (mkImage (mode dst) (width dst) (height dst)
              (map3 (map3 paste_pixel) (data dst) (data src) (data mask)))
  else raise (ValueError "images do not match").

(** The files written so far, by path *)
Definition FileSystem : Type := string -> option Image.

(** [im.save(path, 'PNG')]: the raster is what reaches the encoder.  An
    image without pixels is refused before the file is opened. *)
Definition save (im : Image) (path : string) (fs : FileSystem)
  : result FileSystem :=
  if (width im =? 0) || (height im =? 0)
  then raise (ValueError "cannot write empty image")
  else ret (fun p => if String.eqb p path then Some im else fs p).

Section Draw.

Variable P : Pillow.

Definition check_order (x_bad y_bad : bool) : result unit :=
  if checks_xy_order P then
    if x_bad then raise (ValueError "x1 must be greater than or equal to x0")
    else if y_bad then raise (ValueError "y1 must be greater than or equal to y0")
    else ret tt
  else ret tt.

(** [draw.line([(x0, y0), (x1, y1)], fill=fill)], one pixel wide *)
Definition line (im : Image) (x0 y0 x1 y1 : Z) (fill : Color) : result Image :=
  ink <- getink (mode im) fill ;;
  ret (paint (fun x y => if y0 =? y1 then hline_cover x0 x1 y0 x y
                         else line_cover P x0 y0 x1 y1 x y) ink im).

(** [draw.rectangle([x0, y0, x1, y1], fill=fill)]: both corners included *)
Definition rectangle (im : Image) (x0 y0 x1 y1 : Z) (fill : Color)
  : result Image :=
  _ <- check_order (x1 <? x0) (y1 <? y0) ;;
  ink <- getink (mode im) fill ;;
  ret (paint (rectangle_cover x0 y0 x1 y1) ink im).

(** [draw.ellipse([x0, y0, x1, y1], fill=fill)] *)
Definition ellipse (im : Image) (x0 y0 x1 y1 : R) (fill : Color)
  : result Image :=
  _ <- check_order (Rltb x1 x0) (Rltb y1 y0) ;;
  ink <- getink (mode im) fill ;;
  ret (paint (ellipse_region P x0 y0 x1 y1) ink im).

(** [draw.polygon(points, fill=fill)] *)
Definition polygon (im : Image) (points : list (R * R)) (fill : Color)
  : result Image :=
  if (Z.of_nat (List.length points) <? 2)
  then raise (TypeError "coordinate list must contain at least 2 coordinates")
  else ink <- getink (mode im) fill ;;
       ret (paint (polygon_region P points) ink im).

(** [draw.rounded_rectangle([x0, y0, x1, y1], radius, fill=fill)] *)
Definition rounded_rectangle (im : Image) (x0 y0 x1 y1 radius : Z)
  (fill : Color) : result Image :=
  _ <- check_order (x1 <? x0) (y1 <? y0) ;;
  ink <- getink (mode im) fill ;;
  ret (paint (rounded_rectangle_cover P x0 y0 x1 y1 radius) ink im).

End Draw.

End PIL.

Import Py PIL.

(** [img.convert('RGB')] *)
Definition convert_RGB (im : Image) : Image :=
  mkImage RGB (width im) (height im)
    (map (map (fun px => match px with
                         | PxL v => PxRGB v v v
                         | PxRGB r g b => PxRGB r g b
                         end)) (data im)).

(** The sizes of the specification's catalog *)
Definition catalog : list Z :=
  [20; 29; 40; 58; 60; 76; 80; 87; 120; 152; 154; 167; 180; 1024].

(** ** create_icons.py *)

Module CreateIcons.

Definition white : Color := Tuple [255; 255; 255].
Definition green : Color := Tuple [52; 199; 89].

(** lines 17-21: the colour of gradient row [y] *)
Definition gradient_color (size y : Z) : result Color :=
  progress <- truediv y size ;;
  let r := int_of_float (52 * (1 - progress) + 34 * progress)%float in
  let g := int_of_float (199 * (1 - progress) + 139 * progress)%float in
  let b := int_of_float (89 * (1 - progress) + 34 * progress)%float in
  ret (Tuple [r; g; b]).

(** lines 42-53 *)
Definition heart_points (size : Z) : list (R * R) :=
  let center_x := size / 2 in
  let center_y := size / 2 in
  let heart_size := size / 3 in
  map (fun angle =>
         let t := radians angle in
         let x := (16 * sin t ^ 3)%R in
         let y := (- (13 * cos t - 5 * cos (2 * t) - 2 * cos (3 * t)
                      - cos (4 * t)))%R in
         ((IZR center_x + x * IZR heart_size / 32)%R,
          (IZR center_y + y * IZR heart_size / 32)%R))
      (range3 0 360 5).

(** line 56 *)
Definition shadow_points (size : Z) : list (R * R) :=
  map (fun p => ((fst p + 2)%R, (snd p + 2)%R)) (heart_points size).

(** The icon sizes of [main], lines 92-116 *)
Definition icon_sizes : list Z :=
  [40; 60; 58; 87; 80; 120; 180; 20; 40; 29; 58; 76; 152; 167; 154; 1024].

Section WithPillow.

Variable P : Pillow.

(** lines 12-22: the gradient canvas [img] *)
Definition background (size : Z) : result Image :=
  img <- new RGB size size white ;;
  for_each (range size)
    (fun y img => color <- gradient_color size y ;;
                  line P img 0 y size y color)
    img.

(** lines 25-34: the rounded-corner compositing onto [final_img] *)
Definition composite (size : Z) (img : Image) : result Image :=
  let corner_radius := size / 6 in
  mask <- new L size size (Int 0) ;;
  mask <- rounded_rectangle P mask 0 0 size size corner_radius (Int 255) ;;
  final_img <- new RGB size size white ;;
  paste final_img img mask.

(** lines 55-60: the shadow, then the heart *)
Definition heart (size : Z) (final_img : Image) : result Image :=
  final_img <- polygon P final_img (shadow_points size) (Tuple [0; 0; 0]) ;;
  polygon P final_img (heart_points size) white.

(** lines 63-79: the plus badge *)
Definition plus_sign (size : Z) (final_img : Image) : result Image :=
  let center_x := size / 2 in
  let center_y := size / 2 in
  let heart_size := size / 3 in
  let plus_size := size / 8 in
  let plus_thickness := Z.max 2 (size / 40) in
  let plus_x := center_x + heart_size / 2 + plus_size / 2 in
  let plus_y := center_y - heart_size / 2 - plus_size / 2 in
  final_img <- ellipse P final_img
                 (IZR (plus_x - plus_size)) (IZR (plus_y - plus_size))
                 (IZR (plus_x + plus_size)) (IZR (plus_y + plus_size)) white ;;
  final_img <- rectangle P final_img
                 (plus_x - plus_thickness / 2) (plus_y - plus_size + 2)
                 (plus_x + plus_thickness / 2) (plus_y + plus_size - 2) green ;;
  rectangle P final_img
    (plus_x - plus_size + 2) (plus_y - plus_thickness / 2)
    (plus_x + plus_size - 2) (plus_y + plus_thickness / 2) green.

(** The raster that [create_app_icon] hands to [save] *)
Definition render (size : Z) : result Image :=
  img <- background size ;;
  final_img <- composite size img ;;
  final_img <- heart size final_img ;;
  plus_sign size final_img.

Definition create_app_icon (size : Z) (output_path : string)
  (fs : FileSystem) : result FileSystem :=
  final_img <- render size ;;
  save final_img output_path fs.

End WithPillow.

End CreateIcons.

(** ** create_solid_icons.py *)

Module CreateSolidIcons.

Definition white : Color := Tuple [255; 255; 255].

(** lines 18-23: the colour of gradient row [y] *)
Definition gradient_color (size y : Z) : result Color :=
  progress <- truediv y size ;;
  let r := int_of_float (100 * (1 - progress) + 50 * progress)%float in
  let g := int_of_float (150 * (1 - progress) + 100 * progress)%float in
  let b := int_of_float (200 * (1 - progress) + 150 * progress)%float in
  ret (Tuple [r; g; b]).

(** The icon sizes of [main], lines 60-77 *)
Definition icon_configs : list Z :=
  [40; 60; 58; 87; 80; 120; 180; 20; 29; 76; 152; 167; 1024].

Section WithPillow.

Variable P : Pillow.

(** lines 13-23 *)
Definition background (size : Z) : result Image :=
  img <- new RGB size size white ;;
  for_each (range size)
    (fun y img => color <- gradient_color size y ;;
                  line P img 0 y size y color)
    img.

(** lines 26-41: the white cross *)
Definition cross (size : Z) (img : Image) : result Image :=
  let center_x := size / 2 in
  let center_y := size / 2 in
  let cross_size := size / 3 in
  let cross_width := Z.max 4 (size / 20) in
  img <- rectangle P img
           (center_x - cross_size / 2) (center_y - cross_width / 2)
           (center_x + cross_size / 2) (center_y + cross_width / 2) white ;;
  rectangle P img
    (center_x - cross_width / 2) (center_y - cross_size / 2)
    (center_x + cross_width / 2) (center_y + cross_size / 2) white.

(** The raster that [create_solid_app_icon] hands to [save] *)
Definition render (size : Z) : result Image :=
  img <- background size ;;
  img <- cross size img ;;
  ret (match mode img with
       | RGB => img
       | _ => convert_RGB img
       end).

Definition create_solid_app_icon (size : Z) (output_path : string)
  (fs : FileSystem) : result FileSystem :=
  img <- render size ;;
  save img output_path fs.

End WithPillow.

End CreateSolidIcons.

(** ** create_beautiful_icons.py *)

Module CreateBeautifulIcons.

Definition white : Color := Tuple [255; 255; 255].
Definition background_fill : Color := Tuple [248; 249; 250].
Definition heart_color : Color := Tuple [52; 199; 89].

(** lines 18-23: the colour of gradient row [y]; the literals are the
    doubles that [0.1] and [0.05] denote *)
Definition gradient_color (size y : Z) : result Color :=
  progress <- truediv y size ;;
  let r := int_of_float (255 * (1 - progress * 0x1.999999999999ap-4))%float in
  let g := int_of_float (255 * (1 - progress * 0x1.999999999999ap-5))%float in
  let b := int_of_float (255 * (1 - progress * 0x1.999999999999ap-4))%float in
  ret (Tuple [r; g; b]).

(** lines 42-53 *)
Definition heart_points (size : Z) : list (R * R) :=
  let center_x := size / 2 in
  let center_y := size / 2 in
  let heart_size := size / 3 in
  map (fun t =>
         let t_rad := (IZR t / 100)%R in
         let x := (16 * sin t_rad ^ 3)%R in
         let y := (- (13 * cos t_rad - 5 * cos (2 * t_rad)
                      - 2 * cos (3 * t_rad) - cos (4 * t_rad)))%R in
         let scale := (IZR heart_size / 20)%R in
         ((IZR center_x + x * scale)%R, (IZR center_y + y * scale)%R))
      (range3 0 628 5).

(** lines 56-57 *)
Definition shadow_points (size : Z) : list (R * R) :=
  let shadow_offset := Z.max 2 (size / 200) in
  map (fun p => ((fst p + IZR shadow_offset)%R, (snd p + IZR shadow_offset)%R))
      (heart_points size).

(** line 65 *)
Definition highlight_points (size : Z) : list (R * R) :=
  let shadow_offset := Z.max 2 (size / 200) in
  map (fun p => ((fst p - IZR (shadow_offset / 2))%R,
                 (snd p - IZR (shadow_offset / 2))%R))
      (firstn (Z.to_nat (Z.of_nat (List.length (heart_points size)) / 3))
              (heart_points size)).

(** lines 83-93: the triangle of gear tooth [i] *)
Definition tooth (gear_x gear_y gear_radius i : Z) : list (R * R) :=
  let angle := (2 * PI * IZR i / 8)%R in
  let outer_x := (IZR gear_x + IZR (gear_radius + 3) * cos angle)%R in
  let outer_y := (IZR gear_y + IZR (gear_radius + 3) * sin angle)%R in
  let angle1 := (angle - 2 / 10)%R in
  let angle2 := (angle + 2 / 10)%R in
  let inner_x1 := (IZR gear_x + IZR gear_radius * cos angle1)%R in
  let inner_y1 := (IZR gear_y + IZR gear_radius * sin angle1)%R in
  let inner_x2 := (IZR gear_x + IZR gear_radius * cos angle2)%R in
  let inner_y2 := (IZR gear_y + IZR gear_radius * sin angle2)%R in
  [(outer_x, outer_y); (inner_x1, inner_y1); (inner_x2, inner_y2)].

(** lines 132-134: the centre of data dot [i], over the real numbers.
    The script computes it in binary64, which can fall on the other side
    of an integer where the real value is one: for dot 4 at size 120 the
    real abscissa is 30 and the script's is just below it. *)
Definition dot_center (size i : Z) : R * R :=
  let center_x := size / 2 in
  let center_y := size / 2 in
  let heart_size := size / 3 in
  let dot_distance := heart_size + 20 in
  let angle := (2 * PI * IZR i / 6)%R in
  ((IZR center_x + IZR dot_distance * cos angle)%R,
   (IZR center_y + IZR dot_distance * sin angle)%R).

(** lines 135-136: the bounding box of data dot [i] *)
Definition dot_box (size i : Z) : R * R * R * R :=
  let dot_radius := Z.max 2 (size / 100) in
  let (dot_x, dot_y) := dot_center size i in
  ((dot_x - IZR dot_radius)%R, (dot_y - IZR dot_radius)%R,
   (dot_x + IZR dot_radius)%R, (dot_y + IZR dot_radius)%R).

(** line 137: the fill of a data dot, a four-element tuple *)
Definition dot_fill : Color := Tuple [52; 199; 89; 180].

(** The icon sizes of [main], lines 151-172 *)
Definition icon_sizes : list Z :=
  [40; 60; 58; 87; 80; 120; 180; 20; 40; 29; 58; 76; 152; 167; 1024].

Section WithPillow.

Variable P : Pillow.

(** lines 13-24: the gradient canvas [img] *)
Definition background (size : Z) : result Image :=
  img <- new RGB size size white ;;
  for_each (range size)
    (fun y img => color <- gradient_color size y ;;
                  line P img 0 y size y color)
    img.

(** lines 27-34: the rounded-corner compositing onto [final_img] *)
Definition composite (size : Z) (img : Image) : result Image :=
  let corner_radius := size / 8 in
  mask <- new L size size (Int 0) ;;
  mask <- rounded_rectangle P mask 0 0 size size corner_radius (Int 255) ;;
  final_img <- new RGB size size background_fill ;;
  paste final_img img mask.

(** lines 56-67: the shadow, the heart and its highlight *)
Definition heart (size : Z) (final_img : Image) : result Image :=
  final_img <- polygon P final_img (shadow_points size)
                 (Tuple [200; 200; 200]) ;;
  final_img <- polygon P final_img (heart_points size) heart_color ;;
  match highlight_points size with
  | [] => ret final_img
  | _ :: _ => polygon P final_img (highlight_points size)
                (Tuple [82; 229; 119])
  end.

(** lines 70-103: the gear badge *)
Definition gear (size : Z) (final_img : Image) : result Image :=
  let center_x := size / 2 in
  let center_y := size / 2 in
  let heart_size := size / 3 in
  let gear_size := size / 6 in
  let gear_x := center_x + heart_size / 2 + gear_size / 2 in
  let gear_y := center_y - heart_size / 2 - gear_size / 2 in
  let gear_radius := gear_size / 2 in
  final_img <- ellipse P final_img
                 (IZR (gear_x - gear_radius)) (IZR (gear_y - gear_radius))
                 (IZR (gear_x + gear_radius)) (IZR (gear_y + gear_radius))
                 white ;;
  final_img <- for_each (range 8)
                 (fun i final_img =>
                    polygon P final_img (tooth gear_x gear_y gear_radius i)
                      (Tuple [100; 100; 100]))
                 final_img ;;
  let inner_radius := gear_radius / 2 in
  ellipse P final_img
    (IZR (gear_x - inner_radius)) (IZR (gear_y - inner_radius))
    (IZR (gear_x + inner_radius)) (IZR (gear_y + inner_radius))
    (Tuple [150; 150; 150]).

(** lines 106-125: the plus badge *)
Definition plus_sign (size : Z) (final_img : Image) : result Image :=
  let center_x := size / 2 in
  let center_y := size / 2 in
  let heart_size := size / 3 in
  let plus_size := size / 8 in
  let plus_x := center_x + heart_size / 2 in
  let plus_y := center_y + heart_size / 2 in
  let plus_thickness := Z.max 3 (size / 60) in
  let plus_bg_radius := plus_size / 2 + 2 in
  final_img <- ellipse P final_img
                 (IZR (plus_x - plus_bg_radius)) (IZR (plus_y - plus_bg_radius))
                 (IZR (plus_x + plus_bg_radius)) (IZR (plus_y + plus_bg_radius))
                 white ;;
  final_img <- rectangle P final_img
                 (plus_x - plus_size / 2) (plus_y - plus_thickness / 2)
                 (plus_x + plus_size / 2) (plus_y + plus_thickness / 2)
                 heart_color ;;
  rectangle P final_img
    (plus_x - plus_thickness / 2) (plus_y - plus_size / 2)
    (plus_x + plus_thickness / 2) (plus_y + plus_size / 2) heart_color.

(** lines 131-137: one data dot *)
Definition dot (size i : Z) (final_img : Image) : result Image :=
  let '(x0, y0, x1, y1) := dot_box size i in
  ellipse P final_img x0 y0 x1 y1 dot_fill.

(** lines 128-137: the data dots *)
Definition dots (size : Z) (final_img : Image) : result Image :=
  for_each (range 6) (dot size) final_img.

(** The raster that [create_beautiful_app_icon] hands to [save] *)
Definition render (size : Z) : result Image :=
  img <- background size ;;
  final_img <- composite size img ;;
  final_img <- heart size final_img ;;
  final_img <- gear size final_img ;;
  final_img <- plus_sign size final_img ;;
  dots size final_img.

Definition create_beautiful_app_icon (size : Z) (output_path : string)
  (fs : FileSystem) : result FileSystem :=
  final_img <- render size ;;
  save final_img output_path fs.

End WithPillow.

End CreateBeautifulIcons.

(** ** The three styles under one entry point *)

Inductive Style : Type := Icons | Solid | Beautiful.

Definition render (P : Pillow) (style : Style) (size : Z) : result Image :=
  match style with
  | Icons => CreateIcons.render P size
  | Solid => CreateSolidIcons.render P size
  | Beautiful => CreateBeautifulIcons.render P size
  end.

Definition create (P : Pillow) (style : Style) (size : Z)
  (output_path : string) (fs : FileSystem) : result FileSystem :=
  match style with
  | Icons => CreateIcons.create_app_icon P size output_path fs
  | Solid => CreateSolidIcons.create_solid_app_icon P size output_path fs
  | Beautiful =>
      CreateBeautifulIcons.create_beautiful_app_icon P size output_path fs
  end.

Definition gradient_color (style : Style) (size y : Z) : result Color :=
  match style with
  | Icons => CreateIcons.gradient_color size y
  | Solid => CreateSolidIcons.gradient_color size y
  | Beautiful => CreateBeautifulIcons.gradient_color size y
  end.

Definition background (P : Pillow) (style : Style) (size : Z) : result Image :=
  match style with
  | Icons => CreateIcons.background P size
  | Solid => CreateSolidIcons.background P size
  | Beautiful => CreateBeautifulIcons.background P size
  end.

(** ** What the properties speak about *)

(** An image of mode [m] whose raster is [w] by [h], every pixel of it
    holding exactly the bands of [m] *)
Definition has_mode (m : Mode) (px : Pixel) : Prop :=
  match m, px with
  | L, PxL _ => True
  | RGB, PxRGB _ _ _ => True
  | _, _ => False
  end.

Definition well_formed (m : Mode) (w h : Z) (im : Image) : Prop :=
  mode im = m /\ width im = w /\ height im = h /\
  List.length (data im) = Z.to_nat h /\
  Forall (fun row => List.length row = Z.to_nat w /\ Forall (has_mode m) row)
         (data im).

(** The gradient end points that each script's comments and literals
    configure, as (start, end) per channel.  The beautiful script fades
    white by the factors 0.1 and 0.05, which puts its end points at
    229.5, 242.25 and 229.5. *)
Definition endpoints (style : Style) : list (Q * Q) :=
  match style with
  | Icons => [(52 # 1, 34 # 1); (199 # 1, 139 # 1); (89 # 1, 34 # 1)]
  | Solid => [(100 # 1, 50 # 1); (150 # 1, 100 # 1); (200 # 1, 150 # 1)]
  | Beautiful => [(255 # 1, 459 # 2); (255 # 1, 969 # 4); (255 # 1, 459 # 2)]
  end%Q.

(** The specification's interpolation, in exact arithmetic:
    [start*(1 - y/size) + end*(y/size)], truncated to an integer *)
Definition interpolate (size y : Z) (se : Q * Q) : Z :=
  let progress := (inject_Z y / inject_Z size)%Q in
  let v := (fst se * (1 - progress) + snd se * progress)%Q in
  Z.quot (Qnum v) (Zpos (Qden v)).

Definition gradient_spec (style : Style) (size y : Z) : Color :=
  Tuple (map (interpolate size y) (endpoints style)).

(** The same interpolation evaluated in binary64, in the order written *)
Definition interpolate_float (size y : Z) (se : float * float) : Z :=
  let progress := PrimFloat.div (float_of_int y) (float_of_int size) in
  int_of_float (fst se * (1 - progress) + snd se * progress)%float.

(** The gradient end points as the doubles the scripts compute with *)
Definition float_endpoints (style : Style) : list (float * float) :=
  match style with
  | Icons => [(52, 34); (199, 139); (89, 34)]
  | Solid => [(100, 50); (150, 100); (200, 150)]
  | Beautiful => [(255, 229.5); (255, 242.25); (255, 229.5)]
  end%float.

(** Channel by channel, the script's value is the specification's or one
    less. *)
Fixpoint agree (code spec : list Z) : bool :=
  match code, spec with
  | [], [] => true
  | c :: code', s :: spec' => ((c =? s) || (c + 1 =? s)) && agree code' spec'
  | _, _ => false
  end.

Definition near_spec (style : Style) (size y : Z) : bool :=
  match gradient_color style size y, gradient_spec style size y with
  | inr (Tuple code), Tuple spec => agree code spec
  | _, _ => false
  end.

(** The rounded end colour of a style, one integer per channel *)
Definition end_color (style : Style) : list Z :=
  match style with
  | Icons => [34; 139; 34]
  | Solid => [50; 100; 150]
  | Beautiful => [229; 242; 229]
  end.

Definition start_color (style : Style) : list Z :=
  match style with
  | Icons => [52; 199; 89]
  | Solid => [100; 150; 200]
  | Beautiful => [255; 255; 255]
  end.

Definition bands (px : Pixel) : list Z :=
  match px with
  | PxL v => [v]
  | PxRGB r g b => [r; g; b]
  end.

(** The average colour of row [y], channel by channel (integer mean) *)
Definition row_sum (row : list Pixel) : list Z :=
  fold_right (fun px acc =>
                match bands px, acc with
                | [r; g; b], [sr; sg; sb] => [sr + r; sg + g; sb + b]
                | _, _ => acc
                end) [0; 0; 0] row.

Definition row_average (im : Image) (y : Z) : option (list Z) :=
  match nth_error (data im) (Z.to_nat y) with
  | Some (px :: row) =>
      Some (map (fun s => s / Z.of_nat (List.length (px :: row)))
                (row_sum (px :: row)))
  | _ => None
  end.

(** Two colours agree within [tol] units in every channel *)
Fixpoint within (tol : Z) (c1 c2 : list Z) : bool :=
  match c1, c2 with
  | [], [] => true
  | a :: c1', b :: c2' => (Z.abs (a - b) <=? tol) && within tol c1' c2'
  | _, _ => false
  end.

(** The bounding box of a point list and its centre *)
Definition minimum (l : list R) : R :=
  match l with
  | [] => 0%R
  | a :: l' => fold_left Rmin l' a
  end.

Definition maximum (l : list R) : R :=
  match l with
  | [] => 0%R
  | a :: l' => fold_left Rmax l' a
  end.

Definition bbox_center (pts : list (R * R)) : R * R :=
  (((minimum (map fst pts) + maximum (map fst pts)) / 2)%R,
   ((minimum (map snd pts) + maximum (map snd pts)) / 2)%R).

(** The ink that a colour argument leaves on an image of mode [m] *)
Definition ink_of (m : Mode) (c : result Color) : option Pixel :=
  match c with
  | inr col => match getink m col with
               | inr px => Some px
               | inl _ => None
               end
  | inl _ => None
  end.

(** Drawing calls in sequence: each layer is a region and its ink, the
    first of the list painted first. *)
Definition paint_layers (layers : list (Region * Pixel)) (im : Image) : Image :=
  fold_left (fun im (l : Region * Pixel) => paint (fst l) (snd l) im) layers im.

(** The ink on top at (x, y): that of the last layer whose region holds
    the pixel, [base] under all of them. *)
Definition top_ink (layers : list (Region * Pixel)) (base : Pixel) (x y : Z)
  : Pixel :=
  fold_left (fun acc (l : Region * Pixel) => if fst l x y then snd l else acc)
            layers base.

(** ** The scripts as layers

    The drawing calls that follow the background of each script, as the
    layers they paint, in the order of the calls. *)

Definition icons_layers (P : Pillow) (size : Z) : list (Region * Pixel) :=
  let center_x := size / 2 in
  let center_y := size / 2 in
  let heart_size := size / 3 in
  let plus_size := size / 8 in
  let plus_thickness := Z.max 2 (size / 40) in
  let plus_x := center_x + heart_size / 2 + plus_size / 2 in
  let plus_y := center_y - heart_size / 2 - plus_size / 2 in
  [ (polygon_region P (CreateIcons.shadow_points size), PxRGB 0 0 0);
    (polygon_region P (CreateIcons.heart_points size), PxRGB 255 255 255);
    (ellipse_region P
       (IZR (plus_x - plus_size)) (IZR (plus_y - plus_size))
       (IZR (plus_x + plus_size)) (IZR (plus_y + plus_size)),
     PxRGB 255 255 255);
    (rectangle_cover
       (plus_x - plus_thickness / 2) (plus_y - plus_size + 2)
       (plus_x + plus_thickness / 2) (plus_y + plus_size - 2),
     PxRGB 52 199 89);
    (rectangle_cover
       (plus_x - plus_size + 2) (plus_y - plus_thickness / 2)
       (plus_x + plus_size - 2) (plus_y + plus_thickness / 2),
     PxRGB 52 199 89) ].

Definition solid_layers (size : Z) : list (Region * Pixel) :=
  let center_x := size / 2 in
  let center_y := size / 2 in
  let cross_size := size / 3 in
  let cross_width := Z.max 4 (size / 20) in
  [ (rectangle_cover
       (center_x - cross_size / 2) (center_y - cross_width / 2)
       (center_x + cross_size / 2) (center_y + cross_width / 2),
     PxRGB 255 255 255);
    (rectangle_cover
       (center_x - cross_width / 2) (center_y - cross_size / 2)
       (center_x + cross_width / 2) (center_y + cross_size / 2),
     PxRGB 255 255 255) ].

Definition heart_layers (P : Pillow) (size : Z) : list (Region * Pixel) :=
  [ (polygon_region P (CreateBeautifulIcons.shadow_points size),
     PxRGB 200 200 200);
    (polygon_region P (CreateBeautifulIcons.heart_points size),
     PxRGB 52 199 89);
    (polygon_region P (CreateBeautifulIcons.highlight_points size),
     PxRGB 82 229 119) ].

Definition gear_layers (P : Pillow) (size : Z) : list (Region * Pixel) :=
  let center_x := size / 2 in
  let center_y := size / 2 in
  let heart_size := size / 3 in
  let gear_size := size / 6 in
  let gear_x := center_x + heart_size / 2 + gear_size / 2 in
  let gear_y := center_y - heart_size / 2 - gear_size / 2 in
  let gear_radius := gear_size / 2 in
  let inner_radius := gear_radius / 2 in
  [ (ellipse_region P
       (IZR (gear_x - gear_radius)) (IZR (gear_y - gear_radius))
       (IZR (gear_x + gear_radius)) (IZR (gear_y + gear_radius)),
     PxRGB 255 255 255) ]
  ++ map (fun i =>
            (polygon_region P
               (CreateBeautifulIcons.tooth gear_x gear_y gear_radius i),
             PxRGB 100 100 100))
         (range 8)
  ++ [ (ellipse_region P
          (IZR (gear_x - inner_radius)) (IZR (gear_y - inner_radius))
          (IZR (gear_x + inner_radius)) (IZR (gear_y + inner_radius)),
        PxRGB 150 150 150) ].

Definition plus_layers (P : Pillow) (size : Z) : list (Region * Pixel) :=
  let center_x := size / 2 in
  let center_y := size / 2 in
  let heart_size := size / 3 in
  let plus_size := size / 8 in
  let plus_x := center_x + heart_size / 2 in
  let plus_y := center_y + heart_size / 2 in
  let plus_thickness := Z.max 3 (size / 60) in
  let plus_bg_radius := plus_size / 2 + 2 in
  [ (ellipse_region P
       (IZR (plus_x - plus_bg_radius)) (IZR (plus_y - plus_bg_radius))
       (IZR (plus_x + plus_bg_radius)) (IZR (plus_y + plus_bg_radius)),
     PxRGB 255 255 255);
    (rectangle_cover
       (plus_x - plus_size / 2) (plus_y - plus_thickness / 2)
       (plus_x + plus_size / 2) (plus_y + plus_thickness / 2),
     PxRGB 52 199 89);
    (rectangle_cover
       (plus_x - plus_thickness / 2) (plus_y - plus_size / 2)
       (plus_x + plus_thickness / 2) (plus_y + plus_size / 2),
     PxRGB 52 199 89) ].

(** The pixels of data dot [i] *)
Definition dot_region (P : Pillow) (size i : Z) : Region :=
  let '(x0, y0, x1, y1) := CreateBeautifulIcons.dot_box size i in
  ellipse_region P x0 y0 x1 y1.

Definition dot_layers (P : Pillow) (size : Z) : list (Region * Pixel) :=
  map (fun i => (dot_region P size i, PxRGB 52 199 89)) (range 6).

Definition beautiful_layers (P : Pillow) (size : Z) : list (Region * Pixel) :=
  heart_layers P size ++ gear_layers P size ++ plus_layers P size
  ++ dot_layers P size.

Definition glyph_layers (P : Pillow) (style : Style) (size : Z)
  : list (Region * Pixel) :=
  match style with
  | Icons => icons_layers P size
  | Solid => solid_layers size
  | Beautiful => beautiful_layers P size
  end.

(** The pixel under the glyph layers: the gradient row, seen through the
    rounded-rectangle mask where the script composites one *)
Definition base_pixel (P : Pillow) (style : Style) (size x y : Z)
  : option Pixel :=
  match style with
  | Icons =>
      if rounded_rectangle_cover P 0 0 size size (size / 6) x y
      then ink_of RGB (gradient_color Icons size y)
      else Some (PxRGB 255 255 255)
  | Solid => ink_of RGB (gradient_color Solid size y)
  | Beautiful =>
      if rounded_rectangle_cover P 0 0 size size (size / 8) x y
      then ink_of RGB (gradient_color Beautiful size y)
      else Some (PxRGB 248 249 250)
  end.

(** The sizes each script renders without an exception under every
    [Pillow] profile.  Below 16 the plus badge of create_icons.py has a
    bounding box with [y1 < y0]. *)
Definition renders (style : Style) (size : Z) : Prop :=
  match style with
  | Icons => 16 <= size
  | Solid => 0 <= size
  | Beautiful => 0 <= size
  end.

(** C3, per style and size: the top row of the gradient averages to the
    start colour; the bottom row averages within three units of the end
    colour, and within one unit from size 40 on. *)
Definition ends_meet (P : Pillow) (style : Style) (S : Z) : Prop :=
  exists img bottom,
    background P style S = inr img /\
    row_average img 0 = Some (start_color style) /\
    row_average img (S - 1) = Some bottom /\
    within 3 bottom (end_color style) = true /\
    (40 <= S -> within 1 bottom (end_color style) = true).

(** What decides [ends_meet] at one size: the two colours the script
    computes for the first and the last row *)
Definition ends_check (style : Style) (S : Z) : bool :=
  match option_map bands (ink_of RGB (gradient_color style S 0)),
        option_map bands (ink_of RGB (gradient_color style S (S - 1))) with
  | Some top, Some bottom =>
      within 0 top (start_color style) && within 3 bottom (end_color style)
      && ((S <? 40) || within 1 bottom (end_color style))
  | _, _ => false
  end.

(** The heart polygon of a style, and the factor that scales the curve *)
Definition heart_polygon (style : Style) (size : Z) : list (R * R) :=
  match style with
  | Icons => CreateIcons.heart_points size
  | Solid => []
  | Beautiful => CreateBeautifulIcons.heart_points size
  end.

Definition heart_scale (style : Style) (size : Z) : R :=
  match style with
  | Icons => (IZR (size / 3) / 32)%R
  | Solid => 0%R
  | Beautiful => (IZR (size / 3) / 20)%R
  end.

(** C4 as stated: the centre of the bounding box is within one pixel of
    (S/2, S/2) *)
Definition glyph_centered (style : Style) (S : Z) : Prop :=
  (Rabs (fst (bbox_center (heart_polygon style S)) - IZR S / 2) <= 1 /\
   Rabs (snd (bbox_center (heart_polygon style S)) - IZR S / 2) <= 1)%R.

(** The heart curve's ordinate before the sign flip, as a polynomial in
    [cos t] *)
Definition lobes (c : R) : R :=
  (- 8 * c ^ 4 - 8 * c ^ 3 - 2 * c ^ 2 + 19 * c + 4)%R.

(** ** What is asked of a scan conversion

    A filled ellipse stays inside its bounding box, a filled polygon inside
    the bounding box of its vertices, and a filled rounded rectangle paints
    at least the pixels strictly inside its outline: those of the box that
    are not in a corner square, and those of a corner square that lie
    strictly inside the corner's circle. *)

Definition in_corner_disc (cx cy r x y : Z) : bool :=
  (x - cx) * (x - cx) + (y - cy) * (y - cy) <? r * r.

Definition rounded_rectangle_core (x0 y0 x1 y1 r x y : Z) : bool :=
  span x0 x1 x && span y0 y1 y &&
  (if (x <? x0 + r) && (y <? y0 + r) then in_corner_disc (x0 + r) (y0 + r) r x y
   else if (x1 - r <? x) && (y <? y0 + r)
        then in_corner_disc (x1 - r) (y0 + r) r x y
   else if (x <? x0 + r) && (y1 - r <? y)
        then in_corner_disc (x0 + r) (y1 - r) r x y
   else if (x1 - r <? x) && (y1 - r <? y)
        then in_corner_disc (x1 - r) (y1 - r) r x y
   else true).

Record Lawful (P : Pillow) : Prop := mkLawful {
  ellipse_in_box :
    forall x0 y0 x1 y1 x y,
      ellipse_cover P x0 y0 x1 y1 x y = true ->
      x0 <= x <= x1 /\ y0 <= y <= y1;
  polygon_in_box :
    forall pts x y,
      polygon_cover P pts x y = true ->
      (exists p, In p pts /\ fst p <= x) /\ (exists p, In p pts /\ x <= fst p) /\
      (exists p, In p pts /\ snd p <= y) /\ (exists p, In p pts /\ y <= snd p);
  rounded_rectangle_core_painted :
    forall x0 y0 x1 y1 r x y,
      0 <= r -> 2 * r < x1 - x0 - 1 -> 2 * r < y1 - y0 - 1 ->
      rounded_rectangle_core x0 y0 x1 y1 r x y = true ->
      rounded_rectangle_cover P x0 y0 x1 y1 r x y = true
}.

(** ** What is asked of a faithful scan conversion

    A scan conversion is faithful when, beyond being lawful, it keeps a
    rounded rectangle within one pixel of its outline and fills a polygon
    row by row by the parity rule: on a row where every edge that reaches
    the row passes at least two pixels to one side of a pixel, on that row
    and on the rows next to it, the pixel is painted exactly when an odd
    number of edges cross the row on its left. *)

(** The edges of the closed polygon through a vertex list *)
Fixpoint chain {A : Type} (first prev : A) (rest : list A) : list (A * A) :=
  match rest with
  | [] => [(prev, first)]
  | p :: rest' => (prev, p) :: chain first p rest'
  end.

Definition edges {A : Type} (pts : list A) : list (A * A) :=
  match pts with
  | [] => []
  | p :: rest => chain p p rest
  end.

Definition Edge : Type := (Z * Z) * (Z * Z).

(** The edge has a point on row [y] *)
Definition touching (y : Z) (e : Edge) : bool :=
  (Z.min (snd (fst e)) (snd (snd e)) <=? y)
  && (y <=? Z.max (snd (fst e)) (snd (snd e))).

(** The edge crosses row [y], its lower end left out *)
Definition crossing (y : Z) (e : Edge) : bool :=
  (Z.min (snd (fst e)) (snd (snd e)) <=? y)
  && (y <? Z.max (snd (fst e)) (snd (snd e))).

(** On row [y'] the line through the edge is at column [x] or left of it
    (for a level edge: the whole edge is) *)
Definition line_left_of (x y' : Z) (e : Edge) : bool :=
  let '((xa, ya), (xb, yb)) := e in
  if ya =? yb then Z.max xa xb <=? x
  else if ya <? yb then (y' - ya) * (xb - xa) <=? (x - xa) * (yb - ya)
  else (y' - yb) * (xa - xb) <=? (x - xb) * (ya - yb).

Definition line_right_of (x y' : Z) (e : Edge) : bool :=
  let '((xa, ya), (xb, yb)) := e in
  if ya =? yb then x <=? Z.min xa xb
  else if ya <? yb then (x - xa) * (yb - ya) <=? (y' - ya) * (xb - xa)
  else (x - xb) * (ya - yb) <=? (y' - yb) * (xa - xb).

Definition clear_left (x y : Z) (e : Edge) : bool :=
  line_left_of (x - 2) (y - 1) e && line_left_of (x - 2) y e
  && line_left_of (x - 2) (y + 1) e.

Definition clear_right (x y : Z) (e : Edge) : bool :=
  line_right_of (x + 2) (y - 1) e && line_right_of (x + 2) y e
  && line_right_of (x + 2) (y + 1) e.

(** Every edge that reaches row [y] is clear of column [x] *)
Definition row_clear (x y : Z) (pts : list (Z * Z)) : bool :=
  forallb (fun e => negb (touching y e) || clear_left x y e
                    || clear_right x y e) (edges pts).

(** The edges that cross row [y] on the left of column [x] *)
Definition left_crossings (x y : Z) (pts : list (Z * Z)) : list Edge :=
  filter (fun e => crossing y e && clear_left x y e) (edges pts).

Definition rounded_rectangle_hull (x0 y0 x1 y1 r x y : Z) : bool :=
  let near cx cy := (x - cx) * (x - cx) + (y - cy) * (y - cy)
                    <=? (r + 1) * (r + 1) in
  span x0 x1 x && span y0 y1 y &&
  (if (x <? x0 + r) && (y <? y0 + r) then near (x0 + r) (y0 + r)
   else if (x1 - r <? x) && (y <? y0 + r) then near (x1 - r) (y0 + r)
   else if (x <? x0 + r) && (y1 - r <? y) then near (x0 + r) (y1 - r)
   else if (x1 - r <? x) && (y1 - r <? y) then near (x1 - r) (y1 - r)
   else true).

Record Faithful (P : Pillow) : Prop := mkFaithful {
  faithful_lawful : Lawful P;
  rounded_rectangle_in_hull :
    forall x0 y0 x1 y1 r x y,
      0 <= r ->
      rounded_rectangle_cover P x0 y0 x1 y1 r x y = true ->
      rounded_rectangle_hull x0 y0 x1 y1 r x y = true;
  polygon_row_parity :
    forall pts x y,
      row_clear x y pts = true ->
      (exists p, In p pts /\ y < snd p) ->
      polygon_cover P pts x y
      = Nat.odd (List.length (left_crossings x y pts))
}.

(** The heart curve of create_beautiful_icons.py at parameter step [t]
    (lines 44-53), and the vertices Pillow receives for the heart and for
    its highlight *)
Definition heart_point (size t : Z) : R * R :=
  let center_x := size / 2 in
  let center_y := size / 2 in
  let heart_size := size / 3 in
  let t_rad := (IZR t / 100)%R in
  let x := (16 * sin t_rad ^ 3)%R in
  let y := (- (13 * cos t_rad - 5 * cos (2 * t_rad)
               - 2 * cos (3 * t_rad) - cos (4 * t_rad)))%R in
  let scale := (IZR heart_size / 20)%R in
  ((IZR center_x + x * scale)%R, (IZR center_y + y * scale)%R).

Definition heart_vertex (size t : Z) : Z * Z :=
  (c_int (fst (heart_point size t)), c_int (snd (heart_point size t))).

Definition highlight_vertex (size t : Z) : Z * Z :=
  let shadow_offset := Z.max 2 (size / 200) in
  (c_int (fst (heart_point size t) - IZR (shadow_offset / 2)),
   c_int (snd (heart_point size t) - IZR (shadow_offset / 2))).

(** The loop of lines 128-137 of create_beautiful_icons.py with the boxes
    left open: one ellipse per box, each with the dots' fill
    (52, 199, 89, 180), in the order of the list. *)
Definition draw_dots (P : Pillow) (boxes : list (R * R * R * R))
  (final_img : Image) : result Image :=
  for_each boxes
    (fun box final_img =>
       let '(x0, y0, x1, y1) := box in
       ellipse P final_img x0 y0 x1 y1 CreateBeautifulIcons.dot_fill)
    final_img.



(** ** The cross of create_solid_icons.py

    The two bars of lines 32-41, as distances from the pixel
    [(size // 2, size // 2)]. *)
Definition on_cross (size x y : Z) : bool :=
  let cross_size := size / 3 in
  let cross_width := Z.max 4 (size / 20) in
  (Z.abs (x - size / 2) <=? cross_size / 2)
  && (Z.abs (y - size / 2) <=? cross_width / 2)
  || (Z.abs (x - size / 2) <=? cross_width / 2)
     && (Z.abs (y - size / 2) <=? cross_size / 2).

(** The plus badge of create_icons.py, lines 63-79: its two bars *)
Definition on_plus (size x y : Z) : bool :=
  let plus_size := size / 8 in
  let plus_thickness := Z.max 2 (size / 40) in
  let plus_x := size / 2 + size / 3 / 2 + plus_size / 2 in
  let plus_y := size / 2 - size / 3 / 2 - plus_size / 2 in
  (Z.abs (x - plus_x) <=? plus_thickness / 2)
  && (Z.abs (y - plus_y) <=? plus_size - 2)
  || (Z.abs (x - plus_x) <=? plus_size - 2)
     && (Z.abs (y - plus_y) <=? plus_thickness / 2).

(** The gradient fades: the channels of a row against those of another,
    one by one *)
Fixpoint le_all (l1 l2 : list Z) : bool :=
  match l1, l2 with
  | [], [] => true
  | a :: l1', b :: l2' => (a <=? b) && le_all l1' l2'
  | _, _ => false
  end.

(** The channels of gradient row [y]; empty where the script raises *)
Definition gradient_row (style : Style) (size y : Z) : list Z :=
  match gradient_color style size y with
  | inr (Tuple c) => c
  | _ => []
  end.

(** Row [y] lies between the end colour and the start colour, and the row
    below it, if there is one, is nowhere brighter. *)
Definition fades_at (style : Style) (size y : Z) : bool :=
  le_all (end_color style) (gradient_row style size y)
  && le_all (gradient_row style size y) (start_color style)
  && ((size <=? y + 1)
      || le_all (gradient_row style size (y + 1)) (gradient_row style size y)).

(** ** A reference scan conversion: the ideal shapes on the pixel grid *)

Module Reference.

Definition sq (a : Z) : Z := a * a.

Definition line_cover (x0 y0 x1 y1 x y : Z) : bool :=
  span (Z.min x0 x1) (Z.max x0 x1) x && span (Z.min y0 y1) (Z.max y0 y1) y &&
  (2 * Z.abs ((x - x0) * (y1 - y0) - (y - y0) * (x1 - x0))
     <=? Z.max (Z.abs (x1 - x0)) (Z.abs (y1 - y0))).

Definition ellipse_cover (x0 y0 x1 y1 x y : Z) : bool :=
  span x0 x1 x && span y0 y1 y &&
  (sq (2 * x - (x0 + x1)) * sq (y1 - y0) + sq (2 * y - (y0 + y1)) * sq (x1 - x0)
     <=? sq (x1 - x0) * sq (y1 - y0)).

(** The edge from [a] to [b] crosses the ray that leaves (x, y) rightward *)
Definition crosses (x y : Z) (a b : Z * Z) : bool :=
  let (xa, ya) := a in
  let (xb, yb) := b in
  if (ya <=? y) && (y <? yb)
  then (x - xa) * (yb - ya) <? (xb - xa) * (y - ya)
  else if (yb <=? y) && (y <? ya)
       then (x - xb) * (ya - yb) <? (xa - xb) * (y - yb)
       else false.

Fixpoint odd_crossings (x y : Z) (first prev : Z * Z) (rest : list (Z * Z))
  : bool :=
  match rest with
  | [] => crosses x y prev first
  | p :: rest' => xorb (crosses x y prev p) (odd_crossings x y first p rest')
  end.

Definition in_vertex_box (pts : list (Z * Z)) (x y : Z) : bool :=
  existsb (fun p => fst p <=? x) pts && existsb (fun p => x <=? fst p) pts &&
  existsb (fun p => snd p <=? y) pts && existsb (fun p => y <=? snd p) pts.

Definition polygon_cover (pts : list (Z * Z)) (x y : Z) : bool :=
  in_vertex_box pts x y &&
  match pts with
  | [] => false
  | p :: rest => odd_crossings x y p p rest
  end.

Definition in_disc (cx cy r x y : Z) : bool :=
  sq (x - cx) + sq (y - cy) <=? sq r.

Definition rounded_rectangle_cover (x0 y0 x1 y1 r x y : Z) : bool :=
  span x0 x1 x && span y0 y1 y &&
  (if (x <? x0 + r) && (y <? y0 + r) then in_disc (x0 + r) (y0 + r) r x y
   else if (x1 - r <? x) && (y <? y0 + r) then in_disc (x1 - r) (y0 + r) r x y
   else if (x <? x0 + r) && (y1 - r <? y) then in_disc (x0 + r) (y1 - r) r x y
   else if (x1 - r <? x) && (y1 - r <? y) then in_disc (x1 - r) (y1 - r) r x y
   else true).

Definition pillow : Pillow :=
  mkPillow true line_cover polygon_cover ellipse_cover rounded_rectangle_cover.

End Reference.

(** * Properties *)

Ltac Zify.zify_post_hook ::= Z.to_euclidean_division_equations.

Ltac zbool :=
  repeat match goal with
         | |- context [?a <=? ?b] => destruct (Z.leb_spec a b)
         | |- context [?a <? ?b] => destruct (Z.ltb_spec a b)
         | |- context [?a =? ?b] => destruct (Z.eqb_spec a b)
         end;
  simpl; try reflexivity; try lia.



(** ** Lists and rasters *)

Lemma length_mapi {A B : Type} (f : Z -> A -> B) (l : list A) :
  forall i, List.length (mapi f i l) = List.length l.
Proof.
  induction l as [|a l IH]; intros i; simpl; [reflexivity|].
  now rewrite IH.
Qed.

Lemma nth_error_mapi {A B : Type} (f : Z -> A -> B) (l : list A) :
  forall i n,
    nth_error (mapi f i l) n = option_map (f (i + Z.of_nat n)) (nth_error l n).
Proof.
  induction l as [|a l IH]; intros i [|n]; simpl; try reflexivity.
  - now rewrite Z.add_0_r.
  - rewrite IH. do 2 f_equal. lia.
Qed.

Lemma Forall_mapi {A B : Type} (f : Z -> A -> B) (Q1 : A -> Prop)
  (Q2 : B -> Prop) (l : list A) :
  (forall i a, Q1 a -> Q2 (f i a)) ->
  forall i, Forall Q1 l -> Forall Q2 (mapi f i l).
Proof.
  intros Hf. induction l as [|a l IH]; intros i Hl; simpl; constructor.
  - apply Hf. now inversion Hl.
  - apply IH. now inversion Hl.
Qed.

Lemma getpixel_paint (cover : Z -> Z -> bool) (ink : Pixel) (im : Image)
  (x y : Z) :
  getpixel (paint cover ink im) x y =
  option_map (fun old => if cover x y then ink else old) (getpixel im x y).
Proof.
  unfold getpixel, paint; simpl.
  destruct ((x <? 0) || (y <? 0)) eqn:G; [reflexivity|].
  apply orb_false_elim in G as [Gx Gy].
  apply Z.ltb_ge in Gx, Gy.
  rewrite nth_error_mapi.
  destruct (nth_error (data im) (Z.to_nat y)) as [row|]; simpl; [|reflexivity].
  rewrite nth_error_mapi. simpl.
  now rewrite !Z2Nat.id by assumption.
Qed.

Lemma well_formed_paint (m : Mode) (w h : Z) (cover : Z -> Z -> bool)
  (ink : Pixel) (im : Image) :
  has_mode m ink -> well_formed m w h im ->
  well_formed m w h (paint cover ink im).
Proof.
  intros Hink (Hm & Hw & Hh & Hl & Hrows).
  repeat split; simpl; try assumption.
  - now rewrite length_mapi.
  - apply Forall_mapi with (2 := Hrows). intros i row [Hlen Hpx]. split.
    + now rewrite length_mapi.
    + apply Forall_mapi with (2 := Hpx). intros j px Hp.
      now destruct (cover j i).
Qed.

Lemma getink_has_mode (m : Mode) (c : Color) (px : Pixel) :
  getink m c = inr px -> has_mode m px.
Proof.
  destruct m, c as [v|[|a [|b [|c [|d [|e l]]]]]]; simpl; intros H;
    try discriminate; injection H as <-; exact I.
Qed.

Lemma well_formed_new (m : Mode) (w h : Z) (c : Color) (px : Pixel) :
  0 <= w -> 0 <= h -> getink m c = inr px ->
  new m w h c = inr (mkImage m w h (repeat (repeat px (Z.to_nat w)) (Z.to_nat h)))
  /\ well_formed m w h
       (mkImage m w h (repeat (repeat px (Z.to_nat w)) (Z.to_nat h))).
Proof.
  intros Hw Hh Hink. split.
  - unfold new. apply Z.ltb_ge in Hw, Hh. rewrite Hw, Hh. simpl.
    now rewrite Hink.
  - repeat split; simpl.
    + apply repeat_length.
    + apply Forall_forall. intros row Hrow. apply repeat_spec in Hrow as ->.
      split; [apply repeat_length|].
      apply Forall_forall. intros q Hq. apply repeat_spec in Hq as ->.
      eapply getink_has_mode; eassumption.
Qed.

Lemma nth_error_repeat_lt {A : Type} (a : A) (n k : nat) :
  (k < n)%nat -> nth_error (repeat a n) k = Some a.
Proof.
  revert k. induction n as [|n IH]; intros [|k] Hk; simpl; try lia;
    [reflexivity|]. apply IH. lia.
Qed.

Lemma getpixel_blank (m : Mode) (w h : Z) (px : Pixel) (x y : Z) :
  0 <= x < w -> 0 <= y < h ->
  getpixel (mkImage m w h (repeat (repeat px (Z.to_nat w)) (Z.to_nat h))) x y
  = Some px.
Proof.
  intros Hx Hy. unfold getpixel; simpl.
  replace ((x <? 0) || (y <? 0)) with false
    by (symmetry; apply orb_false_intro; apply Z.ltb_ge; lia).
  rewrite nth_error_repeat_lt by lia.
  apply nth_error_repeat_lt. lia.
Qed.

Lemma getpixel_inside (m : Mode) (w h : Z) (im : Image) (x y : Z) :
  well_formed m w h im -> 0 <= x < w -> 0 <= y < h ->
  exists px, getpixel im x y = Some px /\ has_mode m px.
Proof.
  intros (_ & _ & _ & Hl & Hrows) Hx Hy. unfold getpixel.
  replace ((x <? 0) || (y <? 0)) with false
    by (symmetry; apply orb_false_intro; apply Z.ltb_ge; lia).
  destruct (nth_error (data im) (Z.to_nat y)) as [row|] eqn:Er.
  - pose proof (proj1 (Forall_forall _ _) Hrows row (nth_error_In _ _ Er))
      as [Hlen Hpx].
    destruct (nth_error row (Z.to_nat x)) as [px|] eqn:Ex.
    + exists px. split; [reflexivity|].
      exact (proj1 (Forall_forall _ _) Hpx px (nth_error_In _ _ Ex)).
    + apply nth_error_None in Ex. lia.
  - apply nth_error_None in Er. lia.
Qed.


Lemma nth_error_map3 {A B C D : Type} (f : A -> B -> C -> D) (la : list A) :
  forall lb lc n,
    nth_error (map3 f la lb lc) n =
    match nth_error la n, nth_error lb n, nth_error lc n with
    | Some a, Some b, Some c => Some (f a b c)
    | _, _, _ => None
    end.
Proof.
  induction la as [|a la IH]; intros lb lc n.
  - simpl. rewrite nth_error_nil. now destruct n.
  - destruct lb as [|b lb], lc as [|c lc], n as [|n]; simpl;
      rewrite ?nth_error_nil; try reflexivity.
    + now destruct (nth_error la n).
    + now destruct (nth_error la n).
    + now destruct (nth_error la n), (nth_error lb n).
    + apply IH.
Qed.

Lemma length_map3 {A B C D : Type} (f : A -> B -> C -> D) (la : list A) :
  forall lb lc,
    List.length lb = List.length la -> List.length lc = List.length la ->
    List.length (map3 f la lb lc) = List.length la.
Proof.
  induction la as [|a la IH]; intros [|b lb] [|c lc]; simpl; intros Hb Hc;
    try discriminate; try reflexivity.
  f_equal. apply IH; congruence.
Qed.

Lemma Forall_map3 {A B C D : Type} (f : A -> B -> C -> D)
  (QA : A -> Prop) (QB : B -> Prop) (QC : C -> Prop) (QD : D -> Prop) :
  (forall a b c, QA a -> QB b -> QC c -> QD (f a b c)) ->
  forall la lb lc, Forall QA la -> Forall QB lb -> Forall QC lc ->
                   Forall QD (map3 f la lb lc).
Proof.
  intros Hf. induction la as [|a la IH]; intros [|b lb] [|c lc] Ha Hb Hc;
    simpl; try constructor.
  - apply Hf; [now inversion Ha|now inversion Hb|now inversion Hc].
  - apply IH; [now inversion Ha|now inversion Hb|now inversion Hc].
Qed.

Lemma has_mode_paste_pixel (d s m : Pixel) :
  has_mode RGB d -> has_mode RGB (paste_pixel d s m).
Proof. destruct d, s, m; simpl; intros H; try exact H; exact I. Qed.

(** [paste] on three rasters of one size: defined, well formed, and pixel
    by pixel the blend that the mask selects *)
Lemma paste_spec (w h : Z) (dst src mask : Image) :
  well_formed RGB w h dst -> well_formed RGB w h src ->
  well_formed L w h mask ->
  exists im,
    paste dst src mask = inr im /\ well_formed RGB w h im /\
    forall x y,
      getpixel im x y =
      match getpixel dst x y, getpixel src x y, getpixel mask x y with
      | Some d, Some s, Some m => Some (paste_pixel d s m)
      | _, _, _ => None
      end.
Proof.
  intros (Dm & Dw & Dh & Dl & Dr) (Sm & Sw & Sh & Sl & Sr)
         (Mm & Mw & Mh & Ml & Mr).
  eexists. split; [|split].
  - unfold paste. rewrite Dw, Dh, Sw, Sh, Mw, Mh, !Z.eqb_refl. reflexivity.
  - repeat split; simpl; try assumption.
    + rewrite length_map3; congruence.
    + apply (Forall_map3 (map3 paste_pixel)
               (fun row => List.length row = Z.to_nat w
                           /\ Forall (has_mode RGB) row)
               (fun row => List.length row = Z.to_nat w
                           /\ Forall (has_mode RGB) row)
               (fun row => List.length row = Z.to_nat w
                           /\ Forall (has_mode L) row)); try assumption.
      intros rd rs rm [Ld Fd] [Ls Fs] [Lm Fm]. split.
      * rewrite length_map3; congruence.
      * apply (Forall_map3 paste_pixel (has_mode RGB)
                 (fun _ => True) (fun _ => True));
          [ intros; now apply has_mode_paste_pixel | assumption
          | apply Forall_forall; trivial | apply Forall_forall; trivial ].
  - intros x y. unfold getpixel; simpl.
    destruct ((x <? 0) || (y <? 0)); [reflexivity|].
    rewrite nth_error_map3.
    destruct (nth_error (data dst) (Z.to_nat y)) as [rd|]; [|reflexivity].
    destruct (nth_error (data src) (Z.to_nat y)) as [rs|];
      [|now destruct (nth_error rd (Z.to_nat x))].
    destruct (nth_error (data mask) (Z.to_nat y)) as [rm|].
    + apply nth_error_map3.
    + destruct (nth_error rd (Z.to_nat x)); [|reflexivity].
      now destruct (nth_error rs (Z.to_nat x)).
Qed.

(** ** The drawing calls on an RGB canvas *)

Section DrawFacts.

Variable P : Pillow.

Lemma check_order_pass : check_order P false false = inr tt.
Proof. unfold check_order. now destruct (checks_xy_order P). Qed.

Lemma line_paints (im : Image) (x0 y0 x1 y1 : Z) (fill : Color) (ink : Pixel) :
  getink (mode im) fill = inr ink ->
  line P im x0 y0 x1 y1 fill =
  inr (paint (fun x y => if y0 =? y1 then hline_cover x0 x1 y0 x y
                         else line_cover P x0 y0 x1 y1 x y) ink im).
Proof. intros H. unfold line. now rewrite H. Qed.

Lemma rectangle_paints (im : Image) (x0 y0 x1 y1 : Z) (fill : Color)
  (ink : Pixel) :
  x0 <= x1 -> y0 <= y1 -> getink (mode im) fill = inr ink ->
  rectangle P im x0 y0 x1 y1 fill =
  inr (paint (rectangle_cover x0 y0 x1 y1) ink im).
Proof.
  intros Hx Hy H. unfold rectangle.
  apply Z.ltb_ge in Hx, Hy. rewrite Hx, Hy, check_order_pass. simpl.
  now rewrite H.
Qed.

Lemma Rltb_ge (a b : R) : (b <= a)%R -> Rltb a b = false.
Proof. intros H. unfold Rltb. destruct (Rlt_dec a b); [lra|reflexivity]. Qed.

Lemma ellipse_paints (im : Image) (x0 y0 x1 y1 : R) (fill : Color)
  (ink : Pixel) :
  (x0 <= x1)%R -> (y0 <= y1)%R -> getink (mode im) fill = inr ink ->
  ellipse P im x0 y0 x1 y1 fill =
  inr (paint (ellipse_region P x0 y0 x1 y1) ink im).
Proof.
  intros Hx Hy H. unfold ellipse.
  rewrite (Rltb_ge _ _ Hx), (Rltb_ge _ _ Hy), check_order_pass. simpl.
  now rewrite H.
Qed.

Lemma polygon_paints (im : Image) (points : list (R * R)) (fill : Color)
  (ink : Pixel) :
  (2 <= List.length points)%nat -> getink (mode im) fill = inr ink ->
  polygon P im points fill =
  inr (paint (polygon_region P points) ink im).
Proof.
  intros Hn H. unfold polygon.
  replace (Z.of_nat (List.length points) <? 2) with false
    by (symmetry; apply Z.ltb_ge; lia).
  now rewrite H.
Qed.

Lemma rounded_rectangle_paints (im : Image) (x0 y0 x1 y1 radius : Z)
  (fill : Color) (ink : Pixel) :
  x0 <= x1 -> y0 <= y1 -> getink (mode im) fill = inr ink ->
  rounded_rectangle P im x0 y0 x1 y1 radius fill =
  inr (paint (rounded_rectangle_cover P x0 y0 x1 y1 radius) ink im).
Proof.
  intros Hx Hy H. unfold rounded_rectangle.
  apply Z.ltb_ge in Hx, Hy. rewrite Hx, Hy, check_order_pass. simpl.
  now rewrite H.
Qed.

End DrawFacts.

(** ** Loops *)

Lemma for_each_invariant {A S : Type} (Inv : S -> Prop) (l : list A)
  (body : A -> S -> result S) :
  (forall a s, In a l -> Inv s -> exists s', body a s = inr s' /\ Inv s') ->
  forall s, Inv s -> exists s', for_each l body s = inr s' /\ Inv s'.
Proof.
  induction l as [|a l IH]; intros Hbody s Hs; simpl.
  - now exists s.
  - destruct (Hbody a s (or_introl eq_refl) Hs) as (s1 & E1 & H1).
    rewrite E1. simpl. apply IH; [|assumption].
    intros b t Hb. apply Hbody. now right.
Qed.

Lemma range_spec (n y : Z) : In y (range n) <-> 0 <= y < n.
Proof.
  unfold range. rewrite in_map_iff. split.
  - intros (k & <- & Hk). apply in_seq in Hk. lia.
  - intros H. exists (Z.to_nat y). split; [lia|]. apply in_seq. lia.
Qed.


(** ** The gradient loop *)

Section Gradient.

Variable P : Pillow.
Variable size : Z.
Variable gc : Z -> result Color.

Hypothesis gc_defined :
  forall y, 0 <= y < size -> exists px, ink_of RGB (gc y) = Some px.

Definition gradient_body (y : Z) (img : Image) : result Image :=
  color <- gc y ;; line P img 0 y size y color.

Lemma gradient_rows (n : nat) :
  forall (a : nat) (img : Image),
    well_formed RGB size size img ->
    Z.of_nat a + Z.of_nat n <= size ->
    exists img',
      for_each (map Z.of_nat (seq a n)) gradient_body img = inr img' /\
      well_formed RGB size size img' /\
      forall x y,
        0 <= x < size -> 0 <= y < size ->
        getpixel img' x y =
        if (Z.of_nat a <=? y) && (y <? Z.of_nat a + Z.of_nat n)
        then ink_of RGB (gc y) else getpixel img x y.
Proof.
  induction n as [|n IH]; intros a img Hwf Hn.
  - exists img. split; [reflexivity|]. split; [assumption|].
    intros x y _ _.
    now replace ((Z.of_nat a <=? y) && (y <? Z.of_nat a + Z.of_nat 0))
      with false by zbool.
  - destruct (gc_defined (Z.of_nat a)) as [px Hpx]; [lia|].
    unfold ink_of in Hpx.
    destruct (gc (Z.of_nat a)) as [e|col] eqn:Ec; [discriminate|].
    destruct (getink RGB col) as [e|px'] eqn:Ei; [discriminate|].
    injection Hpx as ->.
    assert (Hmode : mode img = RGB) by apply Hwf.
    set (img1 := paint (fun x y => if Z.of_nat a =? Z.of_nat a
                                   then hline_cover 0 size (Z.of_nat a) x y
                                   else line_cover P 0 (Z.of_nat a) size
                                          (Z.of_nat a) x y) px img).
    assert (Hwf1 : well_formed RGB size size img1).
    { apply well_formed_paint; [|assumption].
      eapply getink_has_mode; eassumption. }
    destruct (IH (S a) img1 Hwf1) as (img' & Eloop & Hwf' & Hpix); [lia|].
    exists img'. split; [|split; [assumption|]].
    + simpl. unfold gradient_body at 1. rewrite Ec. simpl.
      rewrite (line_paints P img 0 (Z.of_nat a) size (Z.of_nat a) col px)
        by (now rewrite Hmode).
      simpl. exact Eloop.
    + intros x y Hx Hy. rewrite (Hpix x y Hx Hy).
      unfold img1. rewrite getpixel_paint, Z.eqb_refl.
      destruct (getpixel_inside RGB size size img x y Hwf Hx Hy)
        as (old & Eold & _).
      rewrite Eold; cbn [option_map].
      unfold hline_cover, span.
      destruct (Z.eq_dec y (Z.of_nat a)) as [->|Hne].
      * rewrite Z.eqb_refl.
        replace ((Z.of_nat (S a) <=? Z.of_nat a)
                 && (Z.of_nat a <? Z.of_nat (S a) + Z.of_nat n))
          with false by zbool.
        replace ((Z.of_nat a <=? Z.of_nat a)
                 && (Z.of_nat a <? Z.of_nat a + Z.of_nat (S n)))
          with true by zbool.
        replace ((Z.min 0 size <=? x) && (x <=? Z.max 0 size)) with true
          by zbool.
        cbn [andb]. unfold ink_of. now rewrite Ec, Ei.
      * replace (y =? Z.of_nat a) with false
          by (symmetry; apply Z.eqb_neq; assumption).
        cbn [andb].
        replace ((Z.of_nat a <=? y) && (y <? Z.of_nat a + Z.of_nat (S n)))
          with ((Z.of_nat (S a) <=? y)
                && (y <? Z.of_nat (S a) + Z.of_nat n)) by zbool.
        now destruct ((Z.of_nat (S a) <=? y)
                      && (y <? Z.of_nat (S a) + Z.of_nat n)).
Qed.

(** The canvas after the loop: row [y] holds the ink of [gc y]. *)
Lemma gradient_canvas (color : Color) (px : Pixel) :
  0 <= size -> getink RGB color = inr px ->
  exists img,
    (img0 <- new RGB size size color ;;
     for_each (range size) gradient_body img0) = inr img /\
    well_formed RGB size size img /\
    forall x y, 0 <= x < size -> 0 <= y < size ->
                getpixel img x y = ink_of RGB (gc y).
Proof.
  intros Hs Hink.
  destruct (well_formed_new RGB size size color px Hs Hs Hink) as [En Hwf].
  rewrite En; simpl.
  destruct (gradient_rows (Z.to_nat size) 0 _ Hwf) as (img & E & Hwf' & Hpix);
    [lia|].
  exists img. split; [exact E|]. split; [exact Hwf'|].
  intros x y Hx Hy. rewrite (Hpix x y Hx Hy).
  now replace ((Z.of_nat 0 <=? y) && (y <? Z.of_nat 0 + Z.of_nat (Z.to_nat size)))
    with true by zbool.
Qed.

End Gradient.

Lemma gradient_color_defined (style : Style) (size y : Z) :
  size <> 0 ->
  exists r g b, gradient_color style size y = inr (Tuple [r; g; b]).
Proof.
  intros Hs. apply Z.eqb_neq in Hs.
  destruct style; simpl;
    unfold CreateIcons.gradient_color, CreateSolidIcons.gradient_color,
      CreateBeautifulIcons.gradient_color, truediv;
    rewrite Hs; simpl; eauto.
Qed.

Lemma gradient_color_ink (style : Style) (size y : Z) :
  size <> 0 -> exists px, ink_of RGB (gradient_color style size y) = Some px.
Proof.
  intros Hs. destruct (gradient_color_defined style size y Hs)
    as (r & g & b & E).
  rewrite E. simpl. eauto.
Qed.

(** Every style's [background]: defined for a size that is not negative,
    well formed, and row [y] holds the ink of the style's gradient colour. *)
Lemma background_spec (P : Pillow) (style : Style) (size : Z) :
  0 <= size ->
  exists img,
    background P style size = inr img /\
    well_formed RGB size size img /\
    forall x y, 0 <= x < size -> 0 <= y < size ->
                getpixel img x y = ink_of RGB (gradient_color style size y).
Proof.
  intros Hs.
  assert (Hdef : forall y, 0 <= y < size ->
            exists px, ink_of RGB (gradient_color style size y) = Some px).
  { intros y Hy. apply gradient_color_ink. lia. }
  destruct style; simpl;
    exact (gradient_canvas P size _ Hdef (Tuple [255; 255; 255])
             (PxRGB 255 255 255) Hs eq_refl).
Qed.


(** ** Layers *)

Lemma paint_layers_app (l1 l2 : list (Region * Pixel)) (im : Image) :
  paint_layers (l1 ++ l2) im = paint_layers l2 (paint_layers l1 im).
Proof. apply fold_left_app. Qed.

Lemma getpixel_paint_layers (layers : list (Region * Pixel)) :
  forall (im : Image) (x y : Z),
    getpixel (paint_layers layers im) x y =
    option_map (fun base => top_ink layers base x y) (getpixel im x y).
Proof.
  induction layers as [|[c k] layers IH]; intros im x y; simpl.
  - now destruct (getpixel im x y).
  - unfold paint_layers in IH. rewrite IH, getpixel_paint.
    now destruct (getpixel im x y).
Qed.

Lemma well_formed_paint_layers (w h : Z) (layers : list (Region * Pixel)) :
  Forall (fun l => has_mode RGB (snd l)) layers ->
  forall im, well_formed RGB w h im ->
             well_formed RGB w h (paint_layers layers im).
Proof.
  induction 1 as [|[c k] layers Hk _ IH]; intros im Hwf; simpl.
  - exact Hwf.
  - apply IH. now apply well_formed_paint.
Qed.

Lemma top_ink_app (l1 l2 : list (Region * Pixel)) (base : Pixel) (x y : Z) :
  top_ink (l1 ++ l2) base x y = top_ink l2 (top_ink l1 base x y) x y.
Proof. apply fold_left_app. Qed.

(** Where no layer holds the pixel the base shows. *)
Lemma top_ink_uncovered (layers : list (Region * Pixel)) (x y : Z) :
  Forall (fun l => fst l x y = false) layers ->
  forall base, top_ink layers base x y = base.
Proof.
  induction 1 as [|[c k] layers Hc _ IH]; intros base; simpl.
  - reflexivity.
  - simpl in Hc. rewrite Hc. apply IH.
Qed.

(** Where some layer holds the pixel and all layers share one ink, that
    ink shows. *)
Lemma top_ink_one_ink (ink : Pixel) (layers : list (Region * Pixel))
  (x y : Z) :
  Forall (fun l => snd l = ink) layers ->
  Exists (fun l => fst l x y = true) layers ->
  forall base, top_ink layers base x y = ink.
Proof.
  intros Hink. induction layers as [|[c k] layers IH]; intros Hex base.
  - inversion Hex.
  - inversion Hink as [|? ? Hk Hrest]; subst. simpl in *.
    destruct (Exists_dec (fun l : Region * Pixel => fst l x y = true) layers)
      as [Hin|Hout].
    + intros l. destruct (fst l x y); [now left|now right].
    + now apply IH.
    + inversion Hex as [? ? Hc|? ? Hl]; subst; [|contradiction].
      simpl in Hc. rewrite Hc.
      apply top_ink_uncovered.
      apply Forall_forall. intros l Hl.
      destruct (fst l x y) eqn:E; [|reflexivity].
      exfalso. apply Hout. apply Exists_exists. eauto.
Qed.

(** A loop of drawing calls that each paint one layer *)
Lemma for_each_layers {A : Type} (P : Pillow) (layer : A -> Region * Pixel)
  (body : A -> Image -> result Image) (l : list A) :
  (forall a im, In a l -> mode im = RGB ->
                body a im = inr (paint (fst (layer a)) (snd (layer a)) im)) ->
  forall im, mode im = RGB ->
             for_each l body im = inr (paint_layers (map layer l) im).
Proof.
  induction l as [|a l IH]; intros Hbody im Hm; simpl.
  - reflexivity.
  - rewrite (Hbody a im (or_introl eq_refl) Hm). simpl.
    apply IH; [|exact Hm].
    intros b im' Hb. apply Hbody. now right.
Qed.

Lemma mode_paint_layers (layers : list (Region * Pixel)) :
  forall im, mode (paint_layers layers im) = mode im.
Proof.
  induction layers as [|[c k] layers IH]; intros im; simpl; [reflexivity|].
  unfold paint_layers in IH. now rewrite IH.
Qed.

(** ** Rounded-corner compositing *)

Lemma composite_spec (P : Pillow) (size radius : Z) (bg : Color)
  (r g b : Z) (img : Image) :
  0 <= size -> getink RGB bg = inr (PxRGB r g b) ->
  well_formed RGB size size img ->
  exists final,
    (mask <- new L size size (Int 0) ;;
     mask <- rounded_rectangle P mask 0 0 size size radius (Int 255) ;;
     final_img <- new RGB size size bg ;;
     paste final_img img mask) = inr final /\
    well_formed RGB size size final /\
    forall x y,
      0 <= x < size -> 0 <= y < size ->
      getpixel final x y =
      if rounded_rectangle_cover P 0 0 size size radius x y
      then getpixel img x y else Some (PxRGB r g b).
Proof.
  intros Hs Hbg Hwf.
  destruct (well_formed_new L size size (Int 0) (PxL 0) Hs Hs eq_refl)
    as [Em Hwfm].
  rewrite Em; simpl.
  rewrite (rounded_rectangle_paints P
             (mkImage L size size
                (repeat (repeat (PxL 0) (Z.to_nat size)) (Z.to_nat size)))
             0 0 size size radius (Int 255) (PxL 255) Hs Hs eq_refl); simpl.
  destruct (well_formed_new RGB size size bg _ Hs Hs Hbg) as [Ef Hwff].
  rewrite Ef; simpl.
  set (mask := paint (rounded_rectangle_cover P 0 0 size size radius)
                     (PxL 255) _).
  assert (Hwfk : well_formed L size size mask)
    by (apply well_formed_paint; [exact I|exact Hwfm]).
  destruct (paste_spec size size _ img mask Hwff Hwf Hwfk)
    as (final & Ep & Hwfp & Hpix).
  exists final. split; [exact Ep|]. split; [exact Hwfp|].
  intros x y Hx Hy. rewrite Hpix.
  rewrite (getpixel_blank RGB size size _ x y Hx Hy).
  destruct (getpixel_inside RGB size size img x y Hwf Hx Hy)
    as (s & Es & Hms).
  rewrite Es. unfold mask. rewrite getpixel_paint.
  rewrite (getpixel_blank L size size _ x y Hx Hy). simpl.
  destruct s as [v|r' g' b']; [destruct Hms|].
  now destruct (rounded_rectangle_cover P 0 0 size size radius x y).
Qed.

(** ** The scripts refine their layers *)

Lemma length_icons_heart_points (size : Z) :
  List.length (CreateIcons.heart_points size) = 72%nat.
Proof. unfold CreateIcons.heart_points. now rewrite length_map. Qed.

Lemma length_icons_shadow_points (size : Z) :
  List.length (CreateIcons.shadow_points size) = 72%nat.
Proof.
  unfold CreateIcons.shadow_points.
  now rewrite length_map, length_icons_heart_points.
Qed.

Lemma length_heart_points (size : Z) :
  List.length (CreateBeautifulIcons.heart_points size) = 126%nat.
Proof. unfold CreateBeautifulIcons.heart_points. now rewrite length_map. Qed.

Lemma length_shadow_points (size : Z) :
  List.length (CreateBeautifulIcons.shadow_points size) = 126%nat.
Proof.
  unfold CreateBeautifulIcons.shadow_points.
  now rewrite length_map, length_heart_points.
Qed.

Lemma length_highlight_points (size : Z) :
  List.length (CreateBeautifulIcons.highlight_points size) = 42%nat.
Proof.
  unfold CreateBeautifulIcons.highlight_points.
  rewrite length_map, length_firstn, length_heart_points. reflexivity.
Qed.

Section Refinement.

Variable P : Pillow.

Ltac side Hm :=
  cbn [mode paint];
  rewrite ?mode_paint_layers, ?length_icons_shadow_points,
    ?length_icons_heart_points, ?length_shadow_points, ?length_heart_points;
  cbn [mode paint]; rewrite ?Hm;
  first [ lia | apply IZR_le; lia | reflexivity ].

Lemma icons_glyphs (size : Z) (base : Image) :
  16 <= size -> mode base = RGB ->
  (final_img <- CreateIcons.heart P size base ;;
   CreateIcons.plus_sign P size final_img)
  = inr (paint_layers (icons_layers P size) base).
Proof.
  intros Hs Hm.
  unfold CreateIcons.heart, CreateIcons.plus_sign, icons_layers.
  rewrite (polygon_paints P base _ _ (PxRGB 0 0 0)) by side Hm.
  cbn [bind].
  rewrite (polygon_paints P _ _ _ (PxRGB 255 255 255)) by side Hm.
  cbn [bind].
  rewrite (ellipse_paints P _ _ _ _ _ _ (PxRGB 255 255 255)) by side Hm.
  cbn [bind].
  rewrite (rectangle_paints P _ _ _ _ _ _ (PxRGB 52 199 89)) by side Hm.
  cbn [bind].
  rewrite (rectangle_paints P _ _ _ _ _ _ (PxRGB 52 199 89)) by side Hm.
  reflexivity.
Qed.

Lemma solid_glyphs (size : Z) (base : Image) :
  0 <= size -> mode base = RGB ->
  CreateSolidIcons.cross P size base
  = inr (paint_layers (solid_layers size) base).
Proof.
  intros Hs Hm.
  unfold CreateSolidIcons.cross, solid_layers.
  rewrite (rectangle_paints P _ _ _ _ _ _ (PxRGB 255 255 255)) by side Hm.
  cbn [bind].
  rewrite (rectangle_paints P _ _ _ _ _ _ (PxRGB 255 255 255)) by side Hm.
  reflexivity.
Qed.

Lemma heart_glyphs (size : Z) (base : Image) :
  mode base = RGB ->
  CreateBeautifulIcons.heart P size base
  = inr (paint_layers (heart_layers P size) base).
Proof.
  intros Hm. unfold CreateBeautifulIcons.heart, heart_layers.
  rewrite (polygon_paints P base _ _ (PxRGB 200 200 200)) by side Hm.
  cbn [bind].
  rewrite (polygon_paints P _ _ _ (PxRGB 52 199 89)) by side Hm.
  cbn [bind].
  pose proof (length_highlight_points size) as Hl.
  destruct (CreateBeautifulIcons.highlight_points size) as [|p ps] eqn:E;
    [discriminate|].
  rewrite (polygon_paints P _ _ _ (PxRGB 82 229 119)) by side Hm.
  reflexivity.
Qed.

Lemma gear_glyphs (size : Z) (base : Image) :
  0 <= size -> mode base = RGB ->
  CreateBeautifulIcons.gear P size base
  = inr (paint_layers (gear_layers P size) base).
Proof.
  intros Hs Hm. unfold CreateBeautifulIcons.gear, gear_layers.
  rewrite (ellipse_paints P _ _ _ _ _ _ (PxRGB 255 255 255)) by side Hm.
  cbn [bind].
  rewrite (for_each_layers P
             (fun i => (polygon_region P
                          (CreateBeautifulIcons.tooth
                             (size / 2 + size / 3 / 2 + size / 6 / 2)
                             (size / 2 - size / 3 / 2 - size / 6 / 2)
                             (size / 6 / 2) i),
                        PxRGB 100 100 100))).
  - cbn [bind].
    rewrite (ellipse_paints P _ _ _ _ _ _ (PxRGB 150 150 150)) by side Hm.
    rewrite !paint_layers_app. reflexivity.
  - intros i im _ Him. cbn [fst snd].
    apply polygon_paints; [simpl; lia|now rewrite Him].
  - exact Hm.
Qed.

Lemma plus_glyphs (size : Z) (base : Image) :
  0 <= size -> mode base = RGB ->
  CreateBeautifulIcons.plus_sign P size base
  = inr (paint_layers (plus_layers P size) base).
Proof.
  intros Hs Hm. unfold CreateBeautifulIcons.plus_sign, plus_layers.
  rewrite (ellipse_paints P _ _ _ _ _ _ (PxRGB 255 255 255)) by side Hm.
  cbn [bind].
  rewrite (rectangle_paints P _ _ _ _ _ _ (PxRGB 52 199 89)) by side Hm.
  cbn [bind].
  rewrite (rectangle_paints P _ _ _ _ _ _ (PxRGB 52 199 89)) by side Hm.
  reflexivity.
Qed.

Lemma dot_glyphs (size : Z) (base : Image) :
  mode base = RGB ->
  CreateBeautifulIcons.dots P size base
  = inr (paint_layers (dot_layers P size) base).
Proof.
  intros Hm. unfold CreateBeautifulIcons.dots, dot_layers.
  apply (for_each_layers P
           (fun i => (dot_region P size i, PxRGB 52 199 89)));
    [|exact Hm].
  intros i im _ Him. cbn [fst snd].
  unfold CreateBeautifulIcons.dot, dot_region,
    CreateBeautifulIcons.dot_box, CreateBeautifulIcons.dot_center.
  assert (Hr : (0 <= IZR (Z.max 2 (size / 100)))%R) by (apply IZR_le; lia).
  apply ellipse_paints; [lra|lra|now rewrite Him].
Qed.

Lemma beautiful_glyphs (size : Z) (base : Image) :
  0 <= size -> mode base = RGB ->
  (final_img <- CreateBeautifulIcons.heart P size base ;;
   final_img <- CreateBeautifulIcons.gear P size final_img ;;
   final_img <- CreateBeautifulIcons.plus_sign P size final_img ;;
   CreateBeautifulIcons.dots P size final_img)
  = inr (paint_layers (beautiful_layers P size) base).
Proof.
  intros Hs Hm. unfold beautiful_layers.
  rewrite heart_glyphs by exact Hm. cbn [bind].
  rewrite gear_glyphs by (rewrite ?mode_paint_layers; assumption). cbn [bind].
  rewrite plus_glyphs by (rewrite ?mode_paint_layers; assumption). cbn [bind].
  rewrite dot_glyphs by (rewrite ?mode_paint_layers; assumption).
  now rewrite !paint_layers_app.
Qed.

End Refinement.


(** ** Every render as a base and its layers *)

Lemma glyph_layers_rgb (P : Pillow) (style : Style) (size : Z) :
  Forall (fun l : Region * Pixel => has_mode RGB (snd l))
         (glyph_layers P style size).
Proof.
  destruct style; simpl.
  - repeat constructor.
  - repeat constructor.
  - unfold beautiful_layers, gear_layers, dot_layers.
    repeat (apply Forall_app; split); try (repeat constructor);
      apply Forall_forall; intros l Hl; apply in_map_iff in Hl;
      destruct Hl as (i & <- & _); exact I.
Qed.

Theorem render_spec (P : Pillow) (style : Style) (size : Z) :
  renders style size ->
  exists img,
    render P style size = inr img /\
    well_formed RGB size size img /\
    forall x y,
      0 <= x < size -> 0 <= y < size ->
      getpixel img x y =
      option_map (fun base => top_ink (glyph_layers P style size) base x y)
                 (base_pixel P style size x y).
Proof.
  intros Hr.
  assert (Hs : 0 <= size) by (destruct style; simpl in Hr; lia).
  destruct (background_spec P style size Hs) as (img & Ebg & Hwf & Hpix).
  pose proof (glyph_layers_rgb P style size) as Hrgb.
  destruct style; simpl in Hr, Ebg, Hrgb |- *.
  - unfold CreateIcons.render. rewrite Ebg. cbn [bind].
    destruct (composite_spec P size (size / 6) CreateIcons.white
                255 255 255 img Hs eq_refl Hwf)
      as (base & Ec & Hwfb & Hpb).
    unfold CreateIcons.composite. rewrite Ec. cbn [bind].
    rewrite icons_glyphs by (try assumption; apply Hwfb).
    eexists. split; [reflexivity|]. split.
    + now apply well_formed_paint_layers.
    + intros x y Hx Hy. rewrite getpixel_paint_layers, (Hpb x y Hx Hy).
      destruct (rounded_rectangle_cover P 0 0 size size (size / 6) x y);
        [|reflexivity].
      now rewrite (Hpix x y Hx Hy).
  - unfold CreateSolidIcons.render. rewrite Ebg. cbn [bind].
    rewrite solid_glyphs by (try assumption; apply Hwf). cbn [bind].
    rewrite mode_paint_layers.
    replace (mode img) with RGB by (symmetry; apply Hwf).
    eexists. split; [reflexivity|]. split.
    + now apply well_formed_paint_layers.
    + intros x y Hx Hy.
      now rewrite getpixel_paint_layers, (Hpix x y Hx Hy).
  - unfold CreateBeautifulIcons.render. rewrite Ebg. cbn [bind].
    destruct (composite_spec P size (size / 8)
                CreateBeautifulIcons.background_fill
                248 249 250 img Hs eq_refl Hwf)
      as (base & Ec & Hwfb & Hpb).
    unfold CreateBeautifulIcons.composite. rewrite Ec. cbn [bind].
    rewrite beautiful_glyphs by (try assumption; apply Hwfb).
    eexists. split; [reflexivity|]. split.
    + now apply well_formed_paint_layers.
    + intros x y Hx Hy. rewrite getpixel_paint_layers, (Hpb x y Hx Hy).
      destruct (rounded_rectangle_cover P 0 0 size size (size / 8) x y);
        [|reflexivity].
      now rewrite (Hpix x y Hx Hy).
Qed.


Lemma base_pixel_defined (P : Pillow) (style : Style) (size x y : Z) :
  size <> 0 -> exists px, base_pixel P style size x y = Some px.
Proof.
  intros Hs.
  destruct style; simpl;
    [ destruct (rounded_rectangle_cover P 0 0 size size (size / 6) x y)
    | | destruct (rounded_rectangle_cover P 0 0 size size (size / 8) x y) ];
    try (eexists; reflexivity).
  - exact (gradient_color_ink Icons size y Hs).
  - exact (gradient_color_ink Solid size y Hs).
  - exact (gradient_color_ink Beautiful size y Hs).
Qed.


(** ** Size and mode of the rendered image *)

Lemma renders_catalog (style : Style) :
  Forall (renders style) catalog.
Proof. destruct style; repeat constructor; simpl; lia. Qed.

(** C1.  For every size S of the catalog and each of the three scripts,
    rendering returns an image, of mode RGB, whose raster is exactly S rows
    of S pixels, each pixel holding the three bands R, G, B and no alpha
    band. *)
Theorem C1_catalog_sizes_render_square_rgb (P : Pillow) (style : Style) :
  Forall (fun S =>
            exists img,
              render P style S = inr img /\
              mode img = RGB /\ width img = S /\ height img = S /\
              List.length (data img) = Z.to_nat S /\
              Forall (fun row =>
                        List.length row = Z.to_nat S /\
                        Forall (fun px => exists r g b, px = PxRGB r g b) row)
                     (data img))
         catalog.
Proof.
  pose proof (renders_catalog style) as Hc.
  apply Forall_forall. intros S HS.
  pose proof (proj1 (Forall_forall _ _) Hc S HS) as Hr.
  destruct (render_spec P style S Hr) as (img & E & Hwf & _).
  exists img. split; [exact E|].
  destruct Hwf as (Hm & Hw & Hh & Hl & Hrows).
  repeat (split; [assumption|]).
  apply Forall_forall. intros row Hrow.
  pose proof (proj1 (Forall_forall _ _) Hrows row Hrow) as [Hlen Hpx].
  split; [exact Hlen|].
  apply Forall_forall. intros px Hin.
  pose proof (proj1 (Forall_forall _ _) Hpx px Hin) as Hmode.
  destruct px as [v|r g b]; [destruct Hmode|eauto].
Qed.

(** ** Sizes that are refused, and sizes that render *)

Lemma negative_size_refused (P : Pillow) (style : Style) (size : Z) :
  size < 0 ->
  render P style size = inl (ValueError "Width and height must be >= 0").
Proof.
  intros Hs. apply Z.ltb_lt in Hs.
  destruct style; simpl;
    unfold CreateIcons.render, CreateIcons.background,
      CreateSolidIcons.render, CreateSolidIcons.background,
      CreateBeautifulIcons.render, CreateBeautifulIcons.background, new;
    now rewrite Hs.
Qed.

(** ** Saving *)

Lemma save_empty (im : Image) (path : string) (fs : FileSystem) :
  width im = 0 \/ height im = 0 ->
  save im path fs = inl (ValueError "cannot write empty image").
Proof.
  intros H. unfold save.
  replace ((width im =? 0) || (height im =? 0)) with true; [reflexivity|].
  symmetry. apply orb_true_iff.
  destruct H as [H|H]; [left|right]; now apply Z.eqb_eq.
Qed.

Lemma save_writes (im : Image) (path : string) (fs : FileSystem) :
  width im <> 0 -> height im <> 0 ->
  save im path fs
  = inr (fun p => if String.eqb p path then Some im else fs p).
Proof.
  intros Hw Hh. unfold save.
  apply Z.eqb_neq in Hw, Hh. now rewrite Hw, Hh.
Qed.

Lemma create_is_render_then_save (P : Pillow) (style : Style) (size : Z)
  (path : string) (fs : FileSystem) :
  create P style size path fs
  = (img <- render P style size ;; save img path fs).
Proof. destruct style; reflexivity. Qed.

(** ** create_icons.py below size 16 *)

Lemma rectangle_refused (P : Pillow) (im : Image) (x0 y0 x1 y1 : Z)
  (fill : Color) :
  checks_xy_order P = true -> x0 <= x1 -> y1 < y0 ->
  rectangle P im x0 y0 x1 y1 fill
  = inl (ValueError "y1 must be greater than or equal to y0").
Proof.
  intros Hc Hx Hy. unfold rectangle, check_order. rewrite Hc.
  apply Z.ltb_ge in Hx. apply Z.ltb_lt in Hy. now rewrite Hx, Hy.
Qed.

Lemma rectangle_paints_unchecked (P : Pillow) (im : Image) (x0 y0 x1 y1 : Z)
  (fill : Color) (ink : Pixel) :
  checks_xy_order P = false -> getink (mode im) fill = inr ink ->
  rectangle P im x0 y0 x1 y1 fill
  = inr (paint (rectangle_cover x0 y0 x1 y1) ink im).
Proof.
  intros Hc H. unfold rectangle, check_order. rewrite Hc. cbn [bind].
  now rewrite H.
Qed.

(** The drawing calls of create_icons.py up to the plus badge's circle *)
Lemma icons_before_the_bars (P : Pillow) (size : Z) :
  0 <= size ->
  exists img final_img base disc,
    CreateIcons.background P size = inr img /\
    CreateIcons.composite P size img = inr final_img /\
    CreateIcons.heart P size final_img = inr base /\
    ellipse P base
      (IZR (size / 2 + size / 3 / 2 + size / 8 / 2 - size / 8))
      (IZR (size / 2 - size / 3 / 2 - size / 8 / 2 - size / 8))
      (IZR (size / 2 + size / 3 / 2 + size / 8 / 2 + size / 8))
      (IZR (size / 2 - size / 3 / 2 - size / 8 / 2 + size / 8))
      CreateIcons.white = inr disc /\
    well_formed RGB size size disc.
Proof.
  intros Hs.
  destruct (background_spec P Icons size Hs) as (img & Ebg & Hwf & _).
  cbn [background] in Ebg.
  destruct (composite_spec P size (size / 6) CreateIcons.white
              255 255 255 img Hs eq_refl Hwf) as (base & Ec & Hwfb & _).
  exists img, base. unfold CreateIcons.composite, CreateIcons.heart.
  assert (Hm : mode base = RGB) by apply Hwfb.
  rewrite (polygon_paints P base _ _ (PxRGB 0 0 0))
    by (rewrite ?length_icons_shadow_points, ?Hm; first [lia | reflexivity]).
  cbn [bind].
  rewrite (polygon_paints P _ _ _ (PxRGB 255 255 255))
    by (cbn [mode paint];
        rewrite ?length_icons_heart_points, ?Hm; first [lia | reflexivity]).
  eexists. eexists. split; [exact Ebg|]. split; [exact Ec|].
  split; [reflexivity|].
  assert (Hw2 : well_formed RGB size size
                  (paint (polygon_region P (CreateIcons.heart_points size))
                     (PxRGB 255 255 255)
                     (paint (polygon_region P (CreateIcons.shadow_points size))
                        (PxRGB 0 0 0) base))).
  { apply well_formed_paint; [exact I|]. apply well_formed_paint; [exact I|].
    exact Hwfb. }
  rewrite (ellipse_paints P _ _ _ _ _ _ (PxRGB 255 255 255)).
  - split; [reflexivity|]. apply well_formed_paint; [exact I|exact Hw2].
  - apply IZR_le. lia.
  - apply IZR_le. lia.
  - cbn [mode paint]. now rewrite Hm.
Qed.

(** Below size 16 the first bar of the plus badge runs from
    [plus_y - plus_size + 2] to [plus_y + plus_size - 2] with
    [plus_size = size // 8] below 2: a Pillow that checks the order of a
    box refuses it. *)
Lemma icons_small_size_refused (P : Pillow) (size : Z) :
  0 <= size < 16 -> checks_xy_order P = true ->
  CreateIcons.render P size
  = inl (ValueError "y1 must be greater than or equal to y0").
Proof.
  intros Hs Hc.
  destruct (icons_before_the_bars P size) as
    (img & final_img & base & disc & Ebg & Ec & Eh & Ee & Hwf); [lia|].
  unfold CreateIcons.render.
  rewrite Ebg. cbn [bind]. rewrite Ec. cbn [bind]. rewrite Eh. cbn [bind].
  unfold CreateIcons.plus_sign. rewrite Ee. cbn [bind].
  now rewrite rectangle_refused by (try assumption; lia).
Qed.

(** A Pillow that does not check draws the upside-down box as the
    rectangle between its corners. *)
Lemma icons_small_size_drawn (P : Pillow) (size : Z) :
  0 <= size -> checks_xy_order P = false ->
  exists img,
    CreateIcons.render P size = inr img /\ well_formed RGB size size img.
Proof.
  intros Hs Hc.
  destruct (icons_before_the_bars P size) as
    (img & final_img & base & disc & Ebg & Ec & Eh & Ee & Hwf); [lia|].
  assert (Hm : mode disc = RGB) by apply Hwf.
  unfold CreateIcons.render.
  rewrite Ebg. cbn [bind]. rewrite Ec. cbn [bind]. rewrite Eh. cbn [bind].
  unfold CreateIcons.plus_sign. rewrite Ee. cbn [bind].
  rewrite (rectangle_paints_unchecked P _ _ _ _ _ _ (PxRGB 52 199 89) Hc)
    by (now rewrite Hm).
  cbn [bind].
  rewrite (rectangle_paints_unchecked P _ _ _ _ _ _ (PxRGB 52 199 89) Hc)
    by (cbn [mode paint]; now rewrite Hm).
  eexists. split; [reflexivity|].
  apply well_formed_paint; [exact I|]. apply well_formed_paint; [exact I|].
  exact Hwf.
Qed.

(** Every size from 0 up, in every script: the drawing ends in an image
    of that size or in the refusal of the plus badge's box. *)
Lemma render_from_zero (P : Pillow) (style : Style) (size : Z) :
  0 <= size ->
  (exists img,
     render P style size = inr img /\ well_formed RGB size size img)
  \/ (style = Icons /\ size < 16 /\ checks_xy_order P = true /\
      render P style size
      = inl (ValueError "y1 must be greater than or equal to y0")).
Proof.
  intros Hs.
  destruct style.
  - destruct (Z_lt_le_dec size 16) as [Hlt|Hge].
    + destruct (checks_xy_order P) eqn:Hc.
      * right. repeat split; try assumption.
        apply icons_small_size_refused; [lia | exact Hc].
      * left. cbn [render]. now apply icons_small_size_drawn.
    + left. destruct (render_spec P Icons size) as (img & E & Hwf & _);
        [simpl; lia|]. now exists img.
  - left. destruct (render_spec P Solid size) as (img & E & Hwf & _);
      [simpl; lia|]. now exists img.
  - left. destruct (render_spec P Beautiful size) as (img & E & Hwf & _);
      [simpl; lia|]. now exists img.
Qed.

(** ** Every size, from refusal to file *)

(** C7, as the code has it.  No script checks the size; every refusal is
    Pillow's [ValueError], raised before a file is written.
    - A negative size is refused by [Image.new].
    - Size 0 is refused in every script: the empty image is drawn and
      [save] refuses it, unless the plus badge of create_icons.py was
      refused first.
    - A positive size is drawn and saved under the given path by
      create_solid_icons.py and create_beautiful_icons.py, and by
      create_icons.py from size 16 up, and below 16 with a Pillow that
      does not check the order of a box.
    - create_icons.py with a positive size below 16 and a Pillow that
      checks the order of a box (release 9.5 and later) is refused. *)
Theorem C7_sizes_refused_and_sizes_saved (P : Pillow) (style : Style)
  (size : Z) (path : string) (fs : FileSystem) :
  (size < 0 ->
   create P style size path fs
   = inl (ValueError "Width and height must be >= 0")) /\
  (size = 0 ->
   create P style size path fs = inl (ValueError "cannot write empty image")
   \/ (style = Icons /\ checks_xy_order P = true /\
       create P style size path fs
       = inl (ValueError "y1 must be greater than or equal to y0"))) /\
  (0 < size ->
   style <> Icons \/ 16 <= size \/ checks_xy_order P = false ->
   exists img,
     render P style size = inr img /\
     well_formed RGB size size img /\
     create P style size path fs
     = inr (fun p => if String.eqb p path then Some img else fs p)) /\
  (0 < size < 16 -> style = Icons -> checks_xy_order P = true ->
   create P style size path fs
   = inl (ValueError "y1 must be greater than or equal to y0")).
Proof.
  rewrite create_is_render_then_save.
  split; [|split; [|split]].
  - intros Hs. now rewrite negative_size_refused.
  - intros ->.
    destruct (render_from_zero P style 0) as
      [(img & E & Hwf) | (Hst & _ & Hc & E)]; [lia | |].
    + left. rewrite E. cbn [bind]. apply save_empty. left. apply Hwf.
    + right. rewrite E. now repeat split.
  - intros Hs Hcase.
    destruct (render_from_zero P style size) as
      [(img & E & Hwf) | (Hst & Hlt & Hc & _)]; [lia | |].
    + exists img. split; [exact E|]. split; [exact Hwf|].
      rewrite E. cbn [bind].
      destruct Hwf as (_ & Hw & Hh & _).
      apply save_writes; lia.
    + exfalso. destruct Hcase as [H|[H|H]]; [congruence | lia | congruence].
  - intros Hs -> Hc. cbn [render].
    now rewrite icons_small_size_refused by (try assumption; lia).
Qed.

(** C7 at sizes -1, 0 and 20 of the solid style *)
Lemma C7_witness :
  create Reference.pillow Solid (-1) "AppIcon.png" (fun _ => None)
  = inl (ValueError "Width and height must be >= 0") /\
  create Reference.pillow Solid 0 "AppIcon.png" (fun _ => None)
  = inl (ValueError "cannot write empty image") /\
  exists img,
    render Reference.pillow Solid 20 = inr img /\
    well_formed RGB 20 20 img /\
    create Reference.pillow Solid 20 "AppIcon.png" (fun _ => None)
    = inr (fun p => if String.eqb p "AppIcon.png" then Some img else None).
Proof.
  pose proof (C7_sizes_refused_and_sizes_saved Reference.pillow Solid (-1)
                "AppIcon.png" (fun _ => None)) as (H1 & _).
  pose proof (C7_sizes_refused_and_sizes_saved Reference.pillow Solid 0
                "AppIcon.png" (fun _ => None)) as (_ & H2 & _).
  pose proof (C7_sizes_refused_and_sizes_saved Reference.pillow Solid 20
                "AppIcon.png" (fun _ => None)) as (_ & _ & H3 & _).
  split; [apply H1; lia|]. split.
  - destruct (H2 eq_refl) as [E | (Hst & _)]; [exact E | discriminate].
  - apply H3; [lia | left; discriminate].
Defined.

(** C7 as stated fails at the positive size 10: create_icons.py raises,
    with a Pillow that checks the order of a box, and writes no file. *)
Lemma C7_create_icons_raises_at_size_10 :
  0 < 10 /\
  checks_xy_order Reference.pillow = true /\
  create Reference.pillow Icons 10 "AppIcon-10.png" (fun _ => None)
  = inl (ValueError "y1 must be greater than or equal to y0").
Proof.
  split; [lia|]. split; [reflexivity|].
  rewrite create_is_render_then_save. cbn [render].
  now rewrite icons_small_size_refused by (try reflexivity; lia).
Qed.

(** ** Total rendering *)



(** ** The gradient: rows and their averages *)

Lemma uniform_list {A : Type} (a : A) (l : list A) :
  (forall k, (k < List.length l)%nat -> nth_error l k = Some a) ->
  l = repeat a (List.length l).
Proof.
  induction l as [|b l IH]; intros H; simpl; [reflexivity|].
  f_equal.
  - specialize (H 0%nat). simpl in H. injection H; [auto|lia].
  - apply IH. intros k Hk. apply (H (S k)). simpl. lia.
Qed.

Lemma uniform_row (m : Mode) (w h : Z) (im : Image) (y : Z) (px : Pixel) :
  well_formed m w h im -> 0 <= y < h ->
  (forall x, 0 <= x < w -> getpixel im x y = Some px) ->
  nth_error (data im) (Z.to_nat y) = Some (repeat px (Z.to_nat w)).
Proof.
  intros (_ & _ & _ & Hl & Hrows) Hy Hpx.
  destruct (nth_error (data im) (Z.to_nat y)) as [row|] eqn:Er;
    [|apply nth_error_None in Er; lia].
  pose proof (proj1 (Forall_forall _ _) Hrows row (nth_error_In _ _ Er))
    as [Hlen _].
  f_equal. rewrite <- Hlen. apply uniform_list.
  intros k Hk. specialize (Hpx (Z.of_nat k)). unfold getpixel in Hpx.
  replace ((Z.of_nat k <? 0) || (y <? 0)) with false in Hpx by zbool.
  rewrite Er, Nat2Z.id in Hpx. apply Hpx. lia.
Qed.

Lemma row_sum_uniform (r g b : Z) (n : nat) :
  row_sum (repeat (PxRGB r g b) n)
  = [Z.of_nat n * r; Z.of_nat n * g; Z.of_nat n * b].
Proof.
  induction n as [|n IH]; [reflexivity|].
  cbn [repeat row_sum fold_right bands]. fold (row_sum (repeat (PxRGB r g b) n)).
  rewrite IH. f_equal; [|f_equal; [|f_equal]]; lia.
Qed.

(** A row painted with one ink averages to that ink. *)
Lemma row_average_uniform (w h : Z) (im : Image) (y r g b : Z) :
  well_formed RGB w h im -> 0 < w -> 0 <= y < h ->
  (forall x, 0 <= x < w -> getpixel im x y = Some (PxRGB r g b)) ->
  row_average im y = Some [r; g; b].
Proof.
  intros Hwf Hw Hy Hpx. unfold row_average.
  rewrite (uniform_row RGB w h im y _ Hwf Hy Hpx).
  destruct (Z.to_nat w) as [|n] eqn:En; [lia|].
  cbn [repeat].
  change (PxRGB r g b :: repeat (PxRGB r g b) n)
    with (repeat (PxRGB r g b) (S n)).
  rewrite row_sum_uniform, repeat_length. cbn [map].
  assert (Hn : Z.of_nat (S n) <> 0) by lia.
  now rewrite !(Z.mul_comm (Z.of_nat (S n))), !Z.div_mul by exact Hn.
Qed.

(** The average colour of gradient row [y] is the script's colour of that
    row. *)
Lemma row_average_background (P : Pillow) (style : Style) (size y : Z) :
  0 <= y < size ->
  exists img,
    background P style size = inr img /\
    well_formed RGB size size img /\
    (forall x, 0 <= x < size ->
               getpixel img x y = ink_of RGB (gradient_color style size y)) /\
    row_average img y
    = option_map bands (ink_of RGB (gradient_color style size y)).
Proof.
  intros Hy.
  destruct (background_spec P style size) as (img & E & Hwf & Hpix); [lia|].
  exists img. split; [exact E|]. split; [exact Hwf|]. split.
  - intros x Hx. now apply Hpix.
  - destruct (gradient_color_defined style size y) as (r & g & b & Ec); [lia|].
    rewrite Ec. cbn [ink_of getink ret option_map bands].
    apply (row_average_uniform size size); try lia; [exact Hwf|].
    intros x Hx. rewrite (Hpix x y Hx Hy), Ec. reflexivity.
Qed.

(** ** C3: the top and the bottom row *)

Lemma within_zero (c1 c2 : list Z) : within 0 c1 c2 = true -> c1 = c2.
Proof.
  revert c2. induction c1 as [|a c1 IH]; intros [|b c2] H; simpl in H;
    try discriminate; [reflexivity|].
  apply andb_prop in H as [Hab H]. apply Z.leb_le in Hab.
  f_equal; [lia|now apply IH].
Qed.

Lemma ends_check_sound (P : Pillow) (style : Style) (S : Z) :
  0 < S -> ends_check style S = true -> ends_meet P style S.
Proof.
  intros HS Hc. unfold ends_check in Hc.
  destruct (row_average_background P style S 0) as (img & E & _ & _ & Htop);
    [lia|].
  destruct (row_average_background P style S (S - 1))
    as (img' & E' & _ & _ & Hbot); [lia|].
  rewrite E in E'. injection E' as <-.
  destruct (option_map bands (ink_of RGB (gradient_color style S 0)))
    as [top|]; [|discriminate].
  destruct (option_map bands (ink_of RGB (gradient_color style S (S - 1))))
    as [bottom|]; [|discriminate].
  apply andb_prop in Hc as [Hc H1]. apply andb_prop in Hc as [H0 H3].
  exists img, bottom. split; [exact E|].
  split; [now rewrite Htop, (within_zero _ _ H0)|].
  split; [exact Hbot|]. split; [exact H3|].
  intros H40. apply orb_prop in H1 as [H|H]; [|exact H].
  apply Z.ltb_lt in H. lia.
Qed.

(** C3, as the code has it.  For every catalog size, in create_icons.py and
    create_solid_icons.py, the top row of the gradient averages to the start
    colour exactly.  The bottom row is the gradient at progress (S-1)/S: its
    average is within three units of the end colour in every channel, and
    within one unit from size 40 on. *)
Theorem C3_gradient_rows_meet_the_end_points (P : Pillow) :
  Forall (fun style => Forall (ends_meet P style) catalog) [Icons; Solid].
Proof.
  repeat (apply Forall_cons; [|try apply Forall_nil]);
    (apply ends_check_sound; [lia|vm_compute; reflexivity]).
Qed.

(** C3 as stated fails at size 20: the bottom row of create_icons.py
    averages to (34, 142, 36), three units of green and two of blue above
    the end colour (34, 139, 34). *)
Lemma C3_bottom_row_misses_the_end_color :
  exists img,
    background Reference.pillow Icons 20 = inr img /\
    row_average img 19 = Some [34; 142; 36] /\
    within 1 [34; 142; 36] (end_color Icons) = false.
Proof.
  destruct (row_average_background Reference.pillow Icons 20 19)
    as (img & E & _ & _ & Hbot); [lia|].
  exists img. split; [exact E|]. split; [|reflexivity].
  rewrite Hbot. vm_compute. reflexivity.
Qed.

(** ** C2: the gradient formula *)

(** In create_icons.py and create_solid_icons.py the colour of a row is the
    specification's formula evaluated in binary64. *)
Lemma gradient_color_float (style : Style) (size y : Z) :
  style <> Beautiful -> size <> 0 ->
  gradient_color style size y
  = inr (Tuple (map (interpolate_float size y) (float_endpoints style))).
Proof.
  intros Hst Hs. apply Z.eqb_neq in Hs.
  destruct style; [| |contradiction]; simpl;
    unfold CreateIcons.gradient_color, CreateSolidIcons.gradient_color,
      truediv, interpolate_float;
    rewrite Hs; reflexivity.
Qed.

Lemma near_spec_catalog (style : Style) :
  Forall (fun size => forallb (near_spec style size) (range size) = true)
         catalog.
Proof.
  destruct style; repeat (apply Forall_cons; [vm_compute; reflexivity|]);
    apply Forall_nil.
Qed.

(** C2, as the code has it.  For every positive size, every pixel of
    gradient row [y] holds the colour the script computes for that row in
    binary64 arithmetic; in create_icons.py and create_solid_icons.py that
    colour is the interpolation formula evaluated in binary64.  For the
    sizes of the catalog each channel is the exactly truncated
    interpolation or one less. *)
Theorem C2_gradient_rows_hold_the_float_interpolation (P : Pillow)
  (style : Style) (size : Z) :
  0 < size ->
  exists img,
    background P style size = inr img /\
    (forall x y, 0 <= x < size -> 0 <= y < size ->
                 getpixel img x y = ink_of RGB (gradient_color style size y)) /\
    (style <> Beautiful ->
     forall y, gradient_color style size y
               = inr (Tuple (map (interpolate_float size y)
                                 (float_endpoints style)))) /\
    (In size catalog ->
     forall y, 0 <= y < size -> near_spec style size y = true).
Proof.
  intros Hs.
  destruct (background_spec P style size) as (img & E & _ & Hpix); [lia|].
  exists img. split; [exact E|]. split; [exact Hpix|]. split.
  - intros Hst y. apply gradient_color_float; [exact Hst|lia].
  - intros Hin y Hy.
    pose proof (proj1 (Forall_forall _ _) (near_spec_catalog style) size Hin)
      as Hall.
    apply (proj1 (forallb_forall _ _) Hall). now apply range_spec.
Qed.

Lemma C2_witness :
  0 < 20 /\
  exists img,
    background Reference.pillow Icons 20 = inr img /\
    (forall x y, 0 <= x < 20 -> 0 <= y < 20 ->
                 getpixel img x y = ink_of RGB (gradient_color Icons 20 y)) /\
    (Icons <> Beautiful ->
     forall y, gradient_color Icons 20 y
               = inr (Tuple (map (interpolate_float 20 y)
                                 (float_endpoints Icons)))) /\
    (In 20 catalog ->
     forall y, 0 <= y < 20 -> near_spec Icons 20 y = true).
Proof.
  split; [lia|].
  apply (C2_gradient_rows_hold_the_float_interpolation
           Reference.pillow Icons 20). lia.
Defined.

(** C2 as stated fails under either reading of its formula.  Read in exact
    arithmetic: at size 20, row 1, create_icons.py computes green 195 where
    199*(1 - 1/20) + 139*(1/20) is 196.  Read in binary64: at size 17,
    row 6, create_beautiful_icons.py computes red 246 where the formula
    with the end point 229.5 gives 245. *)
Lemma C2_rows_off_the_formula :
  gradient_color Icons 20 1 = inr (Tuple [51; 195; 86]) /\
  gradient_spec Icons 20 1 = Tuple [51; 196; 86] /\
  gradient_color Beautiful 17 6 = inr (Tuple [246; 250; 246]) /\
  map (interpolate_float 17 6) (float_endpoints Beautiful) = [245; 250; 245].
Proof. repeat split; vm_compute; reflexivity. Qed.



(** ** The cast to int *)

Lemma c_int_le (r : R) (n : Z) : (r <= IZR n)%R -> c_int r <= n.
Proof.
  intros H. unfold c_int. destruct (Rle_dec 0 r) as [Hr|Hr].
  - apply Z.lt_succ_r, lt_IZR. rewrite succ_IZR.
    pose proof (Zfloor_bound r). lra.
  - unfold Zceil.
    assert (- n <= Zfloor (- r)) by (apply Zfloor_lub; rewrite opp_IZR; lra).
    lia.
Qed.

Lemma c_int_ge (r : R) (n : Z) : (IZR n <= r)%R -> n <= c_int r.
Proof.
  intros H. unfold c_int. destruct (Rle_dec 0 r) as [Hr|Hr].
  - now apply Zfloor_lub.
  - unfold Zceil.
    assert (Zfloor (- r) < - n + 1); [|lia].
    apply lt_IZR. rewrite plus_IZR, opp_IZR.
    pose proof (Zfloor_bound (- r)). lra.
Qed.

Lemma c_int_IZR (n : Z) : c_int (IZR n) = n.
Proof.
  apply Z.le_antisymm; [apply c_int_le|apply c_int_ge]; lra.
Qed.

(** ** Regions that miss a pixel *)

Section Misses.

Variable P : Pillow.
Hypothesis lawful : Lawful P.

Lemma ellipse_region_inside (x0 y0 x1 y1 : R) (x y : Z) :
  ellipse_region P x0 y0 x1 y1 x y = true ->
  c_int x0 <= x <= c_int x1 /\ c_int y0 <= y <= c_int y1.
Proof. apply (ellipse_in_box P lawful). Qed.

Lemma ellipse_left_of (x0 y0 x1 y1 : R) (n x y : Z) :
  (x1 <= IZR n)%R -> n < x -> ellipse_region P x0 y0 x1 y1 x y = false.
Proof.
  intros Hb Hx. destruct (ellipse_region P x0 y0 x1 y1 x y) eqn:E;
    [|reflexivity].
  apply ellipse_region_inside in E. pose proof (c_int_le x1 n Hb). lia.
Qed.

Lemma ellipse_right_of (x0 y0 x1 y1 : R) (n x y : Z) :
  (IZR n <= x0)%R -> x < n -> ellipse_region P x0 y0 x1 y1 x y = false.
Proof.
  intros Hb Hx. destruct (ellipse_region P x0 y0 x1 y1 x y) eqn:E;
    [|reflexivity].
  apply ellipse_region_inside in E. pose proof (c_int_ge x0 n Hb). lia.
Qed.

Lemma polygon_left_of (points : list (R * R)) (n x y : Z) :
  (forall p, In p points -> (fst p <= IZR n)%R) -> n < x ->
  polygon_region P points x y = false.
Proof.
  intros Hb Hx. destruct (polygon_region P points x y) eqn:E; [|reflexivity].
  apply (polygon_in_box P lawful) in E.
  destruct E as (_ & (p & Hp & Hxp) & _).
  apply in_map_iff in Hp as (q & <- & Hq). simpl in Hxp.
  pose proof (c_int_le (fst q) n (Hb q Hq)). lia.
Qed.

End Misses.

(** ** The reference scan conversion is lawful *)

Lemma span_true (lo hi v : Z) : span lo hi v = true -> lo <= v <= hi.
Proof. unfold span. intros H. apply andb_prop in H as [H1 H2]. lia. Qed.

Lemma reference_lawful : Lawful Reference.pillow.
Proof.
  constructor; simpl.
  - intros x0 y0 x1 y1 x y H. unfold Reference.ellipse_cover in H.
    apply andb_prop in H as [H _]. apply andb_prop in H as [Hx Hy].
    apply span_true in Hx, Hy. lia.
  - intros pts x y H. unfold Reference.polygon_cover in H.
    apply andb_prop in H as [H _]. unfold Reference.in_vertex_box in H.
    apply andb_prop in H as [H H4]. apply andb_prop in H as [H H3].
    apply andb_prop in H as [H1 H2].
    apply existsb_exists in H1, H2, H3, H4.
    destruct H1 as (p1 & ? & ?), H2 as (p2 & ? & ?), H3 as (p3 & ? & ?),
      H4 as (p4 & ? & ?).
    repeat split; [exists p1|exists p2|exists p3|exists p4]; split;
      try assumption; lia.
  - intros x0 y0 x1 y1 r x y Hr _ _ H.
    unfold rounded_rectangle_core, in_corner_disc in H.
    unfold Reference.rounded_rectangle_cover, Reference.in_disc, Reference.sq.
    apply andb_prop in H as [H Hc]. rewrite H. cbn [andb].
    destruct ((x <? x0 + r) && (y <? y0 + r));
      [apply Z.ltb_lt in Hc; apply Z.leb_le; lia|].
    destruct ((x1 - r <? x) && (y <? y0 + r));
      [apply Z.ltb_lt in Hc; apply Z.leb_le; lia|].
    destruct ((x <? x0 + r) && (y1 - r <? y));
      [apply Z.ltb_lt in Hc; apply Z.leb_le; lia|].
    destruct ((x1 - r <? x) && (y1 - r <? y));
      [apply Z.ltb_lt in Hc; apply Z.leb_le; lia|reflexivity].
Qed.


(** ** How far right the glyphs reach *)

Lemma cube_le_1 (s : R) : (-1 <= s <= 1)%R -> (-1 <= s ^ 3 <= 1)%R.
Proof. intros H. simpl. nra. Qed.

Lemma heart_points_right (size : Z) (p : R * R) :
  0 <= size -> In p (CreateBeautifulIcons.heart_points size) ->
  (fst p <= IZR (size / 2 + size / 3))%R.
Proof.
  intros Hs Hp. unfold CreateBeautifulIcons.heart_points in Hp.
  apply in_map_iff in Hp as (t & <- & _). cbn [fst].
  pose proof (cube_le_1 _ (SIN_bound (IZR t / 100))) as Hc.
  assert (Hh : (0 <= IZR (size / 3))%R) by (apply IZR_le; lia).
  rewrite plus_IZR. nra.
Qed.

Lemma shadow_points_right (size : Z) (p : R * R) :
  0 <= size -> In p (CreateBeautifulIcons.shadow_points size) ->
  (fst p <= IZR (size / 2 + size / 3 + Z.max 2 (size / 200)))%R.
Proof.
  intros Hs Hp. unfold CreateBeautifulIcons.shadow_points in Hp.
  apply in_map_iff in Hp as (q & <- & Hq). cbn [fst].
  pose proof (heart_points_right size q Hs Hq).
  rewrite plus_IZR. lra.
Qed.

Lemma In_firstn {A : Type} (a : A) (n : nat) (l : list A) :
  In a (firstn n l) -> In a l.
Proof.
  revert l. induction n as [|n IH]; intros [|b l] H; simpl in H;
    try contradiction.
  destruct H as [->|H]; [now left|right; now apply IH].
Qed.

Lemma highlight_points_right (size : Z) (p : R * R) :
  0 <= size -> In p (CreateBeautifulIcons.highlight_points size) ->
  (fst p <= IZR (size / 2 + size / 3))%R.
Proof.
  intros Hs Hp. unfold CreateBeautifulIcons.highlight_points in Hp.
  apply in_map_iff in Hp as (q & <- & Hq). cbn [fst].
  apply In_firstn in Hq.
  pose proof (heart_points_right size q Hs Hq).
  assert (0 <= IZR (Z.max 2 (size / 200) / 2))%R by (apply IZR_le; lia).
  lra.
Qed.

Lemma tooth_right (gear_x gear_y gear_radius i : Z) (p : R * R) :
  0 <= gear_radius ->
  In p (CreateBeautifulIcons.tooth gear_x gear_y gear_radius i) ->
  (fst p <= IZR (gear_x + gear_radius + 3))%R.
Proof.
  intros Hr Hp. unfold CreateBeautifulIcons.tooth in Hp.
  assert (Hg : (0 <= IZR gear_radius)%R) by (apply IZR_le; lia).
  rewrite !plus_IZR.
  destruct Hp as [<-|[<-|[<-|[]]]]; cbn [fst].
  - pose proof (COS_bound (2 * PI * IZR i / 8)). rewrite plus_IZR. nra.
  - pose proof (COS_bound (2 * PI * IZR i / 8 - 2 / 10)). nra.
  - pose proof (COS_bound (2 * PI * IZR i / 8 + 2 / 10)). nra.
Qed.

Lemma icons_heart_points_right (size : Z) (p : R * R) :
  0 <= size -> In p (CreateIcons.heart_points size) ->
  (fst p <= IZR (size / 2 + size / 3))%R.
Proof.
  intros Hs Hp. unfold CreateIcons.heart_points in Hp.
  apply in_map_iff in Hp as (t & <- & _). cbn [fst].
  pose proof (cube_le_1 _ (SIN_bound (radians t))) as Hc.
  assert (Hh : (0 <= IZR (size / 3))%R) by (apply IZR_le; lia).
  rewrite plus_IZR. nra.
Qed.

Lemma icons_shadow_points_right (size : Z) (p : R * R) :
  0 <= size -> In p (CreateIcons.shadow_points size) ->
  (fst p <= IZR (size / 2 + size / 3 + 2))%R.
Proof.
  intros Hs Hp. unfold CreateIcons.shadow_points in Hp.
  apply in_map_iff in Hp as (q & <- & Hq). cbn [fst].
  pose proof (icons_heart_points_right size q Hs Hq).
  rewrite plus_IZR. lra.
Qed.

(** The cosines of the six dot angles *)
Lemma cos_dot_angles :
  cos (2 * PI * 0 / 6) = 1%R /\ cos (2 * PI * 1 / 6) = (1 / 2)%R /\
  cos (2 * PI * 2 / 6) = (-1 / 2)%R /\ cos (2 * PI * 3 / 6) = (-1)%R /\
  cos (2 * PI * 4 / 6) = (-1 / 2)%R /\ cos (2 * PI * 5 / 6) = (1 / 2)%R.
Proof.
  repeat split.
  - replace (2 * PI * 0 / 6)%R with 0%R by lra. apply cos_0.
  - replace (2 * PI * 1 / 6)%R with (PI / 3)%R by lra. apply cos_PI3.
  - replace (2 * PI * 2 / 6)%R with (2 * (PI / 3))%R by lra. apply cos_2PI3.
  - replace (2 * PI * 3 / 6)%R with PI by lra. apply cos_PI.
  - replace (2 * PI * 4 / 6)%R with (PI / 3 + PI)%R by lra.
    rewrite neg_cos, cos_PI3. lra.
  - replace (2 * PI * 5 / 6)%R with (2 * (PI / 3) + PI)%R by lra.
    rewrite neg_cos, cos_2PI3. lra.
Qed.


(** ** Size 20: the pixel in the bottom right corner *)

Section Corner.

Variable P : Pillow.
Hypothesis lawful : Lawful P.

(** At size 20 the six data dots lie 26 pixels from the centre: all of
    them are outside the canvas, and none paints a pixel of it. *)
Lemma dots_off_canvas_20 (x y : Z) :
  0 <= x < 20 ->
  Forall (fun l : Region * Pixel => fst l x y = false) (dot_layers P 20).
Proof.
  intros Hx.
  destruct cos_dot_angles as (C0 & C1 & C2 & C3 & C4 & C5).
  unfold dot_layers.
  change (range 6) with [0; 1; 2; 3; 4; 5].
  repeat (apply Forall_cons; [|try apply Forall_nil]); cbn [fst];
    unfold dot_region, CreateBeautifulIcons.dot_box,
      CreateBeautifulIcons.dot_center;
    change (20 / 2) with 10; change (20 / 3 + 20) with 26;
    change (Z.max 2 (20 / 100)) with 2.
  - apply (ellipse_right_of P lawful) with (n := 21); [rewrite C0; lra|lia].
  - apply (ellipse_right_of P lawful) with (n := 21); [rewrite C1; lra|lia].
  - apply (ellipse_left_of P lawful) with (n := -1); [rewrite C2; lra|lia].
  - apply (ellipse_left_of P lawful) with (n := -1); [rewrite C3; lra|lia].
  - apply (ellipse_left_of P lawful) with (n := -1); [rewrite C4; lra|lia].
  - apply (ellipse_right_of P lawful) with (n := 21); [rewrite C5; lra|lia].
Qed.

Lemma dots_miss_corner_20 :
  Forall (fun l : Region * Pixel => fst l 19 19 = false) (dot_layers P 20).
Proof. apply dots_off_canvas_20. lia. Qed.

Lemma beautiful_layers_miss_corner_20 :
  Forall (fun l : Region * Pixel => fst l 19 19 = false)
         (beautiful_layers P 20).
Proof.
  unfold beautiful_layers.
  apply Forall_app; split; [|apply Forall_app; split; [|apply Forall_app; split]].
  - unfold heart_layers.
    repeat (apply Forall_cons; [|try apply Forall_nil]); cbn [fst].
    + apply (polygon_left_of P lawful) with (n := 18); [|lia].
      intros p Hp. now apply (shadow_points_right 20).
    + apply (polygon_left_of P lawful) with (n := 16); [|lia].
      intros p Hp. now apply (heart_points_right 20).
    + apply (polygon_left_of P lawful) with (n := 16); [|lia].
      intros p Hp. now apply (highlight_points_right 20).
  - unfold gear_layers.
    apply Forall_app; split; [|apply Forall_app; split].
    + apply Forall_cons; [|apply Forall_nil]. cbn [fst].
      apply (ellipse_left_of P lawful) with (n := 15); [|lia].
      apply IZR_le. reflexivity.
    + apply Forall_forall. intros l Hl.
      apply in_map_iff in Hl as (i & <- & _). cbn [fst].
      apply (polygon_left_of P lawful) with (n := 18); [|lia].
      intros p Hp. now apply tooth_right in Hp.
    + apply Forall_cons; [|apply Forall_nil]. cbn [fst].
      apply (ellipse_left_of P lawful) with (n := 14); [|lia].
      apply IZR_le. reflexivity.
  - unfold plus_layers.
    repeat (apply Forall_cons; [|try apply Forall_nil]); cbn [fst];
      try reflexivity.
    apply (ellipse_left_of P lawful) with (n := 16); [|lia].
    apply IZR_le. reflexivity.
  - apply dots_miss_corner_20.
Qed.

Lemma icons_layers_miss_corner_20 :
  Forall (fun l : Region * Pixel => fst l 19 19 = false) (icons_layers P 20).
Proof.
  unfold icons_layers.
  repeat (apply Forall_cons; [|try apply Forall_nil]); cbn [fst];
    try reflexivity.
  - apply (polygon_left_of P lawful) with (n := 18); [|lia].
    intros p Hp. now apply (icons_shadow_points_right 20).
  - apply (polygon_left_of P lawful) with (n := 16); [|lia].
    intros p Hp. now apply (icons_heart_points_right 20).
  - apply (ellipse_left_of P lawful) with (n := 16); [|lia].
    apply IZR_le. reflexivity.
Qed.

(** C5 at size 20.  The mask's rounded rectangle is drawn over
    [0, 0, size, size], one pixel past the canvas on the right and at the
    bottom, so the canvas pixel (19, 19) lies strictly inside its
    bottom-right corner circle.  Under every lawful scan conversion that
    pixel shows the last gradient row, not the flat background fill:
    (230, 242, 230) instead of (248, 249, 250) in
    create_beautiful_icons.py, (34, 142, 36) instead of (255, 255, 255) in
    create_icons.py. *)
Theorem C5_bottom_right_corner_shows_the_gradient :
  (exists img,
     render P Beautiful 20 = inr img /\
     getpixel img 19 19 = Some (PxRGB 230 242 230) /\
     getpixel img 19 19 <> ink_of RGB (inr CreateBeautifulIcons.background_fill))
  /\
  (exists img,
     render P Icons 20 = inr img /\
     getpixel img 19 19 = Some (PxRGB 34 142 36) /\
     getpixel img 19 19 <> ink_of RGB (inr CreateIcons.white)).
Proof.
  split.
  - destruct (render_spec P Beautiful 20) as (img & E & _ & Hpix);
      [simpl; lia|].
    exists img. split; [exact E|].
    assert (Hpx : getpixel img 19 19 = Some (PxRGB 230 242 230)).
    { rewrite Hpix by lia. cbn [base_pixel glyph_layers].
      change (20 / 8) with 2.
      rewrite (rounded_rectangle_core_painted P lawful 0 0 20 20 2 19 19)
        by (try lia; reflexivity).
      replace (ink_of RGB (gradient_color Beautiful 20 19))
        with (Some (PxRGB 230 242 230)) by (vm_compute; reflexivity).
      cbn [option_map]. f_equal.
      apply top_ink_uncovered, beautiful_layers_miss_corner_20. }
    split; [exact Hpx|]. rewrite Hpx. discriminate.
  - destruct (render_spec P Icons 20) as (img & E & _ & Hpix);
      [simpl; lia|].
    exists img. split; [exact E|].
    assert (Hpx : getpixel img 19 19 = Some (PxRGB 34 142 36)).
    { rewrite Hpix by lia. cbn [base_pixel glyph_layers].
      change (20 / 6) with 3.
      rewrite (rounded_rectangle_core_painted P lawful 0 0 20 20 3 19 19)
        by (try lia; reflexivity).
      replace (ink_of RGB (gradient_color Icons 20 19))
        with (Some (PxRGB 34 142 36)) by (vm_compute; reflexivity).
      cbn [option_map]. f_equal.
      apply top_ink_uncovered, icons_layers_miss_corner_20. }
    split; [exact Hpx|]. rewrite Hpx. discriminate.
Qed.

End Corner.

Lemma C5_witness :
  Lawful Reference.pillow /\
  ((exists img,
      render Reference.pillow Beautiful 20 = inr img /\
      getpixel img 19 19 = Some (PxRGB 230 242 230) /\
      getpixel img 19 19
      <> ink_of RGB (inr CreateBeautifulIcons.background_fill))
   /\
   (exists img,
      render Reference.pillow Icons 20 = inr img /\
      getpixel img 19 19 = Some (PxRGB 34 142 36) /\
      getpixel img 19 19 <> ink_of RGB (inr CreateIcons.white))).
Proof.
  split; [exact reference_lawful|].
  exact (C5_bottom_right_corner_shows_the_gradient
           Reference.pillow reference_lawful).
Defined.

(** ** Bounding boxes *)

Local Open Scope R_scope.

Lemma fold_Rmin_le (l : list R) :
  forall a, fold_left Rmin l a <= a /\
            forall b, In b l -> fold_left Rmin l a <= b.
Proof.
  induction l as [|c l IH]; intros a; simpl.
  - split; [lra|tauto].
  - destruct (IH (Rmin a c)) as [H1 H2]. split.
    + pose proof (Rmin_l a c). lra.
    + intros b [Hb|Hb]; [|now apply H2].
      rewrite <- Hb. pose proof (Rmin_r a c). lra.
Qed.

Lemma fold_Rmin_ge (l : list R) (m : R) :
  forall a, m <= a -> (forall b, In b l -> m <= b) ->
            m <= fold_left Rmin l a.
Proof.
  induction l as [|c l IH]; intros a Ha Hl; simpl; [exact Ha|].
  apply IH.
  - apply Rmin_glb; [exact Ha|]. apply Hl. now left.
  - intros b Hb. apply Hl. now right.
Qed.

Lemma fold_Rmax_ge (l : list R) :
  forall a, a <= fold_left Rmax l a /\
            forall b, In b l -> b <= fold_left Rmax l a.
Proof.
  induction l as [|c l IH]; intros a; simpl.
  - split; [lra|tauto].
  - destruct (IH (Rmax a c)) as [H1 H2]. split.
    + pose proof (Rmax_l a c). lra.
    + intros b [Hb|Hb]; [|now apply H2].
      rewrite <- Hb. pose proof (Rmax_r a c). lra.
Qed.

Lemma fold_Rmax_le (l : list R) (m : R) :
  forall a, a <= m -> (forall b, In b l -> b <= m) ->
            fold_left Rmax l a <= m.
Proof.
  induction l as [|c l IH]; intros a Ha Hl; simpl; [exact Ha|].
  apply IH.
  - apply Rmax_lub; [exact Ha|]. apply Hl. now left.
  - intros b Hb. apply Hl. now right.
Qed.

Lemma minimum_le (l : list R) (b : R) : In b l -> minimum l <= b.
Proof.
  destruct l as [|a l]; [contradiction|]. simpl.
  destruct (fold_Rmin_le l a) as [H1 H2].
  intros [Hb|Hb]; [rewrite <- Hb; exact H1|now apply H2].
Qed.

Lemma minimum_ge (l : list R) (m : R) :
  l <> [] -> (forall b, In b l -> m <= b) -> m <= minimum l.
Proof.
  destruct l as [|a l]; [congruence|]. intros _ Hl. simpl.
  apply fold_Rmin_ge; [apply Hl; now left|].
  intros b Hb. apply Hl. now right.
Qed.

Lemma maximum_ge (l : list R) (b : R) : In b l -> b <= maximum l.
Proof.
  destruct l as [|a l]; [contradiction|]. simpl.
  destruct (fold_Rmax_ge l a) as [H1 H2].
  intros [Hb|Hb]; [rewrite <- Hb; exact H1|now apply H2].
Qed.

Lemma maximum_le (l : list R) (m : R) :
  l <> [] -> (forall b, In b l -> b <= m) -> maximum l <= m.
Proof.
  destruct l as [|a l]; [congruence|]. intros _ Hl. simpl.
  apply fold_Rmax_le; [apply Hl; now left|].
  intros b Hb. apply Hl. now right.
Qed.

(** The bounding box of the image of a sample list under a curve: each
    side is pinned between a bound on the whole curve and the value at one
    sample. *)
Lemma curve_extent {A : Type} (f : A -> R) (samples : list A)
  (lo hi : R) (a_lo a_hi : A) (v_lo v_hi : R) :
  (forall a, lo <= f a <= hi) ->
  In a_lo samples -> f a_lo <= v_lo ->
  In a_hi samples -> v_hi <= f a_hi ->
  lo <= minimum (map f samples) <= v_lo /\
  v_hi <= maximum (map f samples) <= hi.
Proof.
  intros Hb Hlo Hvlo Hhi Hvhi.
  assert (Hne : map f samples <> [])
    by (destruct samples; [contradiction|discriminate]).
  repeat split.
  - apply minimum_ge; [exact Hne|].
    intros b Hbin. apply in_map_iff in Hbin as (a & <- & _). apply Hb.
  - apply Rle_trans with (f a_lo); [|exact Hvlo].
    apply minimum_le. now apply in_map.
  - apply Rle_trans with (f a_hi); [exact Hvhi|].
    apply maximum_ge. now apply in_map.
  - apply maximum_le; [exact Hne|].
    intros b Hbin. apply in_map_iff in Hbin as (a & <- & _). apply Hb.
Qed.

(** ** The heart curve *)

Lemma cos_3a (t : R) : cos (3 * t) = 4 * cos t ^ 3 - 3 * cos t.
Proof.
  replace (3 * t) with (2 * t + t) by lra.
  rewrite cos_plus, cos_2a_cos, sin_2a.
  pose proof (sin2_cos2 t) as H. unfold Rsqr in H.
  assert (Hs : sin t * sin t = 1 - cos t * cos t) by lra.
  replace (2 * sin t * cos t * sin t) with (2 * cos t * (sin t * sin t))
    by ring.
  rewrite Hs. simpl. ring.
Qed.

Lemma cos_4a (t : R) : cos (4 * t) = 8 * cos t ^ 4 - 8 * cos t ^ 2 + 1.
Proof.
  replace (4 * t) with (2 * (2 * t)) by lra.
  rewrite (cos_2a_cos (2 * t)), cos_2a_cos. simpl. ring.
Qed.

Lemma heart_ordinate (t : R) :
  13 * cos t - 5 * cos (2 * t) - 2 * cos (3 * t) - cos (4 * t)
  = lobes (cos t).
Proof.
  rewrite cos_2a_cos, cos_3a, cos_4a. unfold lobes. simpl. ring.
Qed.

Lemma lobes_bounds (c : R) : -1 <= c <= 1 -> -17 <= lobes c <= 13.
Proof.
  intros Hc. unfold lobes. simpl. split.
  - assert (H2 : 0 <= c * c <= 1) by nra.
    assert (H3 : c * (c * c) <= 1) by nra.
    pose proof (Rmult_le_pos (c + 1) (21 - 2 * c - 8 * (c * (c * c)))).
    nra.
  - pose proof (Rle_0_sqr (2 * (c * c) + c - 6 / 5)) as H1.
    pose proof (Rle_0_sqr (c - 71 / 96)) as H2.
    unfold Rsqr in H1, H2. nra.
Qed.


Lemma In_by_eqb (a : Z) (l : list Z) : existsb (Z.eqb a) l = true -> In a l.
Proof.
  intros H. apply existsb_exists in H as (b & Hb & E).
  apply Z.eqb_eq in E. now subst.
Qed.

Local Open Scope R_scope.

(** ** The bounding box of the heart of create_icons.py *)

Lemma icons_heart_box (size : Z) :
  (0 <= size)%Z ->
  let s := IZR (size / 3) / 32 in
  let xs := map fst (CreateIcons.heart_points size) in
  let ys := map snd (CreateIcons.heart_points size) in
  minimum xs = IZR (size / 2) - 16 * s /\
  maximum xs = IZR (size / 2) + 16 * s /\
  IZR (size / 2) - 13 * s <= minimum ys <= IZR (size / 2) - 23 / 2 * s /\
  maximum ys = IZR (size / 2) + 17 * s.
Proof.
  intros Hs s xs ys.
  assert (Hh : 0 <= IZR (size / 3)) by (apply IZR_le; lia).
  unfold xs, ys, CreateIcons.heart_points. rewrite !map_map. cbn [fst snd].
  fold s.
  destruct (curve_extent
              (fun angle => IZR (size / 2)
                            + 16 * sin (radians angle) ^ 3 * IZR (size / 3) / 32)
              (range3 0 360 5)
              (IZR (size / 2) - 16 * s) (IZR (size / 2) + 16 * s)
              270%Z 90%Z
              (IZR (size / 2) - 16 * s) (IZR (size / 2) + 16 * s))
    as [Hxmin Hxmax].
  { intros a. pose proof (cube_le_1 _ (SIN_bound (radians a))) as Hc.
    set (u := sin (radians a) ^ 3) in *. unfold s. split; nra. }
  { apply In_by_eqb. reflexivity. }
  { unfold radians. replace (270 * PI / 180) with (3 * (PI / 2)) by lra.
    rewrite sin_3PI2. unfold s. simpl. lra. }
  { apply In_by_eqb. reflexivity. }
  { unfold radians. replace (90 * PI / 180) with (PI / 2) by lra.
    rewrite sin_PI2. unfold s. simpl. lra. }
  destruct (curve_extent
              (fun angle =>
                 IZR (size / 2)
                 + - (13 * cos (radians angle) - 5 * cos (2 * radians angle)
                      - 2 * cos (3 * radians angle) - cos (4 * radians angle))
                   * IZR (size / 3) / 32)
              (range3 0 360 5)
              (IZR (size / 2) - 13 * s) (IZR (size / 2) + 17 * s)
              60%Z 180%Z
              (IZR (size / 2) - 23 / 2 * s) (IZR (size / 2) + 17 * s))
    as [Hymin Hymax].
  { intros a. rewrite heart_ordinate.
    pose proof (lobes_bounds _ (COS_bound (radians a))) as Hc.
    set (u := lobes (cos (radians a))) in *. unfold s. split; nra. }
  { apply In_by_eqb. reflexivity. }
  { rewrite heart_ordinate. unfold radians.
    replace (60 * PI / 180) with (PI / 3) by lra.
    rewrite cos_PI3. unfold lobes, s. simpl. lra. }
  { apply In_by_eqb. reflexivity. }
  { rewrite heart_ordinate. unfold radians.
    replace (180 * PI / 180) with PI by lra.
    rewrite cos_PI. unfold lobes, s. simpl. lra. }
  repeat split; lra.
Qed.


(** ** Taylor enclosures of sine and cosine *)

Ltac eval_factorials :=
  rewrite ?INR_IZR_INZ;
  repeat match goal with
         | |- context [Z.of_nat (fact ?n)] =>
             let v := eval vm_compute in (Z.of_nat (fact n)) in
             change (Z.of_nat (fact n)) with v
         end.

Lemma cos_enclosure (a : R) :
  -2 <= a <= 2 ->
  1 - a ^ 2 / 2 + a ^ 4 / 24 - a ^ 6 / 720 <= cos a
  <= 1 - a ^ 2 / 2 + a ^ 4 / 24 - a ^ 6 / 720 + a ^ 8 / 40320.
Proof.
  intros [H1 H2]. pose proof (pre_cos_bound a 1 H1 H2) as H.
  unfold cos_approx, cos_term in H.
  change (2 * 1 + 1)%nat with 3%nat in H.
  change (2 * (1 + 1))%nat with 4%nat in H.
  cbn [sum_f_R0 Nat.mul Nat.add] in H.
  revert H. eval_factorials. intros H.
  simpl pow in H |- *. lra.
Qed.

Lemma sin_enclosure (a : R) :
  0 <= a <= 4 ->
  a - a ^ 3 / 6 + a ^ 5 / 120 - a ^ 7 / 5040 <= sin a
  <= a - a ^ 3 / 6 + a ^ 5 / 120 - a ^ 7 / 5040 + a ^ 9 / 362880.
Proof.
  intros [H1 H2]. pose proof (pre_sin_bound a 1 H1 H2) as H.
  unfold sin_approx, sin_term in H.
  change (2 * 1 + 1)%nat with 3%nat in H.
  change (2 * (1 + 1))%nat with 4%nat in H.
  cbn [sum_f_R0 Nat.mul Nat.add] in H.
  revert H. eval_factorials. intros H.
  simpl pow in H |- *. lra.
Qed.

(** ** The four samples that pin the beautiful heart's box *)

Lemma cos_105 : 4975 / 10000 <= cos (105 / 100) <= 4976 / 10000.
Proof.
  pose proof (cos_enclosure (105 / 100)) as H. simpl pow in H. lra.
Qed.

Lemma cos_315 : -1 <= cos (315 / 100) <= - 9999 / 10000.
Proof.
  split; [apply COS_bound|].
  replace (315 / 100) with (2 * (1575 / 1000)) by lra.
  rewrite cos_2a_cos.
  pose proof (cos_enclosure (1575 / 1000)) as H. simpl pow in H.
  assert (Hc : - 52 / 10000 <= cos (1575 / 1000) <= 0) by lra.
  nra.
Qed.

Lemma sin_155 : 9996 / 10000 <= sin (155 / 100) <= 1.
Proof.
  split; [|apply SIN_bound].
  pose proof (sin_enclosure (155 / 100)) as H. simpl pow in H. lra.
Qed.

Lemma sin_470 : -1 <= sin (470 / 100) <= - 9996 / 10000.
Proof.
  split; [apply SIN_bound|].
  replace (470 / 100) with (2 * (2 * (1175 / 1000))) by lra.
  rewrite sin_2a, sin_2a, cos_2a_cos.
  pose proof (sin_enclosure (1175 / 1000)) as Hs. simpl pow in Hs.
  pose proof (cos_enclosure (1175 / 1000)) as Hc. simpl pow in Hc.
  set (s := sin (1175 / 1000)) in *. set (c := cos (1175 / 1000)) in *.
  assert (Hs' : 92267 / 100000 <= s <= 92270 / 100000) by lra.
  assert (Hc' : 38545 / 100000 <= c <= 38555 / 100000) by lra.
  assert (Hsc : 35564 / 100000 <= s * c <= 35575 / 100000) by nra.
  assert (Hd : - 70286 / 100000 <= 2 * c * c - 1 <= - 70269 / 100000) by nra.
  nra.
Qed.

Lemma cube_near_1 (s : R) :
  9996 / 10000 <= s <= 1 -> 1598 / 100 <= 16 * s ^ 3.
Proof. intros H. simpl. nra. Qed.

Lemma cube_near_minus_1 (s : R) :
  -1 <= s <= - 9996 / 10000 -> 16 * s ^ 3 <= - 1598 / 100.
Proof.
  intros H. pose proof (cube_near_1 (- s)) as H1. simpl in H1 |- *.
  assert (1598 / 100 <= 16 * (- s * (- s * (- s * 1)))) by (apply H1; lra).
  lra.
Qed.

Lemma lobes_at_105 : 114 / 10 <= lobes (cos (105 / 100)).
Proof.
  pose proof cos_105 as H. set (c := cos (105 / 100)) in *.
  unfold lobes. simpl.
  assert (H2 : c * c <= 2477 / 10000) by nra.
  assert (H3 : c * (c * c) <= 1233 / 10000) by nra.
  assert (H4 : c * (c * (c * c)) <= 614 / 10000) by nra.
  lra.
Qed.

Lemma lobes_at_315 : lobes (cos (315 / 100)) <= - 169 / 10.
Proof.
  pose proof cos_315 as H. set (c := cos (315 / 100)) in *.
  unfold lobes. simpl.
  assert (H2 : 9998 / 10000 <= c * c) by nra.
  assert (H3 : c * (c * c) <= 0) by nra.
  assert (H3' : -1 <= c * (c * c)) by nra.
  assert (H4 : 9996 / 10000 <= c * (c * (c * c))) by nra.
  lra.
Qed.

(** ** The bounding box of the heart of create_beautiful_icons.py *)

Lemma beautiful_heart_box (size : Z) :
  (0 <= size)%Z ->
  let s := IZR (size / 3) / 20 in
  let xs := map fst (CreateBeautifulIcons.heart_points size) in
  let ys := map snd (CreateBeautifulIcons.heart_points size) in
  IZR (size / 2) - 16 * s <= minimum xs <= IZR (size / 2) - 1598 / 100 * s /\
  IZR (size / 2) + 1598 / 100 * s <= maximum xs <= IZR (size / 2) + 16 * s /\
  IZR (size / 2) - 13 * s <= minimum ys <= IZR (size / 2) - 114 / 10 * s /\
  IZR (size / 2) + 169 / 10 * s <= maximum ys <= IZR (size / 2) + 17 * s.
Proof.
  intros Hs s xs ys.
  assert (Hh : 0 <= s).
  { unfold s. assert (0 <= IZR (size / 3)) by (apply IZR_le; Lia.lia). lra. }
  unfold xs, ys, CreateBeautifulIcons.heart_points. rewrite !map_map.
  cbn [fst snd]. fold s.
  destruct (curve_extent
              (fun t => IZR (size / 2) + 16 * sin (IZR t / 100) ^ 3 * s)
              (range3 0 628 5)
              (IZR (size / 2) - 16 * s) (IZR (size / 2) + 16 * s)
              470%Z 155%Z
              (IZR (size / 2) - 1598 / 100 * s)
              (IZR (size / 2) + 1598 / 100 * s))
    as [Hxmin Hxmax].
  { intros a. pose proof (cube_le_1 _ (SIN_bound (IZR a / 100))) as Hc.
    set (u := sin (IZR a / 100) ^ 3) in *. split; nra. }
  { apply In_by_eqb. reflexivity. }
  { pose proof (cube_near_minus_1 _ sin_470). nra. }
  { apply In_by_eqb. reflexivity. }
  { pose proof (cube_near_1 _ sin_155). nra. }
  destruct (curve_extent
              (fun t =>
                 IZR (size / 2)
                 + - (13 * cos (IZR t / 100) - 5 * cos (2 * (IZR t / 100))
                      - 2 * cos (3 * (IZR t / 100)) - cos (4 * (IZR t / 100)))
                   * s)
              (range3 0 628 5)
              (IZR (size / 2) - 13 * s) (IZR (size / 2) + 17 * s)
              105%Z 315%Z
              (IZR (size / 2) - 114 / 10 * s)
              (IZR (size / 2) + 169 / 10 * s))
    as [Hymin Hymax].
  { intros a. rewrite heart_ordinate.
    pose proof (lobes_bounds _ (COS_bound (IZR a / 100))) as Hc.
    set (u := lobes (cos (IZR a / 100))) in *. split; nra. }
  { apply In_by_eqb. reflexivity. }
  { rewrite heart_ordinate. pose proof lobes_at_105. nra. }
  { apply In_by_eqb. reflexivity. }
  { rewrite heart_ordinate. pose proof lobes_at_315. nra. }
  repeat split; lra.
Qed.


(** ** C4: where the centre of the heart's bounding box lies *)

Lemma Rabs_bounds (a b : R) : Rabs a <= b -> - b <= a <= b.
Proof. unfold Rabs. destruct (Rcase_abs a); lra. Qed.

Lemma half_size (size : Z) :
  IZR (size / 2) <= IZR size / 2 <= IZR (size / 2) + 1 / 2.
Proof.
  assert (H1 : (2 * (size / 2) <= size)%Z) by lia.
  assert (H2 : (size <= 2 * (size / 2) + 1)%Z) by lia.
  apply IZR_le in H1, H2.
  rewrite mult_IZR in H1. rewrite plus_IZR, mult_IZR in H2. lra.
Qed.

(** C4, as the code has it.  The scripts put the origin of the heart curve,
    not the centre of its bounding box, at (S//2, S//2).  For every size
    that is not negative, in create_icons.py and create_beautiful_icons.py,
    the centre of the bounding box of the heart polygon has its abscissa
    within a hundredth of the scale factor of S//2 (within one pixel of S/2
    up to size 1024), and its ordinate between 1.95 and 2.8 scale factors
    below S//2, the scale factor being heart_size/32 or heart_size/20. *)
Theorem C4_heart_box_center_lies_below_the_canvas_center (style : Style)
  (size : Z) :
  style <> Solid -> (0 <= size)%Z ->
  let c := bbox_center (heart_polygon style size) in
  let s := heart_scale style size in
  Rabs (fst c - IZR (size / 2)) <= s / 100 /\
  IZR (size / 2) + 195 / 100 * s <= snd c <= IZR (size / 2) + 28 / 10 * s /\
  ((size <= 1024)%Z -> Rabs (fst c - IZR size / 2) <= 1).
Proof.
  intros Hst Hs c s.
  assert (Hh : 0 <= IZR (size / 3)) by (apply IZR_le; lia).
  assert (Hbox :
    Rabs (fst c - IZR (size / 2)) <= s / 100 /\
    IZR (size / 2) + 195 / 100 * s <= snd c <= IZR (size / 2) + 28 / 10 * s).
  { unfold c, s, bbox_center. cbn [fst snd].
    destruct style; [| contradiction |]; cbn [heart_polygon heart_scale].
    - destruct (icons_heart_box size Hs) as (Hx0 & Hx1 & Hy0 & Hy1).
      cbv zeta in Hx0, Hx1, Hy0, Hy1. rewrite Hx0, Hx1, Hy1. split.
      + apply Rabs_le. lra.
      + lra.
    - destruct (beautiful_heart_box size Hs) as (Hx0 & Hx1 & Hy0 & Hy1).
      cbv zeta in Hx0, Hx1, Hy0, Hy1. split.
      + apply Rabs_le. lra.
      + lra. }
  destruct Hbox as [Hx Hy]. split; [exact Hx|]. split; [exact Hy|].
  intros Hmax.
  assert (Hs3 : IZR (size / 3) <= 341) by (apply IZR_le; lia).
  assert (Hsc : s <= 20).
  { unfold s. destruct style; [| contradiction |]; cbn [heart_scale]; lra. }
  pose proof (half_size size) as Hhalf.
  apply Rabs_bounds in Hx. apply Rabs_le. lra.
Qed.

Lemma C4_witness :
  Icons <> Solid /\ (0 <= 120)%Z /\
  let c := bbox_center (heart_polygon Icons 120) in
  let s := heart_scale Icons 120 in
  Rabs (fst c - IZR (120 / 2)) <= s / 100 /\
  IZR (120 / 2) + 195 / 100 * s <= snd c <= IZR (120 / 2) + 28 / 10 * s /\
  ((120 <= 1024)%Z -> Rabs (fst c - IZR 120 / 2) <= 1).
Proof.
  split; [discriminate|]. split; [lia|].
  apply (C4_heart_box_center_lies_below_the_canvas_center Icons 120);
    [discriminate|lia].
Defined.

(** C4 as stated fails at size 120: the centre of the heart's bounding box
    is at least 2.5 pixels below (60, 60) in create_icons.py and at least
    3.9 pixels below it in create_beautiful_icons.py. *)
Lemma C4_heart_box_is_off_center_at_120 :
  ~ glyph_centered Icons 120 /\ ~ glyph_centered Beautiful 120.
Proof.
  split; intros [_ Hy]; apply Rabs_bounds in Hy.
  - destruct (C4_heart_box_center_lies_below_the_canvas_center Icons 120)
      as (_ & Hc & _); [discriminate|lia|].
    cbv zeta in Hc. cbn [heart_scale] in Hc.
    change (120 / 2)%Z with 60%Z in Hc. change (120 / 3)%Z with 40%Z in Hc.
    cbn [heart_polygon] in Hy. cbn [heart_polygon] in Hc. lra.
  - destruct (C4_heart_box_center_lies_below_the_canvas_center Beautiful 120)
      as (_ & Hc & _); [discriminate|lia|].
    cbv zeta in Hc. cbn [heart_scale] in Hc.
    change (120 / 2)%Z with 60%Z in Hc. change (120 / 3)%Z with 40%Z in Hc.
    cbn [heart_polygon] in Hy. cbn [heart_polygon] in Hc. lra.
Qed.

Local Open Scope Z_scope.

(** ** The reference scan conversion is faithful *)

Lemma odd_length_filter {A : Type} (f : A -> bool) (l : list A) :
  Nat.odd (List.length (filter f l)) = fold_right xorb false (map f l).
Proof.
  induction l as [|a l IH]; [reflexivity|].
  cbn [filter map fold_right]. destruct (f a).
  - cbn [List.length]. rewrite Nat.odd_succ, <- Nat.negb_odd, IH.
    destruct (fold_right xorb false (map f l)); reflexivity.
  - rewrite IH. destruct (fold_right xorb false (map f l)); reflexivity.
Qed.

Lemma xor_map_ext {A : Type} (f g h : A -> bool) (l : list A) :
  Forall (fun e => f e = xorb (g e) (h e)) l ->
  fold_right xorb false (map f l)
  = xorb (fold_right xorb false (map g l)) (fold_right xorb false (map h l)).
Proof.
  induction 1 as [|a l Ha _ IH]; [reflexivity|].
  cbn [map fold_right]. rewrite Ha, IH.
  destruct (g a), (h a), (fold_right xorb false (map g l)),
    (fold_right xorb false (map h l)); reflexivity.
Qed.

Lemma odd_crossings_chain (x y : Z) (first : Z * Z) (rest : list (Z * Z)) :
  forall prev,
    Reference.odd_crossings x y first prev rest
    = fold_right xorb false
        (map (fun e => Reference.crosses x y (fst e) (snd e))
             (chain first prev rest)).
Proof.
  induction rest as [|p rest IH]; intros prev; cbn [Reference.odd_crossings chain map fold_right fst snd].
  - now rewrite xorb_false_r.
  - now rewrite IH.
Qed.

Lemma crossing_xor (y : Z) (e : Edge) :
  crossing y e = xorb (snd (fst e) <=? y) (snd (snd e) <=? y).
Proof.
  unfold crossing. destruct e as [[xa ya] [xb yb]]; cbn [fst snd]. zbool.
Qed.

Lemma crossings_telescope (y : Z) (first : Z * Z) (rest : list (Z * Z)) :
  forall prev,
    fold_right xorb false (map (crossing y) (chain first prev rest))
    = xorb (snd prev <=? y) (snd first <=? y).
Proof.
  induction rest as [|p rest IH]; intros prev; cbn [chain map fold_right].
  - rewrite crossing_xor. cbn [fst snd]. now rewrite xorb_false_r.
  - rewrite IH, crossing_xor. cbn [fst snd].
    destruct (snd prev <=? y), (snd p <=? y), (snd first <=? y); reflexivity.
Qed.

Lemma crossings_even (y : Z) (pts : list (Z * Z)) :
  fold_right xorb false (map (crossing y) (edges pts)) = false.
Proof.
  destruct pts as [|p rest]; [reflexivity|]. unfold edges.
  rewrite crossings_telescope. apply xorb_nilpotent.
Qed.

Lemma In_chain {A : Type} (first : A) (rest : list A) :
  forall prev e, In e (chain first prev rest) ->
    In (fst e) (prev :: rest) /\ In (snd e) (first :: rest).
Proof.
  induction rest as [|p rest IH]; intros prev e; cbn [chain].
  - intros [<-|[]]. cbn [fst snd]. split; now left.
  - intros [<-|H].
    + cbn [fst snd]. split; [now left | right; now left].
    + destruct (IH _ _ H) as [H1 H2]. split.
      * right. exact H1.
      * destruct H2 as [H2|H2]; [now left | right; now right].
Qed.

Lemma In_edges {A : Type} (pts : list A) (e : A * A) :
  In e (edges pts) -> In (fst e) pts /\ In (snd e) pts.
Proof.
  destruct pts as [|p rest]; [intros []|]. unfold edges. intros H.
  apply In_chain in H. exact H.
Qed.

Lemma crosses_clear (x y : Z) (e : Edge) :
  negb (touching y e) || clear_left x y e || clear_right x y e = true ->
  Reference.crosses x y (fst e) (snd e)
  = xorb (crossing y e) (crossing y e && clear_left x y e).
Proof.
  destruct e as [[xa ya] [xb yb]].
  assert (Hc : crossing y ((xa, ya), (xb, yb)) = false ->
               Reference.crosses x y (xa, ya) (xb, yb) = false).
  { unfold crossing, Reference.crosses; cbn [fst snd]. intros H.
    destruct (Z.leb_spec ya y), (Z.ltb_spec y yb), (Z.leb_spec yb y),
      (Z.ltb_spec y ya); cbn [andb]; try reflexivity; exfalso; revert H;
      destruct (Z.leb_spec (Z.min ya yb) y);
      destruct (Z.ltb_spec y (Z.max ya yb)); cbn [andb];
      try discriminate; lia. }
  cbn [fst snd]. intros H.
  destruct (crossing y (xa, ya, (xb, yb))) eqn:C.
  2:{ now rewrite Hc. }
  clear Hc. cbn [andb xorb].
  assert (T : touching y (xa, ya, (xb, yb)) = true).
  { unfold crossing in C. unfold touching. cbn [fst snd] in *.
    apply andb_true_iff in C. destruct C as [C1 C2].
    rewrite C1. apply Z.ltb_lt in C2. cbn [andb]. apply Z.leb_le. lia. }
  rewrite T in H. cbn [negb orb] in H.
  unfold crossing in C. cbn [fst snd] in C.
  apply andb_true_iff in C. destruct C as [C1 C2].
  apply Z.leb_le in C1. apply Z.ltb_lt in C2.
  destruct (clear_left x y (xa, ya, (xb, yb))) eqn:LL; cbn [orb negb] in *.
  - apply andb_true_iff in LL. destruct LL as [LL _].
    apply andb_true_iff in LL. destruct LL as [_ LL].
    unfold line_left_of in LL. unfold Reference.crosses.
    destruct (Z.eqb_spec ya yb) as [E|E]; [lia|].
    destruct (Z.ltb_spec ya yb) as [L|L]; apply Z.leb_le in LL.
    + assert (Hy : (ya <=? y) && (y <? yb) = true).
      { apply andb_true_iff. split; [apply Z.leb_le | apply Z.ltb_lt]; lia. }
      rewrite Hy. apply Z.ltb_ge.
      replace ((x - 2 - xa) * (yb - ya))
        with ((x - xa) * (yb - ya) - 2 * (yb - ya)) in LL by ring.
      replace ((y - ya) * (xb - xa)) with ((xb - xa) * (y - ya)) in LL by ring.
      lia.
    + assert (Hy : (ya <=? y) && (y <? yb) = false).
      { apply andb_false_iff. right. apply Z.ltb_ge. lia. }
      assert (Hy' : (yb <=? y) && (y <? ya) = true).
      { apply andb_true_iff. split; [apply Z.leb_le | apply Z.ltb_lt]; lia. }
      rewrite Hy, Hy'. apply Z.ltb_ge.
      replace ((x - 2 - xb) * (ya - yb))
        with ((x - xb) * (ya - yb) - 2 * (ya - yb)) in LL by ring.
      replace ((y - yb) * (xa - xb)) with ((xa - xb) * (y - yb)) in LL by ring.
      lia.
  - apply andb_true_iff in H. destruct H as [H _].
    apply andb_true_iff in H. destruct H as [_ H].
    unfold line_right_of in H. unfold Reference.crosses.
    destruct (Z.eqb_spec ya yb) as [E|E]; [lia|].
    destruct (Z.ltb_spec ya yb) as [L|L]; apply Z.leb_le in H.
    + assert (Hy : (ya <=? y) && (y <? yb) = true).
      { apply andb_true_iff. split; [apply Z.leb_le | apply Z.ltb_lt]; lia. }
      rewrite Hy. apply Z.ltb_lt.
      replace ((x + 2 - xa) * (yb - ya))
        with ((x - xa) * (yb - ya) + 2 * (yb - ya)) in H by ring.
      replace ((y - ya) * (xb - xa)) with ((xb - xa) * (y - ya)) in H by ring.
      lia.
    + assert (Hy : (ya <=? y) && (y <? yb) = false).
      { apply andb_false_iff. right. apply Z.ltb_ge. lia. }
      assert (Hy' : (yb <=? y) && (y <? ya) = true).
      { apply andb_true_iff. split; [apply Z.leb_le | apply Z.ltb_lt]; lia. }
      rewrite Hy, Hy'. apply Z.ltb_lt.
      replace ((x + 2 - xb) * (ya - yb))
        with ((x - xb) * (ya - yb) + 2 * (ya - yb)) in H by ring.
      replace ((y - yb) * (xa - xb)) with ((xa - xb) * (y - yb)) in H by ring.
      lia.
Qed.

Lemma parity_true_exists {A : Type} (f : A -> bool) (l : list A) :
  fold_right xorb false (map f l) = true -> exists e, In e l /\ f e = true.
Proof.
  induction l as [|a l IH]; cbn [map fold_right]; [discriminate|].
  destruct (f a) eqn:E.
  - intros _. exists a. split; [now left | exact E].
  - rewrite xorb_false_l. intros H. destruct (IH H) as [e [H1 H2]].
    exists e. split; [now right | exact H2].
Qed.

Lemma crossing_rows (y : Z) (e : Edge) :
  crossing y e = true ->
  (snd (fst e) <= y \/ snd (snd e) <= y) /\ (y <= snd (fst e) \/ y <= snd (snd e)).
Proof.
  unfold crossing. intros H. apply andb_true_iff in H. destruct H as [H1 H2].
  apply Z.leb_le in H1. apply Z.ltb_lt in H2. lia.
Qed.

Lemma crossing_left_column (x y : Z) (e : Edge) :
  crossing y e = true -> line_left_of x y e = true ->
  fst (fst e) <= x \/ fst (snd e) <= x.
Proof.
  destruct e as [[xa ya] [xb yb]]. unfold crossing, line_left_of; cbn [fst snd].
  intros H. apply andb_true_iff in H. destruct H as [H1 H2].
  apply Z.leb_le in H1. apply Z.ltb_lt in H2.
  destruct (Z.eqb_spec ya yb) as [E|E]; [lia|].
  destruct (Z.ltb_spec ya yb) as [L|L]; intros H; apply Z.leb_le in H.
  - destruct (Z_le_gt_dec xa x) as [G|G]; [now left | right].
    destruct (Z_le_gt_dec xb x) as [G'|G']; [exact G' | exfalso]. nia.
  - destruct (Z_le_gt_dec xa x) as [G|G]; [now left | right].
    destruct (Z_le_gt_dec xb x) as [G'|G']; [exact G' | exfalso]. nia.
Qed.

Lemma crossing_right_column (x y : Z) (e : Edge) :
  crossing y e = true -> line_right_of x y e = true ->
  x <= fst (fst e) \/ x <= fst (snd e).
Proof.
  destruct e as [[xa ya] [xb yb]]. unfold crossing, line_right_of; cbn [fst snd].
  intros H. apply andb_true_iff in H. destruct H as [H1 H2].
  apply Z.leb_le in H1. apply Z.ltb_lt in H2.
  destruct (Z.eqb_spec ya yb) as [E|E]; [lia|].
  destruct (Z.ltb_spec ya yb) as [L|L]; intros H; apply Z.leb_le in H.
  - destruct (Z_le_gt_dec x xa) as [G|G]; [now left | right].
    destruct (Z_le_gt_dec x xb) as [G'|G']; [exact G' | exfalso]. nia.
  - destruct (Z_le_gt_dec x xa) as [G|G]; [now left | right].
    destruct (Z_le_gt_dec x xb) as [G'|G']; [exact G' | exfalso]. nia.
Qed.

Lemma existsb_either {A : Type} (f : A -> bool) (l : list A) (a b : A) :
  In a l -> In b l -> f a = true \/ f b = true -> existsb f l = true.
Proof.
  intros Ha Hb [H|H]; apply existsb_exists; eauto.
Qed.

Lemma reference_row_parity (pts : list (Z * Z)) (x y : Z) :
  row_clear x y pts = true ->
  Reference.polygon_cover pts x y
  = Nat.odd (List.length (left_crossings x y pts)).
Proof.
  intros Hclear. unfold row_clear in Hclear.
  rewrite forallb_forall in Hclear.
  unfold left_crossings. rewrite odd_length_filter.
  assert (Hodd : match pts with
                 | [] => false
                 | p :: rest => Reference.odd_crossings x y p p rest
                 end
                 = fold_right xorb false
                     (map (fun e => Reference.crosses x y (fst e) (snd e))
                          (edges pts))).
  { destruct pts as [|p rest]; [reflexivity|]. apply odd_crossings_chain. }
  assert (Hsplit :
    fold_right xorb false
      (map (fun e => Reference.crosses x y (fst e) (snd e)) (edges pts))
    = fold_right xorb false
        (map (fun e => crossing y e && clear_left x y e) (edges pts))).
  { rewrite (xor_map_ext _ (crossing y)
               (fun e => crossing y e && clear_left x y e)).
    - now rewrite crossings_even, xorb_false_l.
    - apply Forall_forall. intros e He. apply crosses_clear.
      apply Hclear. exact He. }
  unfold Reference.polygon_cover. rewrite Hodd, Hsplit.
  destruct (fold_right xorb false
              (map (fun e => crossing y e && clear_left x y e) (edges pts)))
    eqn:Par; [|apply andb_false_r].
  rewrite andb_true_r.
  destruct (parity_true_exists _ _ Par) as [e [He Hl]].
  apply andb_true_iff in Hl. destruct Hl as [Hc Hl].
  destruct (parity_true_exists _ _ Hsplit) as [e' [He' Hr]].
  pose proof (crosses_clear x y e' (Hclear _ He')) as Hx.
  rewrite Hr in Hx.
  assert (Hc' : crossing y e' = true).
  { destruct (crossing y e'); [reflexivity | discriminate]. }
  rewrite Hc' in Hx. cbn [andb xorb] in Hx.
  assert (Hr' : clear_right x y e' = true).
  { pose proof (Hclear _ He') as Hk.
    assert (T : touching y e' = true).
    { unfold crossing in Hc'. unfold touching.
      apply andb_true_iff in Hc'. destruct Hc' as [C1 C2].
      rewrite C1. apply Z.ltb_lt in C2. apply Z.leb_le. lia. }
    rewrite T in Hk. destruct (clear_left x y e'); [discriminate|].
    exact Hk. }
  apply In_edges in He. destruct He as [Ia Ib].
  apply In_edges in He'. destruct He' as [Ia' Ib'].
  destruct (crossing_rows _ _ Hc) as [Hup Hdown].
  unfold clear_left in Hl. apply andb_true_iff in Hl. destruct Hl as [Hl _].
  apply andb_true_iff in Hl. destruct Hl as [_ Hl].
  unfold clear_right in Hr'. apply andb_true_iff in Hr'.
  destruct Hr' as [Hr' _]. apply andb_true_iff in Hr'. destruct Hr' as [_ Hr'].
  pose proof (crossing_left_column _ _ _ Hc Hl) as Hleft.
  pose proof (crossing_right_column _ _ _ Hc' Hr') as Hright.
  unfold Reference.in_vertex_box.
  rewrite (existsb_either (fun p => fst p <=? x) pts _ _ Ia Ib)
    by (destruct Hleft; [left | right]; apply Z.leb_le; lia).
  rewrite (existsb_either (fun p => x <=? fst p) pts _ _ Ia' Ib')
    by (destruct Hright; [left | right]; apply Z.leb_le; lia).
  rewrite (existsb_either (fun p => snd p <=? y) pts _ _ Ia Ib)
    by (destruct Hup; [left | right]; apply Z.leb_le; lia).
  rewrite (existsb_either (fun p => y <=? snd p) pts _ _ Ia Ib)
    by (destruct Hdown; [left | right]; apply Z.leb_le; lia).
  reflexivity.
Qed.

Lemma reference_hull (x0 y0 x1 y1 r x y : Z) :
  0 <= r ->
  Reference.rounded_rectangle_cover x0 y0 x1 y1 r x y = true ->
  rounded_rectangle_hull x0 y0 x1 y1 r x y = true.
Proof.
  intros Hr. unfold Reference.rounded_rectangle_cover, rounded_rectangle_hull.
  intros H. apply andb_true_iff in H. destruct H as [Hb H]. rewrite Hb.
  cbn [andb].
  assert (D : forall cx cy, Reference.in_disc cx cy r x y = true ->
              ((x - cx) * (x - cx) + (y - cy) * (y - cy) <=? (r + 1) * (r + 1))
              = true).
  { intros cx cy. unfold Reference.in_disc, Reference.sq. intros G.
    apply Z.leb_le in G. apply Z.leb_le. nia. }
  destruct ((x <? x0 + r) && (y <? y0 + r)); [now apply D|].
  destruct ((x1 - r <? x) && (y <? y0 + r)); [now apply D|].
  destruct ((x <? x0 + r) && (y1 - r <? y)); [now apply D|].
  destruct ((x1 - r <? x) && (y1 - r <? y)); [now apply D|].
  reflexivity.
Qed.

Lemma reference_faithful : Faithful Reference.pillow.
Proof.
  constructor.
  - exact reference_lawful.
  - exact reference_hull.
  - intros pts x y H _. now apply reference_row_parity.
Qed.

Local Open Scope R_scope.

(** ** Where the heart curve crosses the middle row *)

Lemma PI_lower : 3125 / 1000 <= PI.
Proof.
  destruct (Rle_lt_dec (3125 / 1000) PI) as [H|H]; [exact H|exfalso].
  pose proof PI2_3_2 as H3.
  assert (Hs : sin (3125 / 1000) < 0) by (apply sin_lt_0; lra).
  replace (3125 / 1000) with (2 * (15625 / 10000)) in Hs by lra.
  rewrite sin_2a in Hs.
  pose proof (sin_enclosure (15625 / 10000)) as Es. simpl pow in Es.
  pose proof (cos_enclosure (15625 / 10000)) as Ec. simpl pow in Ec.
  assert (Hs' : 9 / 10 <= sin (15625 / 10000)) by lra.
  assert (Hc' : 7 / 1000 <= cos (15625 / 10000)) by lra.
  nra.
Qed.

Lemma cos_175 : - 19 / 100 <= cos (175 / 100) <= - 15 / 100.
Proof.
  pose proof (cos_enclosure (175 / 100)) as H. simpl pow in H. lra.
Qed.

Lemma cos_180 : - 23 / 100 <= cos (180 / 100) <= - 15 / 100.
Proof.
  pose proof (cos_enclosure (180 / 100)) as H. simpl pow in H. lra.
Qed.

Lemma cos_185 : - 28 / 100 <= cos (185 / 100) <= - 27 / 100.
Proof.
  pose proof (cos_enclosure (185 / 100)) as H. simpl pow in H. lra.
Qed.

Lemma cos_445 : - 27 / 100 <= cos (445 / 100) <= - 25 / 100.
Proof.
  replace (445 / 100) with (2 * (2 * (11125 / 10000))) by lra.
  rewrite cos_2a_cos, cos_2a_cos.
  pose proof (cos_enclosure (11125 / 10000)) as H. simpl pow in H.
  set (c := cos (11125 / 10000)) in *.
  assert (Hc : 4423 / 10000 <= c <= 4425 / 10000) by lra.
  assert (Hd : - 6088 / 10000 <= 2 * c * c - 1 <= - 6083 / 10000) by nra.
  nra.
Qed.

Lemma cos_450 : - 23 / 100 <= cos (450 / 100) <= - 15 / 100.
Proof.
  replace (450 / 100) with (2 * (2 * (1125 / 1000))) by lra.
  rewrite cos_2a_cos, cos_2a_cos.
  pose proof (cos_enclosure (1125 / 1000)) as H. simpl pow in H.
  set (c := cos (1125 / 1000)) in *.
  assert (Hc : 4311 / 10000 <= c <= 4312 / 10000) by lra.
  assert (Hd : - 6284 / 10000 <= 2 * c * c - 1 <= - 6281 / 10000) by nra.
  nra.
Qed.

Lemma cos_455 : - 19 / 100 <= cos (455 / 100) <= - 15 / 100.
Proof.
  replace (455 / 100) with (2 * (2 * (11375 / 10000))) by lra.
  rewrite cos_2a_cos, cos_2a_cos.
  pose proof (cos_enclosure (11375 / 10000)) as H. simpl pow in H.
  set (c := cos (11375 / 10000)) in *.
  assert (Hc : 4197 / 10000 <= c <= 4199 / 10000) by lra.
  assert (Hd : - 6478 / 10000 <= 2 * c * c - 1 <= - 6473 / 10000) by nra.
  nra.
Qed.

Lemma sin_205 : 8 / 10 <= sin (205 / 100).
Proof.
  pose proof (sin_enclosure (205 / 100)) as H. simpl pow in H. lra.
Qed.

(** The sign of the heart curve's ordinate from the cosine *)

Lemma lobes_high (c : R) : - 19 / 100 <= c <= 1 -> 3 / 10 <= lobes c.
Proof.
  intros H. unfold lobes. simpl.
  destruct (Rle_lt_dec 0 c) as [Hp|Hn].
  - assert (H2 : 0 <= c * c <= 1) by nra.
    assert (H3 : 0 <= c * (c * c) <= 1) by nra.
    assert (H4 : 0 <= c * (c * (c * c)) <= c) by nra.
    nra.
  - assert (H2 : 0 <= c * c <= 361 / 10000) by nra.
    assert (H3 : c * (c * c) <= 0) by nra.
    assert (H4 : 0 <= c * (c * (c * c)) <= 361 / 10000 * (361 / 10000)) by nra.
    nra.
Qed.

Lemma lobes_middle (c : R) : - 23 / 100 <= c <= 1 -> - 1 / 2 < lobes c.
Proof.
  intros H. destruct (Rle_lt_dec (- 19 / 100) c) as [Hp|Hn].
  - pose proof (lobes_high c). lra.
  - unfold lobes. simpl.
    assert (H2 : 361 / 10000 <= c * c <= 529 / 10000) by nra.
    assert (H3 : c * (c * c) <= 0) by nra.
    assert (H4 : 0 <= c * (c * (c * c)) <= 529 / 10000 * (529 / 10000)) by nra.
    nra.
Qed.

Lemma lobes_low (c : R) : -1 <= c <= - 25 / 100 -> lobes c <= - 6 / 10.
Proof.
  intros H. unfold lobes. simpl.
  assert (H2 : 0 <= c * c <= 1) by nra.
  assert (H3 : -1 <= c * (c * c) <= 0) by nra.
  pose proof (Rmult_le_pos (c + 1) (- 25 / 100 - c)).
  pose proof (Rmult_le_pos (c * c) ((c + 1) * (- 25 / 100 - c))).
  nra.
Qed.

Lemma lobes_lower (c : R) : -1 <= c <= - 27 / 100 -> lobes c <= - 1.
Proof.
  intros H. unfold lobes. simpl.
  assert (H2 : 0 <= c * c <= 1) by nra.
  assert (H3 : -1 <= c * (c * c) <= 0) by nra.
  pose proof (Rmult_le_pos (c + 1) (- 27 / 100 - c)).
  pose proof (Rmult_le_pos (c * c) ((c + 1) * (- 27 / 100 - c))).
  nra.
Qed.

(** The cosine along the arcs of the heart curve *)

Lemma cos_arc_top_right (t : R) :
  0 <= t <= 175 / 100 -> - 19 / 100 <= cos t <= 1.
Proof.
  intros H. split; [|apply COS_bound].
  pose proof PI_lower. pose proof cos_175.
  assert (cos (175 / 100) <= cos t) by (apply cos_decr_1; lra). lra.
Qed.

Lemma cos_arc_to_180 (t : R) :
  0 <= t <= 180 / 100 -> - 23 / 100 <= cos t <= 1.
Proof.
  intros H. split; [|apply COS_bound].
  pose proof PI_lower. pose proof cos_180.
  assert (cos (180 / 100) <= cos t) by (apply cos_decr_1; lra). lra.
Qed.

Lemma cos_arc_bottom (t : R) :
  185 / 100 <= t <= 445 / 100 -> -1 <= cos t <= - 25 / 100.
Proof.
  intros H. split; [apply COS_bound|].
  pose proof PI_lower. pose proof PI_4. pose proof cos_185. pose proof cos_445.
  destruct (Rle_lt_dec t PI) as [Hp|Hp].
  - assert (cos t <= cos (185 / 100)) by (apply cos_decr_1; lra). lra.
  - assert (cos t <= cos (445 / 100)) by (apply cos_incr_1; lra). lra.
Qed.

Lemma cos_arc_highlight_end (t : R) :
  185 / 100 <= t <= 205 / 100 -> -1 <= cos t <= - 27 / 100.
Proof.
  intros H. split; [apply COS_bound|].
  pose proof PI_lower. pose proof cos_185.
  assert (cos t <= cos (185 / 100)) by (apply cos_decr_1; lra). lra.
Qed.

Lemma cos_arc_top_left (t : R) :
  455 / 100 <= t <= 625 / 100 -> - 19 / 100 <= cos t <= 1.
Proof.
  intros H. split; [|apply COS_bound].
  pose proof PI_lower. pose proof PI_4. pose proof cos_455.
  assert (cos (455 / 100) <= cos t) by (apply cos_incr_1; lra). lra.
Qed.

Lemma sin_right_flank (t : R) :
  175 / 100 <= t <= 185 / 100 -> 96 / 100 <= sin t <= 1.
Proof.
  intros H. split; [|apply SIN_bound].
  pose proof PI_lower. pose proof cos_175. pose proof cos_185.
  assert (cos t <= cos (175 / 100)) by (apply cos_decr_1; lra).
  assert (cos (185 / 100) <= cos t) by (apply cos_decr_1; lra).
  assert (0 < sin t) by (apply sin_gt_0; lra).
  pose proof (sin2_cos2 t) as E. unfold Rsqr in E. nra.
Qed.

Lemma sin_left_flank (t : R) :
  445 / 100 <= t <= 455 / 100 -> -1 <= sin t <= - 96 / 100.
Proof.
  intros H. split; [apply SIN_bound|].
  pose proof PI_lower. pose proof PI_4. pose proof cos_445. pose proof cos_455.
  assert (cos (445 / 100) <= cos t) by (apply cos_incr_1; lra).
  assert (cos t <= cos (455 / 100)) by (apply cos_incr_1; lra).
  assert (sin t < 0) by (apply sin_lt_0; lra).
  pose proof (sin2_cos2 t) as E. unfold Rsqr in E. nra.
Qed.

Lemma c_int_lt (r : R) (n : Z) : 0 <= r -> r < IZR n -> (c_int r < n)%Z.
Proof.
  intros H0 H. unfold c_int. destruct (Rle_dec 0 r) as [Hr|Hr]; [|lra].
  apply lt_IZR. pose proof (Zfloor_bound r). lra.
Qed.

Lemma c_int_below (r : R) (n : Z) :
  0 <= r -> r < IZR n + 1 -> (c_int r <= n)%Z.
Proof.
  intros H0 H. apply Z.lt_succ_r. apply c_int_lt; [exact H0|].
  rewrite succ_IZR. exact H.
Qed.

(** The heart of size 120: x = 60 + 32 sin^3 t, y = 60 - 2 lobes (cos t) *)
Lemma heart_point_120 (t : Z) :
  heart_point 120 t
  = (60 + 32 * sin (IZR t / 100) ^ 3, 60 - 2 * lobes (cos (IZR t / 100))).
Proof.
  unfold heart_point. rewrite heart_ordinate.
  change (120 / 2)%Z with 60%Z. change (120 / 3)%Z with 40%Z.
  f_equal; lra.
Qed.

Lemma IZR_step (t lo hi : Z) :
  (lo <= t <= hi)%Z -> IZR lo / 100 <= IZR t / 100 <= IZR hi / 100.
Proof.
  intros [H1 H2]. apply IZR_le in H1, H2. lra.
Qed.

Lemma heart_row_top_right (t : Z) :
  (0 <= t <= 175)%Z -> (snd (heart_vertex 120 t) <= 59)%Z.
Proof.
  intros H. unfold heart_vertex. rewrite heart_point_120. cbn [snd].
  pose proof (IZR_step t 0 175 H) as Hr.
  assert (Hc := cos_arc_top_right (IZR t / 100) ltac:(lra)).
  pose proof (lobes_high _ Hc). pose proof (lobes_bounds (cos (IZR t / 100))).
  apply c_int_below; lra.
Qed.

Lemma heart_row_180 : (snd (heart_vertex 120 180) <= 60)%Z.
Proof.
  unfold heart_vertex. rewrite heart_point_120. cbn [snd].
  pose proof cos_180 as Hc. pose proof (lobes_middle (cos (180 / 100))).
  pose proof (lobes_bounds (cos (180 / 100))). pose proof (COS_bound (180 / 100)).
  apply c_int_below; lra.
Qed.

Lemma heart_row_bottom (t : Z) :
  (185 <= t <= 445)%Z -> (61 <= snd (heart_vertex 120 t))%Z.
Proof.
  intros H. unfold heart_vertex. rewrite heart_point_120. cbn [snd].
  pose proof (IZR_step t 185 445 H) as Hr.
  assert (Hc := cos_arc_bottom (IZR t / 100) ltac:(lra)).
  pose proof (lobes_low _ Hc). apply c_int_ge. lra.
Qed.

Lemma heart_row_450 : (snd (heart_vertex 120 450) <= 60)%Z.
Proof.
  unfold heart_vertex. rewrite heart_point_120. cbn [snd].
  pose proof cos_450 as Hc. pose proof (lobes_middle (cos (450 / 100))).
  pose proof (lobes_bounds (cos (450 / 100))). pose proof (COS_bound (450 / 100)).
  apply c_int_below; lra.
Qed.

Lemma heart_row_top_left (t : Z) :
  (455 <= t <= 625)%Z -> (snd (heart_vertex 120 t) <= 59)%Z.
Proof.
  intros H. unfold heart_vertex. rewrite heart_point_120. cbn [snd].
  pose proof (IZR_step t 455 625 H) as Hr.
  assert (Hc := cos_arc_top_left (IZR t / 100) ltac:(lra)).
  pose proof (lobes_high _ Hc). pose proof (lobes_bounds (cos (IZR t / 100))).
  apply c_int_below; lra.
Qed.

Lemma heart_column_right (t : Z) :
  (175 <= t <= 185)%Z -> (88 <= fst (heart_vertex 120 t) <= 92)%Z.
Proof.
  intros H. unfold heart_vertex. rewrite heart_point_120. cbn [fst].
  pose proof (IZR_step t 175 185 H) as Hr.
  assert (Hs := sin_right_flank (IZR t / 100) ltac:(lra)).
  set (s := sin (IZR t / 100)) in *.
  assert (Hc : 88 / 100 <= s ^ 3 <= 1) by (simpl; nra).
  split; [apply c_int_ge | apply c_int_le]; lra.
Qed.

Lemma heart_column_left (t : Z) :
  (445 <= t <= 455)%Z -> (28 <= fst (heart_vertex 120 t) <= 32)%Z.
Proof.
  intros H. unfold heart_vertex. rewrite heart_point_120. cbn [fst].
  pose proof (IZR_step t 445 455 H) as Hr.
  assert (Hs := sin_left_flank (IZR t / 100) ltac:(lra)).
  set (s := sin (IZR t / 100)) in *.
  assert (Hc : -1 <= s ^ 3 <= - 88 / 100) by (simpl; nra).
  split; [apply c_int_ge | apply c_int_le]; lra.
Qed.

(** The highlight of size 120: the heart's first 42 vertices, one pixel
    up and left *)
Lemma highlight_row_top (t : Z) :
  (0 <= t <= 180)%Z -> (snd (highlight_vertex 120 t) <= 59)%Z.
Proof.
  intros H. unfold highlight_vertex. rewrite heart_point_120. cbn [snd].
  change (Z.max 2 (120 / 200) / 2)%Z with 1%Z.
  pose proof (IZR_step t 0 180 H) as Hr.
  assert (Hc := cos_arc_to_180 (IZR t / 100) ltac:(lra)).
  pose proof (lobes_middle _ Hc). pose proof (lobes_bounds (cos (IZR t / 100))).
  apply c_int_below; lra.
Qed.

Lemma highlight_row_bottom (t : Z) :
  (185 <= t <= 205)%Z -> (61 <= snd (highlight_vertex 120 t) <= 93)%Z.
Proof.
  intros H. unfold highlight_vertex. rewrite heart_point_120. cbn [snd].
  change (Z.max 2 (120 / 200) / 2)%Z with 1%Z.
  pose proof (IZR_step t 185 205 H) as Hr.
  assert (Hc := cos_arc_highlight_end (IZR t / 100) ltac:(lra)).
  pose proof (lobes_lower _ Hc). pose proof (lobes_bounds (cos (IZR t / 100))).
  split; [apply c_int_ge | apply c_int_le]; lra.
Qed.

Lemma highlight_column_right (t : Z) :
  (175 <= t <= 185)%Z -> (87 <= fst (highlight_vertex 120 t) <= 91)%Z.
Proof.
  intros H. unfold highlight_vertex. rewrite heart_point_120. cbn [fst].
  change (Z.max 2 (120 / 200) / 2)%Z with 1%Z.
  pose proof (IZR_step t 175 185 H) as Hr.
  assert (Hs := sin_right_flank (IZR t / 100) ltac:(lra)).
  set (s := sin (IZR t / 100)) in *.
  assert (Hc : 88 / 100 <= s ^ 3 <= 1) by (simpl; nra).
  split; [apply c_int_ge | apply c_int_le]; lra.
Qed.

Lemma highlight_vertex_0 : highlight_vertex 120 0 = (59, 49)%Z.
Proof.
  unfold highlight_vertex. rewrite heart_point_120. cbn [fst snd].
  change (Z.max 2 (120 / 200) / 2)%Z with 1%Z.
  replace (0 / 100) with 0 by lra. rewrite sin_0, cos_0.
  unfold lobes.
  replace (60 + 32 * 0 ^ 3 - 1) with (IZR 59) by (simpl; lra).
  replace (60 - 2 * (-8 * 1 ^ 4 - 8 * 1 ^ 3 - 2 * 1 ^ 2 + 19 * 1 + 4) - 1)
    with (IZR 49) by (simpl; lra).
  now rewrite !c_int_IZR.
Qed.

Lemma highlight_vertex_205 :
  (75 <= fst (highlight_vertex 120 205) <= 91)%Z.
Proof.
  unfold highlight_vertex. rewrite heart_point_120. cbn [fst].
  change (Z.max 2 (120 / 200) / 2)%Z with 1%Z.
  pose proof sin_205 as Hs. pose proof (SIN_bound (205 / 100)) as Hb.
  set (s := sin (205 / 100)) in *.
  assert (Hc : 512 / 1000 <= s ^ 3 <= 1) by (simpl; nra).
  split; [apply c_int_ge | apply c_int_le]; lra.
Qed.

Local Open Scope Z_scope.

(** ** Edges and rows *)

Lemma chain_map {A B : Type} (f : A -> B) (first : A) (rest : list A) :
  forall prev,
    chain (f first) (f prev) (map f rest)
    = map (fun e => (f (fst e), f (snd e))) (chain first prev rest).
Proof.
  induction rest as [|p rest IH]; intros prev; cbn [chain map fst snd].
  - reflexivity.
  - now rewrite IH.
Qed.

Lemma edges_map {A B : Type} (f : A -> B) (l : list A) :
  edges (map f l) = map (fun e => (f (fst e), f (snd e))) (edges l).
Proof.
  destruct l as [|p rest]; [reflexivity|]. apply chain_map.
Qed.

Lemma touching_false_below (y : Z) (e : Edge) :
  snd (fst e) < y -> snd (snd e) < y -> touching y e = false.
Proof.
  intros H1 H2. unfold touching. apply andb_false_iff. right.
  apply Z.leb_gt. lia.
Qed.

Lemma touching_false_above (y : Z) (e : Edge) :
  y < snd (fst e) -> y < snd (snd e) -> touching y e = false.
Proof.
  intros H1 H2. unfold touching. apply andb_false_iff. left.
  apply Z.leb_gt. lia.
Qed.

Lemma crossing_touching (y : Z) (e : Edge) :
  crossing y e = true -> touching y e = true.
Proof.
  unfold crossing, touching. intros H. apply andb_true_iff in H.
  destruct H as [H1 H2]. rewrite H1. apply Z.ltb_lt in H2.
  apply Z.leb_le. lia.
Qed.

Lemma crossing_false_not_below (y : Z) (e : Edge) :
  snd (fst e) <= y -> snd (snd e) <= y -> crossing y e = false.
Proof.
  intros H1 H2. unfold crossing. apply andb_false_iff. right.
  apply Z.ltb_ge. lia.
Qed.

Lemma crossing_false_above (y : Z) (e : Edge) :
  y < snd (fst e) -> y < snd (snd e) -> crossing y e = false.
Proof.
  intros H1 H2. unfold crossing. apply andb_false_iff. left.
  apply Z.leb_gt. lia.
Qed.

Lemma crossing_between (y : Z) (e : Edge) :
  (snd (fst e) <= y < snd (snd e)) \/ (snd (snd e) <= y < snd (fst e)) ->
  crossing y e = true.
Proof.
  intros H. unfold crossing. apply andb_true_iff.
  split; [apply Z.leb_le | apply Z.ltb_lt]; lia.
Qed.

(** Near the rows an edge reaches, the line through it stays within the
    edge's columns, widened by their extent. *)
Lemma line_right_of_box (x y' : Z) (e : Edge) :
  Z.min (snd (fst e)) (snd (snd e)) - 1 <= y'
    <= Z.max (snd (fst e)) (snd (snd e)) + 1 ->
  x <= Z.min (fst (fst e)) (fst (snd e))
       - Z.abs (fst (fst e) - fst (snd e)) ->
  line_right_of x y' e = true.
Proof.
  destruct e as [[xa ya] [xb yb]]. cbn [fst snd]. unfold line_right_of.
  intros Hy Hx.
  destruct (Z.eqb_spec ya yb) as [E|E]; [apply Z.leb_le; lia|].
  destruct (Z.ltb_spec ya yb) as [L|L]; apply Z.leb_le.
  - assert (D : 1 <= yb - ya) by lia. assert (Hk : -1 <= y' - ya <= yb - ya + 1) by lia.
    destruct (Z_le_gt_dec xa xb) as [G|G]; nia.
  - assert (D : 1 <= ya - yb) by lia. assert (Hk : -1 <= y' - yb <= ya - yb + 1) by lia.
    destruct (Z_le_gt_dec xa xb) as [G|G]; nia.
Qed.

Lemma line_left_of_box (x y' : Z) (e : Edge) :
  Z.min (snd (fst e)) (snd (snd e)) - 1 <= y'
    <= Z.max (snd (fst e)) (snd (snd e)) + 1 ->
  Z.max (fst (fst e)) (fst (snd e))
  + Z.abs (fst (fst e) - fst (snd e)) <= x ->
  line_left_of x y' e = true.
Proof.
  destruct e as [[xa ya] [xb yb]]. cbn [fst snd]. unfold line_left_of.
  intros Hy Hx.
  destruct (Z.eqb_spec ya yb) as [E|E]; [apply Z.leb_le; lia|].
  destruct (Z.ltb_spec ya yb) as [L|L]; apply Z.leb_le.
  - assert (D : 1 <= yb - ya) by lia. assert (Hk : -1 <= y' - ya <= yb - ya + 1) by lia.
    destruct (Z_le_gt_dec xa xb) as [G|G]; nia.
  - assert (D : 1 <= ya - yb) by lia. assert (Hk : -1 <= y' - yb <= ya - yb + 1) by lia.
    destruct (Z_le_gt_dec xa xb) as [G|G]; nia.
Qed.

Lemma touching_rows (y : Z) (e : Edge) :
  touching y e = true ->
  Z.min (snd (fst e)) (snd (snd e)) <= y <= Z.max (snd (fst e)) (snd (snd e)).
Proof.
  unfold touching. intros H. apply andb_true_iff in H. destruct H as [H1 H2].
  apply Z.leb_le in H1, H2. lia.
Qed.

Lemma clear_right_box (x y : Z) (e : Edge) :
  touching y e = true ->
  x + 2 <= Z.min (fst (fst e)) (fst (snd e))
           - Z.abs (fst (fst e) - fst (snd e)) ->
  clear_right x y e = true.
Proof.
  intros T Hx. apply touching_rows in T. unfold clear_right.
  rewrite !line_right_of_box by (try exact Hx; lia). reflexivity.
Qed.

Lemma clear_left_box (x y : Z) (e : Edge) :
  touching y e = true ->
  Z.max (fst (fst e)) (fst (snd e))
  + Z.abs (fst (fst e) - fst (snd e)) <= x - 2 ->
  clear_left x y e = true.
Proof.
  intros T Hx. apply touching_rows in T. unfold clear_left.
  rewrite !line_left_of_box by (try exact Hx; lia). reflexivity.
Qed.

Lemma clear_sides_apart (x y : Z) (e : Edge) :
  clear_right x y e = true -> clear_left x y e = false.
Proof.
  destruct e as [[xa ya] [xb yb]].
  unfold clear_right, clear_left, line_right_of, line_left_of.
  intros H. apply andb_true_iff in H. destruct H as [H _].
  apply andb_true_iff in H. destruct H as [_ H].
  apply andb_false_iff. left. apply andb_false_iff. right.
  destruct (Z.eqb_spec ya yb) as [E|E].
  - apply Z.leb_le in H. apply Z.leb_gt. lia.
  - destruct (Z.ltb_spec ya yb) as [L|L]; apply Z.leb_le in H; apply Z.leb_gt.
    + replace ((x + 2 - xa) * (yb - ya))
        with ((x - 2 - xa) * (yb - ya) + 4 * (yb - ya)) in H by ring.
      lia.
    + replace ((x + 2 - xb) * (ya - yb))
        with ((x - 2 - xb) * (ya - yb) + 4 * (ya - yb)) in H by ring.
      lia.
Qed.

Lemma xor_none {A : Type} (f : A -> bool) (l : list A) :
  Forall (fun e => f e = false) l -> fold_right xorb false (map f l) = false.
Proof.
  induction 1 as [|a l Ha _ IH]; [reflexivity|].
  cbn [map fold_right]. now rewrite Ha, IH.
Qed.

Lemma xor_single {A : Type} (f : A -> bool) (l1 l2 : list A) (e : A) :
  Forall (fun e => f e = false) l1 -> f e = true ->
  Forall (fun e => f e = false) l2 ->
  fold_right xorb false (map f (l1 ++ e :: l2)) = true.
Proof.
  intros H1 He H2. induction H1 as [|a l Ha _ IH].
  - cbn [app map fold_right]. now rewrite He, xor_none.
  - cbn [app map fold_right]. now rewrite Ha, IH.
Qed.

(** ** Size 120: the middle row of the heart *)

Lemma heart_vertices (size : Z) :
  map (fun p => (c_int (fst p), c_int (snd p)))
      (CreateBeautifulIcons.heart_points size)
  = map (heart_vertex size) (range3 0 628 5).
Proof.
  unfold CreateBeautifulIcons.heart_points. rewrite map_map. reflexivity.
Qed.

Lemma highlight_vertices_120 :
  map (fun p => (c_int (fst p), c_int (snd p)))
      (CreateBeautifulIcons.highlight_points 120)
  = map (highlight_vertex 120) (range3 0 210 5).
Proof.
  unfold CreateBeautifulIcons.highlight_points.
  change (CreateBeautifulIcons.heart_points 120)
    with (map (heart_point 120) (range3 0 628 5)).
  rewrite length_map.
  replace (Z.to_nat (Z.of_nat (List.length (range3 0 628 5)) / 3))
    with 42%nat by (vm_compute; reflexivity).
  rewrite firstn_map, !map_map.
  replace (firstn 42 (range3 0 628 5)) with (range3 0 210 5)
    by (vm_compute; reflexivity).
  reflexivity.
Qed.

Lemma heart_steps (a b : Z) :
  In (a, b) (edges (range3 0 628 5)) ->
  (b = a + 5 /\ 0 <= a <= 620 /\ a mod 5 = 0) \/ (a = 625 /\ b = 0).
Proof.
  intros Hin.
  assert (H : forallb
                (fun e => (snd e =? fst e + 5) && (0 <=? fst e)
                          && (fst e <=? 620) && (fst e mod 5 =? 0)
                          || (fst e =? 625) && (snd e =? 0))
                (edges (range3 0 628 5)) = true) by (vm_compute; reflexivity).
  rewrite forallb_forall in H. specialize (H _ Hin). cbn [fst snd] in H.
  apply orb_true_iff in H. destruct H as [H|H]; [left|right].
  - apply andb_true_iff in H. destruct H as [H B1].
    apply andb_true_iff in H. destruct H as [H B2].
    apply andb_true_iff in H. destruct H as [H B3].
    apply Z.eqb_eq in H, B1. apply Z.leb_le in B2, B3. lia.
  - apply andb_true_iff in H. destruct H as [H B1].
    apply Z.eqb_eq in H, B1. lia.
Qed.

Lemma heart_steps_before (a b : Z) :
  In (a, b) (firstn 89 (edges (range3 0 628 5))) ->
  b = a + 5 /\ 0 <= a <= 440 /\ a mod 5 = 0.
Proof.
  intros Hin.
  assert (H : forallb
                (fun e => (snd e =? fst e + 5) && (0 <=? fst e)
                          && (fst e <=? 440) && (fst e mod 5 =? 0))
                (firstn 89 (edges (range3 0 628 5))) = true)
    by (vm_compute; reflexivity).
  rewrite forallb_forall in H. specialize (H _ Hin). cbn [fst snd] in H.
  apply andb_true_iff in H. destruct H as [H B1].
  apply andb_true_iff in H. destruct H as [H B2].
  apply andb_true_iff in H. destruct H as [H B3].
  apply Z.eqb_eq in H, B1. apply Z.leb_le in B2, B3. lia.
Qed.

Lemma heart_steps_after (a b : Z) :
  In (a, b) (skipn 90 (edges (range3 0 628 5))) ->
  (b = a + 5 /\ 450 <= a <= 620 /\ a mod 5 = 0) \/ (a = 625 /\ b = 0).
Proof.
  intros Hin.
  assert (H : forallb
                (fun e => (snd e =? fst e + 5) && (450 <=? fst e)
                          && (fst e <=? 620) && (fst e mod 5 =? 0)
                          || (fst e =? 625) && (snd e =? 0))
                (skipn 90 (edges (range3 0 628 5))) = true)
    by (vm_compute; reflexivity).
  rewrite forallb_forall in H. specialize (H _ Hin). cbn [fst snd] in H.
  apply orb_true_iff in H. destruct H as [H|H]; [left|right].
  - apply andb_true_iff in H. destruct H as [H B1].
    apply andb_true_iff in H. destruct H as [H B2].
    apply andb_true_iff in H. destruct H as [H B3].
    apply Z.eqb_eq in H, B1. apply Z.leb_le in B2, B3. lia.
  - apply andb_true_iff in H. destruct H as [H B1].
    apply Z.eqb_eq in H, B1. lia.
Qed.

Lemma heart_edge_right (a : Z) :
  175 <= a <= 180 ->
  let e := (heart_vertex 120 a, heart_vertex 120 (a + 5)) in
  touching 60 e = true -> clear_right 60 60 e = true.
Proof.
  intros Ha e T. apply clear_right_box; [exact T|]. cbn [fst snd e].
  pose proof (heart_column_right a). pose proof (heart_column_right (a + 5)).
  lia.
Qed.

Lemma heart_edge_left (a : Z) :
  445 <= a <= 450 ->
  let e := (heart_vertex 120 a, heart_vertex 120 (a + 5)) in
  touching 60 e = true -> clear_left 60 60 e = true.
Proof.
  intros Ha e T. apply clear_left_box; [exact T|]. cbn [fst snd e].
  pose proof (heart_column_left a). pose proof (heart_column_left (a + 5)).
  lia.
Qed.

Lemma heart_row_clear_120 :
  row_clear 60 60 (map (heart_vertex 120) (range3 0 628 5)) = true.
Proof.
  unfold row_clear. rewrite edges_map. apply forallb_forall. intros e He.
  apply in_map_iff in He. destruct He as ([a b] & <- & Hin). cbn [fst snd].
  apply heart_steps in Hin. destruct Hin as [(-> & Ha & Hm) | (-> & ->)].
  - assert (C : a <= 170 \/ 175 <= a <= 180 \/ 185 <= a <= 440
                \/ 445 <= a <= 450 \/ 455 <= a) by lia.
    destruct C as [C|[C|[C|[C|C]]]].
    + rewrite touching_false_below; [reflexivity| |]; cbn [fst snd].
      * pose proof (heart_row_top_right a). lia.
      * pose proof (heart_row_top_right (a + 5)). lia.
    + destruct (touching 60 (heart_vertex 120 a, heart_vertex 120 (a + 5)))
        eqn:T; [|reflexivity].
      rewrite (heart_edge_right a C T). apply orb_true_r.
    + rewrite touching_false_above; [reflexivity| |]; cbn [fst snd].
      * pose proof (heart_row_bottom a). lia.
      * pose proof (heart_row_bottom (a + 5)). lia.
    + destruct (touching 60 (heart_vertex 120 a, heart_vertex 120 (a + 5)))
        eqn:T; [|reflexivity].
      rewrite (heart_edge_left a C T). reflexivity.
    + rewrite touching_false_below; [reflexivity| |]; cbn [fst snd].
      * pose proof (heart_row_top_left a). lia.
      * pose proof (heart_row_top_left (a + 5)). lia.
  - rewrite touching_false_below; [reflexivity| |]; cbn [fst snd].
    + pose proof (heart_row_top_left 625). lia.
    + pose proof (heart_row_top_right 0). lia.
Qed.

Lemma heart_left_crossings_120 :
  Nat.odd (List.length
             (left_crossings 60 60
                (map (heart_vertex 120) (range3 0 628 5)))) = true.
Proof.
  unfold left_crossings. rewrite odd_length_filter, edges_map, map_map.
  assert (E : edges (range3 0 628 5)
              = firstn 89 (edges (range3 0 628 5))
                ++ (445, 450) :: skipn 90 (edges (range3 0 628 5)))
    by (vm_compute; reflexivity).
  rewrite E. clear E. apply xor_single.
  - apply Forall_forall. intros [a b] Hin. cbn [fst snd].
    apply heart_steps_before in Hin. destruct Hin as (-> & Ha & Hm).
    assert (C : a <= 170 \/ 175 <= a <= 180 \/ 185 <= a <= 440) by lia.
    destruct C as [C|[C|C]].
    + rewrite crossing_false_not_below; [reflexivity| |]; cbn [fst snd].
      * pose proof (heart_row_top_right a). lia.
      * pose proof (heart_row_top_right (a + 5)). lia.
    + destruct (touching 60 (heart_vertex 120 a, heart_vertex 120 (a + 5)))
        eqn:T.
      * rewrite (clear_sides_apart _ _ _ (heart_edge_right a C T)).
        apply andb_false_r.
      * destruct (crossing 60 (heart_vertex 120 a, heart_vertex 120 (a + 5)))
          eqn:K; [|reflexivity].
        apply crossing_touching in K. congruence.
    + rewrite crossing_false_above; [reflexivity| |]; cbn [fst snd].
      * pose proof (heart_row_bottom a). lia.
      * pose proof (heart_row_bottom (a + 5)). lia.
  - cbn [fst snd].
    assert (K : crossing 60 (heart_vertex 120 445, heart_vertex 120 450) = true).
    { apply crossing_between. right. cbn [fst snd].
      pose proof (heart_row_bottom 445). pose proof heart_row_450. lia. }
    rewrite K. apply crossing_touching in K.
    pose proof (heart_edge_left 445) as HL. cbv zeta in HL.
    change (445 + 5) with 450 in HL. rewrite HL; [reflexivity | lia | exact K].
  - apply Forall_forall. intros [a b] Hin. cbn [fst snd].
    apply heart_steps_after in Hin.
    destruct Hin as [(-> & Ha & Hm) | (-> & ->)].
    + assert (C : a = 450 \/ 455 <= a) by lia.
      destruct C as [->|C].
      * rewrite crossing_false_not_below; [reflexivity| |]; cbn [fst snd].
        -- pose proof heart_row_450. lia.
        -- pose proof (heart_row_top_left (450 + 5)). lia.
      * rewrite crossing_false_not_below; [reflexivity| |]; cbn [fst snd].
        -- pose proof (heart_row_top_left a). lia.
        -- pose proof (heart_row_top_left (a + 5)). lia.
    + rewrite crossing_false_not_below; [reflexivity| |]; cbn [fst snd].
      * pose proof (heart_row_top_left 625). lia.
      * pose proof (heart_row_top_right 0). lia.
Qed.

(** ** Size 120: the middle row of the highlight *)

Lemma highlight_steps (a b : Z) :
  In (a, b) (edges (range3 0 210 5)) ->
  (b = a + 5 /\ 0 <= a <= 200 /\ a mod 5 = 0) \/ (a = 205 /\ b = 0).
Proof.
  intros Hin.
  assert (H : forallb
                (fun e => (snd e =? fst e + 5) && (0 <=? fst e)
                          && (fst e <=? 200) && (fst e mod 5 =? 0)
                          || (fst e =? 205) && (snd e =? 0))
                (edges (range3 0 210 5)) = true) by (vm_compute; reflexivity).
  rewrite forallb_forall in H. specialize (H _ Hin). cbn [fst snd] in H.
  apply orb_true_iff in H. destruct H as [H|H]; [left|right].
  - apply andb_true_iff in H. destruct H as [H B1].
    apply andb_true_iff in H. destruct H as [H B2].
    apply andb_true_iff in H. destruct H as [H B3].
    apply Z.eqb_eq in H, B1. apply Z.leb_le in B2, B3. lia.
  - apply andb_true_iff in H. destruct H as [H B1].
    apply Z.eqb_eq in H, B1. lia.
Qed.

Lemma highlight_edge_right :
  let e := (highlight_vertex 120 180, highlight_vertex 120 185) in
  touching 60 e = true -> clear_right 60 60 e = true.
Proof.
  intros e T. apply clear_right_box; [exact T|]. cbn [fst snd e].
  pose proof (highlight_column_right 180).
  pose proof (highlight_column_right 185). lia.
Qed.

(** The edge that closes the highlight runs from its last vertex back to
    the notch of the heart, and passes right of the centre. *)
Lemma highlight_closing_edge :
  clear_right 60 60 (highlight_vertex 120 205, highlight_vertex 120 0) = true.
Proof.
  rewrite highlight_vertex_0.
  pose proof highlight_vertex_205 as Hx.
  pose proof (highlight_row_bottom 205) as Hy.
  destruct (highlight_vertex 120 205) as [xa ya]. cbn [fst snd] in Hx, Hy.
  assert (Hy' : 61 <= ya <= 93) by lia. clear Hy.
  unfold clear_right, line_right_of.
  destruct (Z.eqb_spec ya 49) as [E|E]; [lia|].
  destruct (Z.ltb_spec ya 49) as [L|L]; [lia|].
  assert (B : forall y', 59 <= y' <= 61 ->
              ((60 + 2 - 59) * (ya - 49) <=? (y' - 49) * (xa - 59)) = true).
  { intros y' Hr. apply Z.leb_le. nia. }
  rewrite !B by lia. reflexivity.
Qed.

Lemma highlight_row_clear_120 :
  row_clear 60 60 (map (highlight_vertex 120) (range3 0 210 5)) = true.
Proof.
  unfold row_clear. rewrite edges_map. apply forallb_forall. intros e He.
  apply in_map_iff in He. destruct He as ([a b] & <- & Hin). cbn [fst snd].
  apply highlight_steps in Hin. destruct Hin as [(-> & Ha & Hm) | (-> & ->)].
  - assert (C : a <= 175 \/ a = 180 \/ 185 <= a) by lia.
    destruct C as [C|[->|C]].
    + rewrite touching_false_below; [reflexivity| |]; cbn [fst snd].
      * pose proof (highlight_row_top a). lia.
      * pose proof (highlight_row_top (a + 5)). lia.
    + change (180 + 5) with 185.
      destruct (touching 60 (highlight_vertex 120 180, highlight_vertex 120 185))
        eqn:T; [|reflexivity].
      rewrite (highlight_edge_right T). apply orb_true_r.
    + rewrite touching_false_above; [reflexivity| |]; cbn [fst snd].
      * pose proof (highlight_row_bottom a). lia.
      * pose proof (highlight_row_bottom (a + 5)). lia.
  - rewrite highlight_closing_edge. apply orb_true_r.
Qed.

Lemma highlight_left_crossings_120 :
  Nat.odd (List.length
             (left_crossings 60 60
                (map (highlight_vertex 120) (range3 0 210 5)))) = false.
Proof.
  unfold left_crossings. rewrite odd_length_filter, edges_map, map_map.
  apply xor_none. apply Forall_forall. intros [a b] Hin. cbn [fst snd].
  apply highlight_steps in Hin. destruct Hin as [(-> & Ha & Hm) | (-> & ->)].
  - assert (C : a <= 175 \/ a = 180 \/ 185 <= a) by lia.
    destruct C as [C|[->|C]].
    + rewrite crossing_false_not_below; [reflexivity| |]; cbn [fst snd].
      * pose proof (highlight_row_top a). lia.
      * pose proof (highlight_row_top (a + 5)). lia.
    + change (180 + 5) with 185.
      destruct (touching 60 (highlight_vertex 120 180, highlight_vertex 120 185))
        eqn:T.
      * rewrite (clear_sides_apart _ _ _ (highlight_edge_right T)).
        apply andb_false_r.
      * destruct (crossing 60
                    (highlight_vertex 120 180, highlight_vertex 120 185))
          eqn:K; [|reflexivity].
        apply crossing_touching in K. congruence.
    + rewrite crossing_false_above; [reflexivity| |]; cbn [fst snd].
      * pose proof (highlight_row_bottom a). lia.
      * pose proof (highlight_row_bottom (a + 5)). lia.
  - rewrite (clear_sides_apart _ _ _ highlight_closing_edge).
    apply andb_false_r.
Qed.

(** ** Size 120: the centre pixel and the corner pixels *)

Section Centre.

Variable P : Pillow.
Hypothesis faithful : Faithful P.

Lemma heart_covers_centre_120 :
  polygon_region P (CreateBeautifulIcons.heart_points 120) 60 60 = true.
Proof.
  unfold polygon_region. rewrite heart_vertices.
  rewrite (polygon_row_parity P faithful _ 60 60 heart_row_clear_120).
  - apply heart_left_crossings_120.
  - exists (heart_vertex 120 185). split.
    + apply in_map. apply In_by_eqb. vm_compute. reflexivity.
    + pose proof (heart_row_bottom 185). lia.
Qed.

Lemma highlight_misses_centre_120 :
  polygon_region P (CreateBeautifulIcons.highlight_points 120) 60 60 = false.
Proof.
  unfold polygon_region. rewrite highlight_vertices_120.
  rewrite (polygon_row_parity P faithful _ 60 60 highlight_row_clear_120).
  - apply highlight_left_crossings_120.
  - exists (highlight_vertex 120 185). split.
    + apply in_map. apply In_by_eqb. vm_compute. reflexivity.
    + pose proof (highlight_row_bottom 185). lia.
Qed.

End Centre.

(** ** How far left the glyphs reach *)

Lemma heart_points_left (size : Z) (p : R * R) :
  0 <= size -> In p (CreateBeautifulIcons.heart_points size) ->
  (IZR (size / 2 - size / 3) <= fst p)%R.
Proof.
  intros Hs Hp. unfold CreateBeautifulIcons.heart_points in Hp.
  apply in_map_iff in Hp as (t & <- & _). cbn [fst].
  pose proof (cube_le_1 _ (SIN_bound (IZR t / 100))) as Hc.
  assert (Hh : (0 <= IZR (size / 3))%R) by (apply IZR_le; lia).
  rewrite minus_IZR. nra.
Qed.

Lemma shadow_points_left (size : Z) (p : R * R) :
  0 <= size -> In p (CreateBeautifulIcons.shadow_points size) ->
  (IZR (size / 2 - size / 3) <= fst p)%R.
Proof.
  intros Hs Hp. unfold CreateBeautifulIcons.shadow_points in Hp.
  apply in_map_iff in Hp as (q & <- & Hq). cbn [fst].
  pose proof (heart_points_left size q Hs Hq).
  assert (0 <= IZR (Z.max 2 (size / 200)))%R by (apply IZR_le; lia).
  lra.
Qed.

Lemma highlight_points_left (size : Z) (p : R * R) :
  0 <= size -> In p (CreateBeautifulIcons.highlight_points size) ->
  (IZR (size / 2 - size / 3 - Z.max 2 (size / 200) / 2) <= fst p)%R.
Proof.
  intros Hs Hp. unfold CreateBeautifulIcons.highlight_points in Hp.
  apply in_map_iff in Hp as (q & <- & Hq). cbn [fst].
  apply In_firstn in Hq.
  pose proof (heart_points_left size q Hs Hq).
  rewrite (minus_IZR _ (Z.max 2 (size / 200) / 2)). lra.
Qed.

Lemma tooth_left (gear_x gear_y gear_radius i : Z) (p : R * R) :
  0 <= gear_radius ->
  In p (CreateBeautifulIcons.tooth gear_x gear_y gear_radius i) ->
  (IZR (gear_x - gear_radius - 3) <= fst p)%R.
Proof.
  intros Hr Hp. unfold CreateBeautifulIcons.tooth in Hp.
  assert (Hg : (0 <= IZR gear_radius)%R) by (apply IZR_le; lia).
  rewrite !minus_IZR.
  destruct Hp as [<-|[<-|[<-|[]]]]; cbn [fst].
  - pose proof (COS_bound (2 * PI * IZR i / 8)). rewrite plus_IZR. nra.
  - pose proof (COS_bound (2 * PI * IZR i / 8 - 2 / 10)). nra.
  - pose proof (COS_bound (2 * PI * IZR i / 8 + 2 / 10)). nra.
Qed.

(** The sines of the two dot angles on the middle row *)
Lemma sin_dot_angles :
  sin (2 * PI * 0 / 6) = 0%R /\ sin (2 * PI * 3 / 6) = 0%R.
Proof.
  split.
  - replace (2 * PI * 0 / 6)%R with 0%R by lra. apply sin_0.
  - replace (2 * PI * 3 / 6)%R with PI by lra. apply sin_PI.
Qed.

Section Misses120.

Variable P : Pillow.
Hypothesis lawful : Lawful P.

Lemma ellipse_up_of (x0 y0 x1 y1 : R) (n x y : Z) :
  (y1 <= IZR n)%R -> n < y -> ellipse_region P x0 y0 x1 y1 x y = false.
Proof.
  intros Hb Hy. destruct (ellipse_region P x0 y0 x1 y1 x y) eqn:E;
    [|reflexivity].
  apply (ellipse_region_inside P lawful) in E.
  pose proof (c_int_le y1 n Hb). lia.
Qed.

Lemma ellipse_down_of (x0 y0 x1 y1 : R) (n x y : Z) :
  (IZR n <= y0)%R -> y < n -> ellipse_region P x0 y0 x1 y1 x y = false.
Proof.
  intros Hb Hy. destruct (ellipse_region P x0 y0 x1 y1 x y) eqn:E;
    [|reflexivity].
  apply (ellipse_region_inside P lawful) in E.
  pose proof (c_int_ge y0 n Hb). lia.
Qed.

Lemma polygon_right_of (points : list (R * R)) (n x y : Z) :
  (forall p, In p points -> (IZR n <= fst p)%R) -> x < n ->
  polygon_region P points x y = false.
Proof.
  intros Hb Hx. destruct (polygon_region P points x y) eqn:E; [|reflexivity].
  apply (polygon_in_box P lawful) in E.
  destruct E as ((p & Hp & Hxp) & _).
  apply in_map_iff in Hp as (q & <- & Hq). simpl in Hxp.
  pose proof (c_int_ge (fst q) n (Hb q Hq)). lia.
Qed.

Lemma heart_layers_miss_120 (x y : Z) :
  x < 19 \/ 102 < x ->
  Forall (fun l : Region * Pixel => fst l x y = false) (heart_layers P 120).
Proof.
  intros Hx. unfold heart_layers.
  repeat (apply Forall_cons; [|try apply Forall_nil]); cbn [fst].
  - destruct Hx as [Hx|Hx].
    + apply polygon_right_of with (n := 20); [|lia].
      intros p Hp. now apply (shadow_points_left 120).
    + apply (polygon_left_of P lawful) with (n := 102); [|lia].
      intros p Hp. now apply (shadow_points_right 120).
  - destruct Hx as [Hx|Hx].
    + apply polygon_right_of with (n := 20); [|lia].
      intros p Hp. now apply (heart_points_left 120).
    + apply (polygon_left_of P lawful) with (n := 100); [|lia].
      intros p Hp. now apply (heart_points_right 120).
  - destruct Hx as [Hx|Hx].
    + apply polygon_right_of with (n := 19); [|lia].
      intros p Hp. now apply (highlight_points_left 120).
    + apply (polygon_left_of P lawful) with (n := 100); [|lia].
      intros p Hp. now apply (highlight_points_right 120).
Qed.

Lemma gear_layers_miss_120 (x y : Z) :
  x < 77 \/ 103 < x ->
  Forall (fun l : Region * Pixel => fst l x y = false) (gear_layers P 120).
Proof.
  intros Hx. unfold gear_layers.
  apply Forall_app; split; [|apply Forall_app; split].
  - apply Forall_cons; [|apply Forall_nil]. cbn [fst].
    destruct Hx as [Hx|Hx].
    + apply (ellipse_right_of P lawful) with (n := 80); [|lia].
      apply IZR_le. reflexivity.
    + apply (ellipse_left_of P lawful) with (n := 100); [|lia].
      apply IZR_le. reflexivity.
  - apply Forall_forall. intros l Hl.
    apply in_map_iff in Hl as (i & <- & _). cbn [fst].
    destruct Hx as [Hx|Hx].
    + apply polygon_right_of with (n := 77); [|lia].
      intros p Hp. now apply tooth_left in Hp.
    + apply (polygon_left_of P lawful) with (n := 103); [|lia].
      intros p Hp. now apply tooth_right in Hp.
  - apply Forall_cons; [|apply Forall_nil]. cbn [fst].
    destruct Hx as [Hx|Hx].
    + apply (ellipse_right_of P lawful) with (n := 85); [|lia].
      apply IZR_le. reflexivity.
    + apply (ellipse_left_of P lawful) with (n := 95); [|lia].
      apply IZR_le. reflexivity.
Qed.

Lemma plus_layers_miss_120 (x y : Z) :
  x < 71 \/ 89 < x ->
  Forall (fun l : Region * Pixel => fst l x y = false) (plus_layers P 120).
Proof.
  intros Hx. unfold plus_layers.
  repeat (apply Forall_cons; [|try apply Forall_nil]); cbn [fst].
  - destruct Hx as [Hx|Hx].
    + apply (ellipse_right_of P lawful) with (n := 71); [|lia].
      apply IZR_le. reflexivity.
    + apply (ellipse_left_of P lawful) with (n := 89); [|lia].
      apply IZR_le. reflexivity.
  - unfold rectangle_cover, span.
    change (120 / 2 + 120 / 3 / 2 - 120 / 8 / 2) with 73.
    change (120 / 2 + 120 / 3 / 2 + 120 / 8 / 2) with 87.
    apply andb_false_iff. left. apply andb_false_iff.
    destruct Hx; [left; apply Z.leb_gt | right; apply Z.leb_gt]; lia.
  - unfold rectangle_cover, span.
    change (120 / 2 + 120 / 3 / 2 - Z.max 3 (120 / 60) / 2) with 79.
    change (120 / 2 + 120 / 3 / 2 + Z.max 3 (120 / 60) / 2) with 81.
    apply andb_false_iff. left. apply andb_false_iff.
    destruct Hx; [left; apply Z.leb_gt | right; apply Z.leb_gt]; lia.
Qed.

Lemma dot_layers_miss_120 (x y : Z) :
  32 < x < 88 \/ ((x < 28 \/ 92 < x) /\ (y < 58 \/ 62 < y)) ->
  Forall (fun l : Region * Pixel => fst l x y = false) (dot_layers P 120).
Proof.
  intros H.
  destruct cos_dot_angles as (C0 & C1 & C2 & C3 & C4 & C5).
  destruct sin_dot_angles as (S0 & S3).
  unfold dot_layers.
  change (range 6) with [0; 1; 2; 3; 4; 5].
  repeat (apply Forall_cons; [|try apply Forall_nil]); cbn [fst];
    unfold dot_region, CreateBeautifulIcons.dot_box,
      CreateBeautifulIcons.dot_center;
    change (120 / 2) with 60; change (120 / 3 + 20) with 60;
    change (Z.max 2 (120 / 100)) with 2.
  - destruct H as [H|[_ [H|H]]].
    + apply (ellipse_right_of P lawful) with (n := 118); [rewrite C0; lra|lia].
    + apply ellipse_down_of with (n := 58); [rewrite S0; lra|lia].
    + apply ellipse_up_of with (n := 62); [rewrite S0; lra|lia].
  - destruct H as [H|[[H|H] _]].
    + apply (ellipse_right_of P lawful) with (n := 88); [rewrite C1; lra|lia].
    + apply (ellipse_right_of P lawful) with (n := 88); [rewrite C1; lra|lia].
    + apply (ellipse_left_of P lawful) with (n := 92); [rewrite C1; lra|lia].
  - destruct H as [H|[[H|H] _]].
    + apply (ellipse_left_of P lawful) with (n := 32); [rewrite C2; lra|lia].
    + apply (ellipse_right_of P lawful) with (n := 28); [rewrite C2; lra|lia].
    + apply (ellipse_left_of P lawful) with (n := 32); [rewrite C2; lra|lia].
  - destruct H as [H|[_ [H|H]]].
    + apply (ellipse_left_of P lawful) with (n := 2); [rewrite C3; lra|lia].
    + apply ellipse_down_of with (n := 58); [rewrite S3; lra|lia].
    + apply ellipse_up_of with (n := 62); [rewrite S3; lra|lia].
  - destruct H as [H|[[H|H] _]].
    + apply (ellipse_left_of P lawful) with (n := 32); [rewrite C4; lra|lia].
    + apply (ellipse_right_of P lawful) with (n := 28); [rewrite C4; lra|lia].
    + apply (ellipse_left_of P lawful) with (n := 32); [rewrite C4; lra|lia].
  - destruct H as [H|[[H|H] _]].
    + apply (ellipse_right_of P lawful) with (n := 88); [rewrite C5; lra|lia].
    + apply (ellipse_right_of P lawful) with (n := 88); [rewrite C5; lra|lia].
    + apply (ellipse_left_of P lawful) with (n := 92); [rewrite C5; lra|lia].
Qed.

Lemma beautiful_layers_miss_corners_120 (x y : Z) :
  x = 0 \/ x = 119 -> y = 0 \/ y = 119 ->
  Forall (fun l : Region * Pixel => fst l x y = false)
         (beautiful_layers P 120).
Proof.
  intros Hx Hy. unfold beautiful_layers.
  apply Forall_app; split; [|apply Forall_app; split; [|apply Forall_app; split]].
  - apply heart_layers_miss_120. lia.
  - apply gear_layers_miss_120. lia.
  - apply plus_layers_miss_120. lia.
  - apply dot_layers_miss_120. lia.
Qed.

Lemma badges_miss_centre_120 :
  Forall (fun l : Region * Pixel => fst l 60 60 = false)
         (gear_layers P 120 ++ plus_layers P 120 ++ dot_layers P 120).
Proof.
  apply Forall_app; split; [|apply Forall_app; split].
  - apply gear_layers_miss_120. lia.
  - apply plus_layers_miss_120. lia.
  - apply dot_layers_miss_120. lia.
Qed.

End Misses120.

Section Scenario120.

Variable P : Pillow.
Hypothesis faithful : Faithful P.

Lemma mask_off_at_corners_120 (x y : Z) :
  x = 0 \/ x = 119 -> y = 0 \/ y = 119 ->
  rounded_rectangle_cover P 0 0 120 120 15 x y = false.
Proof.
  intros Hx Hy.
  destruct (rounded_rectangle_cover P 0 0 120 120 15 x y) eqn:E;
    [|reflexivity].
  apply (rounded_rectangle_in_hull P faithful) in E; [|lia].
  destruct Hx as [-> | ->], Hy as [-> | ->]; vm_compute in E; discriminate.
Qed.

Lemma corner_pixel_120 (img : Image) (x y : Z) :
  (forall x y, 0 <= x < 120 -> 0 <= y < 120 ->
     getpixel img x y
     = option_map (fun base => top_ink (glyph_layers P Beautiful 120) base x y)
         (base_pixel P Beautiful 120 x y)) ->
  x = 0 \/ x = 119 -> y = 0 \/ y = 119 ->
  getpixel img x y = Some (PxRGB 248 249 250).
Proof.
  intros Hpix Hx Hy. rewrite Hpix by lia. cbn [base_pixel glyph_layers].
  change (120 / 8) with 15. rewrite mask_off_at_corners_120 by assumption.
  cbn [option_map]. f_equal.
  apply top_ink_uncovered.
  apply (beautiful_layers_miss_corners_120 P (faithful_lawful P faithful));
    assumption.
Qed.

(** C8.  Size 120 in create_beautiful_icons.py, under every faithful scan
    conversion: the render is a 120 by 120 RGB image; its centre pixel
    (60, 60) holds the heart colour (52, 199, 89), since the middle row
    crosses the heart's outline once on each side of the centre, passes
    right of the highlight, and no badge or dot reaches the centre; its
    four corner pixels hold the flat background fill (248, 249, 250), since
    the mask's corner circles of radius 15 leave them out and no glyph
    reaches them. *)
Theorem C8_centre_is_heart_and_corners_are_fill_at_120 :
  exists img,
    render P Beautiful 120 = inr img /\
    well_formed RGB 120 120 img /\
    getpixel img 60 60 = ink_of RGB (inr CreateBeautifulIcons.heart_color) /\
    getpixel img 60 60 = Some (PxRGB 52 199 89) /\
    Forall (fun c : Z * Z =>
              getpixel img (fst c) (snd c)
              = ink_of RGB (inr CreateBeautifulIcons.background_fill)
              /\ getpixel img (fst c) (snd c) = Some (PxRGB 248 249 250))
           [(0, 0); (119, 0); (0, 119); (119, 119)].
Proof.
  destruct (render_spec P Beautiful 120) as (img & E & W & Hpix);
    [simpl; lia|].
  exists img. split; [exact E|]. split; [exact W|].
  assert (Hc : getpixel img 60 60 = Some (PxRGB 52 199 89)).
  { rewrite Hpix by lia. cbn [base_pixel glyph_layers].
    change (120 / 8) with 15.
    rewrite (rounded_rectangle_core_painted P (faithful_lawful P faithful)
               0 0 120 120 15 60 60) by (try lia; reflexivity).
    assert (Hb : exists b, ink_of RGB (gradient_color Beautiful 120 60) = Some b)
      by (vm_compute; eauto).
    destruct Hb as [b ->]. cbn [option_map]. f_equal.
    unfold beautiful_layers. rewrite top_ink_app.
    rewrite (top_ink_uncovered _ 60 60
               (badges_miss_centre_120 P (faithful_lawful P faithful))).
    unfold heart_layers, top_ink. cbn [fold_left fst snd].
    rewrite (heart_covers_centre_120 P faithful),
      (highlight_misses_centre_120 P faithful).
    reflexivity. }
  split; [rewrite Hc; reflexivity|]. split; [exact Hc|].
  repeat (apply Forall_cons; [|try apply Forall_nil]); cbn [fst snd];
    (assert (Hk : forall x y, (x = 0 \/ x = 119) -> (y = 0 \/ y = 119) ->
                  getpixel img x y = Some (PxRGB 248 249 250))
       by (intros; now apply corner_pixel_120));
    rewrite Hk by lia; split; reflexivity.
Qed.

End Scenario120.

Lemma C8_witness :
  Faithful Reference.pillow /\
  exists img,
    render Reference.pillow Beautiful 120 = inr img /\
    well_formed RGB 120 120 img /\
    getpixel img 60 60 = ink_of RGB (inr CreateBeautifulIcons.heart_color) /\
    getpixel img 60 60 = Some (PxRGB 52 199 89) /\
    Forall (fun c : Z * Z =>
              getpixel img (fst c) (snd c)
              = ink_of RGB (inr CreateBeautifulIcons.background_fill)
              /\ getpixel img (fst c) (snd c) = Some (PxRGB 248 249 250))
           [(0, 0); (119, 0); (0, 119); (119, 119)].
Proof.
  split; [exact reference_faithful|].
  apply (C8_centre_is_heart_and_corners_are_fill_at_120 Reference.pillow).
  exact reference_faithful.
Defined.

Local Open Scope Z_scope.

(** ** The data dots *)

Lemma for_each_map {A B S : Type} (f : A -> B) (body : B -> S -> result S)
  (l : list A) :
  forall s, for_each (map f l) body s = for_each l (fun a => body (f a)) s.
Proof.
  induction l as [|a l IH]; intros s; cbn [map for_each]; [reflexivity|].
  destruct (body (f a) s); cbn [bind]; [reflexivity|apply IH].
Qed.

(** The dots of the script are [draw_dots] on the boxes it computes. *)
Lemma dots_are_drawn (P : Pillow) (size : Z) (final_img : Image) :
  CreateBeautifulIcons.dots P size final_img
  = draw_dots P (map (CreateBeautifulIcons.dot_box size) (range 6)) final_img.
Proof.
  unfold CreateBeautifulIcons.dots, draw_dots. rewrite for_each_map.
  reflexivity.
Qed.






(** ** Bars: rectangles about a centre *)

Lemma rectangle_cover_centred (cx cy a b x y : Z) :
  0 <= a -> 0 <= b ->
  rectangle_cover (cx - a) (cy - b) (cx + a) (cy + b) x y
  = (Z.abs (x - cx) <=? a) && (Z.abs (y - cy) <=? b).
Proof.
  intros Ha Hb. unfold rectangle_cover, span.
  rewrite !Z.min_l, !Z.max_r by lia.
  destruct (Z.leb_spec (cx - a) x), (Z.leb_spec x (cx + a)),
    (Z.leb_spec (cy - b) y), (Z.leb_spec y (cy + b)),
    (Z.leb_spec (Z.abs (x - cx)) a), (Z.leb_spec (Z.abs (y - cy)) b);
    cbn [andb]; try reflexivity; lia.
Qed.

(** X1.  create_solid_icons.py, every positive size, any scan conversion:
    a pixel within [cross_size // 2] columns and [cross_width // 2] rows
    of [(size // 2, size // 2)], or the other way round, is white; every
    other pixel holds the gradient colour of its row.  The pixel
    [(size // 2, size // 2)] itself is always white. *)
Theorem X1_solid_icon_is_the_gradient_under_a_white_cross (P : Pillow)
  (size : Z) :
  0 < size ->
  exists img,
    CreateSolidIcons.render P size = inr img /\
    (forall x y,
       0 <= x < size -> 0 <= y < size ->
       getpixel img x y
       = if on_cross size x y then Some (PxRGB 255 255 255)
         else ink_of RGB (CreateSolidIcons.gradient_color size y)) /\
    getpixel img (size / 2) (size / 2) = Some (PxRGB 255 255 255).
Proof.
  intros Hs.
  destruct (render_spec P Solid size) as (img & E & _ & Hpix); [simpl; lia|].
  exists img. split; [exact E|].
  assert (Hall : forall x y,
             0 <= x < size -> 0 <= y < size ->
             getpixel img x y
             = if on_cross size x y then Some (PxRGB 255 255 255)
               else ink_of RGB (CreateSolidIcons.gradient_color size y)).
  { intros x y Hx Hy. rewrite (Hpix x y Hx Hy).
    cbn [base_pixel glyph_layers gradient_color].
    destruct (gradient_color_ink Solid size y) as [px Epx]; [lia|].
    cbn [gradient_color] in Epx. rewrite Epx. cbn [option_map].
    unfold solid_layers, top_ink, on_cross. cbn [fold_left fst snd].
    rewrite !rectangle_cover_centred by lia.
    destruct ((Z.abs (x - size / 2) <=? size / 3 / 2)
              && (Z.abs (y - size / 2) <=? Z.max 4 (size / 20) / 2));
      destruct ((Z.abs (x - size / 2) <=? Z.max 4 (size / 20) / 2)
                && (Z.abs (y - size / 2) <=? size / 3 / 2)); reflexivity. }
  split; [exact Hall|].
  rewrite Hall by lia. unfold on_cross.
  rewrite !Z.sub_diag. cbn [Z.abs].
  replace (0 <=? size / 3 / 2) with true by (symmetry; apply Z.leb_le; lia).
  replace (0 <=? Z.max 4 (size / 20) / 2) with true
    by (symmetry; apply Z.leb_le; lia).
  reflexivity.
Qed.

Lemma X1_witness :
  0 < 40 /\
  exists img,
    CreateSolidIcons.render Reference.pillow 40 = inr img /\
    getpixel img 20 20 = Some (PxRGB 255 255 255) /\
    getpixel img 26 18 = Some (PxRGB 255 255 255) /\
    getpixel img 0 0 = Some (PxRGB 100 150 200) /\
    getpixel img 27 17 = Some (PxRGB 78 128 178).
Proof.
  split; [lia|].
  destruct (X1_solid_icon_is_the_gradient_under_a_white_cross
              Reference.pillow 40) as (img & E & H & Hc); [lia|].
  exists img. split; [exact E|]. split; [exact Hc|].
  rewrite !H by lia. repeat split; vm_compute; reflexivity.
Defined.

(** X2.  create_icons.py, every size from 16 up, any scan conversion: the
    two bars of the plus badge are the last things drawn, so every pixel
    of them holds the green (52, 199, 89), whatever the heart, its shadow
    and the badge's white disc left there; the badge's centre is on the
    canvas. *)
Theorem X2_plus_badge_bars_are_green (P : Pillow) (size : Z) :
  16 <= size ->
  exists img,
    CreateIcons.render P size = inr img /\
    (forall x y,
       0 <= x < size -> 0 <= y < size -> on_plus size x y = true ->
       getpixel img x y = Some (PxRGB 52 199 89)) /\
    getpixel img (size / 2 + size / 3 / 2 + size / 8 / 2)
                 (size / 2 - size / 3 / 2 - size / 8 / 2)
    = Some (PxRGB 52 199 89).
Proof.
  intros Hs.
  destruct (render_spec P Icons size) as (img & E & _ & Hpix); [simpl; lia|].
  exists img. split; [exact E|].
  assert (Hall : forall x y,
             0 <= x < size -> 0 <= y < size -> on_plus size x y = true ->
             getpixel img x y = Some (PxRGB 52 199 89)).
  { intros x y Hx Hy Hon. rewrite (Hpix x y Hx Hy).
    destruct (base_pixel_defined P Icons size x y) as [base ->]; [lia|].
    cbn [option_map glyph_layers]. f_equal.
    unfold icons_layers, top_ink. cbn [fold_left fst snd].
    replace (size / 2 + size / 3 / 2 + size / 8 / 2 - size / 8 + 2)
      with (size / 2 + size / 3 / 2 + size / 8 / 2 - (size / 8 - 2)) by lia.
    replace (size / 2 - size / 3 / 2 - size / 8 / 2 - size / 8 + 2)
      with (size / 2 - size / 3 / 2 - size / 8 / 2 - (size / 8 - 2)) by lia.
    replace (size / 2 + size / 3 / 2 + size / 8 / 2 + size / 8 - 2)
      with (size / 2 + size / 3 / 2 + size / 8 / 2 + (size / 8 - 2)) by lia.
    replace (size / 2 - size / 3 / 2 - size / 8 / 2 + size / 8 - 2)
      with (size / 2 - size / 3 / 2 - size / 8 / 2 + (size / 8 - 2)) by lia.
    rewrite !rectangle_cover_centred by lia.
    unfold on_plus in Hon. cbv zeta in Hon.
    apply orb_true_iff in Hon. destruct Hon as [Hon|Hon]; rewrite Hon.
    - destruct ((Z.abs (x - (size / 2 + size / 3 / 2 + size / 8 / 2))
                 <=? size / 8 - 2)
                && (Z.abs (y - (size / 2 - size / 3 / 2 - size / 8 / 2))
                    <=? Z.max 2 (size / 40) / 2)); reflexivity.
    - reflexivity. }
  split; [exact Hall|].
  apply Hall; try lia. unfold on_plus. cbv zeta.
  rewrite !Z.sub_diag. cbn [Z.abs].
  replace (0 <=? Z.max 2 (size / 40) / 2) with true
    by (symmetry; apply Z.leb_le; lia).
  replace (0 <=? size / 8 - 2) with true by (symmetry; apply Z.leb_le; lia).
  reflexivity.
Qed.

Lemma X2_witness :
  16 <= 120 /\
  exists img,
    CreateIcons.render Reference.pillow 120 = inr img /\
    getpixel img 87 33 = Some (PxRGB 52 199 89) /\
    getpixel img 87 20 = Some (PxRGB 52 199 89) /\
    getpixel img 100 33 = Some (PxRGB 52 199 89).
Proof.
  split; [lia|].
  destruct (X2_plus_badge_bars_are_green Reference.pillow 120)
    as (img & E & H & Hc); [lia|].
  exists img. split; [exact E|]. split; [exact Hc|].
  split; apply H; try lia; reflexivity.
Defined.

Local Open Scope R_scope.

(** ** The heart stays on the canvas *)

Lemma c_int_on_canvas (r : R) (size : Z) :
  0 <= r <= IZR (size - 1) -> (0 <= c_int r < size)%Z.
Proof.
  intros [H0 H1]. split.
  - apply (c_int_ge r 0). exact H0.
  - pose proof (c_int_le r (size - 1) H1). lia.
Qed.

Lemma scaled_within (a h u lo hi k : R) :
  0 <= h -> 0 <= k -> lo <= u <= hi ->
  a + lo * h * k <= a + u * h * k <= a + hi * h * k.
Proof. intros Hh Hk Hu. assert (0 <= h * k) by nra. nra. Qed.

(** X3.  create_icons.py and create_beautiful_icons.py, every positive
    size: every vertex of the heart, as Pillow receives it after the cast
    to int, is a pixel of the canvas.  The heart is never clipped.  The bounds
    leave a pixel of room below [size] and the cast truncates towards
    zero. *)
Theorem X3_heart_vertices_are_on_the_canvas (size : Z) :
  (0 < size)%Z ->
  Forall (fun p => (0 <= c_int (fst p) < size)%Z
                   /\ (0 <= c_int (snd p) < size)%Z)
         (CreateIcons.heart_points size ++
          CreateBeautifulIcons.heart_points size).
Proof.
  intros Hs.
  assert (Hh : 0 <= IZR (size / 3)) by (apply IZR_le; lia).
  assert (Z1 : (0 <= 2 * (size / 2) - size / 3)%Z) by lia.
  assert (Z2 : (2 * (size / 2) + size / 3 <= 2 * (size - 1))%Z) by lia.
  assert (Z3 : (0 <= 32 * (size / 2) - 17 * (size / 3))%Z) by lia.
  assert (Z4 : (32 * (size / 2) + 17 * (size / 3) <= 32 * (size - 1))%Z) by lia.
  assert (Z5 : (0 <= 20 * (size / 2) - 17 * (size / 3))%Z) by lia.
  assert (Z6 : (20 * (size / 2) + 17 * (size / 3) <= 20 * (size - 1))%Z) by lia.
  apply IZR_le in Z1, Z2, Z3, Z4, Z5, Z6.
  rewrite minus_IZR, mult_IZR in Z1.
  rewrite plus_IZR, !mult_IZR, minus_IZR in Z2.
  rewrite minus_IZR, !mult_IZR in Z3.
  rewrite plus_IZR, !mult_IZR, minus_IZR in Z4.
  rewrite minus_IZR, !mult_IZR in Z5.
  rewrite plus_IZR, !mult_IZR, minus_IZR in Z6.
  apply Forall_app. split; apply Forall_forall; intros p Hp.
  - unfold CreateIcons.heart_points in Hp.
    apply in_map_iff in Hp. destruct Hp as (a & <- & _). cbn [fst snd].
    rewrite heart_ordinate.
    pose proof (cube_le_1 _ (SIN_bound (radians a))) as Hc.
    pose proof (lobes_bounds _ (COS_bound (radians a))) as Hl.
    set (u := sin (radians a) ^ 3) in *.
    set (v := lobes (cos (radians a))) in *.
    set (h := IZR (size / 3)) in *.
    assert (Hu : - h <= u * h <= h) by nra.
    assert (Hv : - 17 * h <= v * h <= 13 * h) by nra.
    split; apply c_int_on_canvas; rewrite minus_IZR; lra.
  - unfold CreateBeautifulIcons.heart_points in Hp.
    apply in_map_iff in Hp. destruct Hp as (t & <- & _). cbn [fst snd].
    rewrite heart_ordinate.
    pose proof (cube_le_1 _ (SIN_bound (IZR t / 100))) as Hc.
    pose proof (lobes_bounds _ (COS_bound (IZR t / 100))) as Hl.
    set (u := sin (IZR t / 100) ^ 3) in *.
    set (v := lobes (cos (IZR t / 100))) in *.
    set (h := IZR (size / 3)) in *.
    assert (Hu : - h <= u * h <= h) by nra.
    assert (Hv : - 17 * h <= v * h <= 13 * h) by nra.
    split; apply c_int_on_canvas; rewrite minus_IZR; lra.
Qed.

Lemma X3_witness :
  (0 < 1)%Z /\
  Forall (fun p => (0 <= c_int (fst p) < 1)%Z /\ (0 <= c_int (snd p) < 1)%Z)
         (CreateIcons.heart_points 1 ++ CreateBeautifulIcons.heart_points 1).
Proof.
  split; [lia|]. apply (X3_heart_vertices_are_on_the_canvas 1). lia.
Defined.

Local Open Scope Z_scope.

(** ** The gradient fades *)

Lemma fades_catalog (style : Style) :
  Forall (fun size => forallb (fades_at style size) (range size) = true)
         catalog.
Proof.
  destruct style; repeat (apply Forall_cons; [vm_compute; reflexivity|]);
    apply Forall_nil.
Qed.

Lemma le_all_trans (a b c : list Z) :
  le_all a b = true -> le_all b c = true -> le_all a c = true.
Proof.
  revert b c. induction a as [|x a IH]; intros [|y b] [|z c]; cbn;
    try discriminate; try reflexivity.
  intros H1 H2. apply andb_true_iff in H1, H2.
  destruct H1 as [H1 H1'], H2 as [H2 H2'].
  apply andb_true_iff. split; [|now apply (IH b)].
  apply Z.leb_le in H1, H2. apply Z.leb_le. lia.
Qed.

Lemma le_all_refl_of (a b : list Z) : le_all a b = true -> le_all b b = true.
Proof.
  revert b. induction a as [|x a IH]; intros [|y b]; cbn;
    try discriminate; try reflexivity.
  intros H. apply andb_true_iff in H. destruct H as [_ H].
  apply andb_true_iff. split; [apply Z.leb_refl | now apply IH].
Qed.

(** X4.  All three scripts, every size of the catalog: going down the
    rows the gradient never gets brighter in any channel, and every row
    lies between the end colour and the start colour. *)
Theorem X4_gradient_fades_between_its_end_points (style : Style)
  (size y y' : Z) :
  In size catalog -> 0 <= y <= y' -> y' < size ->
  le_all (gradient_row style size y') (gradient_row style size y) = true /\
  le_all (end_color style) (gradient_row style size y') = true /\
  le_all (gradient_row style size y) (start_color style) = true.
Proof.
  intros Hin Hy Hy'.
  pose proof (proj1 (Forall_forall _ _) (fades_catalog style) size Hin) as Hc.
  rewrite forallb_forall in Hc.
  assert (Hrow : forall z, 0 <= z < size -> fades_at style size z = true).
  { intros z Hz. apply Hc. now apply range_spec. }
  assert (Hstep : forall n : nat,
            y + Z.of_nat n < size ->
            le_all (gradient_row style size (y + Z.of_nat n))
                   (gradient_row style size y) = true).
  { induction n as [|n IH]; intros Hn.
    - rewrite Z.add_0_r.
      pose proof (Hrow y ltac:(lia)) as H. unfold fades_at in H.
      apply andb_true_iff in H. destruct H as [H _].
      apply andb_true_iff in H. destruct H as [H _].
      now apply le_all_refl_of in H.
    - pose proof (Hrow (y + Z.of_nat n) ltac:(lia)) as H. unfold fades_at in H.
      apply andb_true_iff in H. destruct H as [_ H].
      apply orb_true_iff in H. destruct H as [H|H];
        [apply Z.leb_le in H; lia|].
      replace (y + Z.of_nat (S n)) with (y + Z.of_nat n + 1) by lia.
      apply (le_all_trans _ _ _ H). apply IH. lia. }
  split; [|split].
  - replace y' with (y + Z.of_nat (Z.to_nat (y' - y))) by lia.
    apply Hstep. lia.
  - pose proof (Hrow y' ltac:(lia)) as H. unfold fades_at in H.
    apply andb_true_iff in H. destruct H as [H _].
    apply andb_true_iff in H. now destruct H as [H _].
  - pose proof (Hrow y ltac:(lia)) as H. unfold fades_at in H.
    apply andb_true_iff in H. destruct H as [H _].
    apply andb_true_iff in H. now destruct H as [_ H].
Qed.

Lemma X4_witness :
  In 120 catalog /\ 0 <= 30 <= 90 /\ 90 < 120 /\
  gradient_row Icons 120 30 = [47; 184; 75] /\
  gradient_row Icons 120 90 = [38; 154; 47] /\
  le_all (gradient_row Icons 120 90) (gradient_row Icons 120 30) = true /\
  le_all (end_color Icons) (gradient_row Icons 120 90) = true /\
  le_all (gradient_row Icons 120 30) (start_color Icons) = true.
Proof.
  assert (Hin : In 120 catalog) by (apply In_by_eqb; reflexivity).
  split; [exact Hin|]. split; [lia|]. split; [lia|].
  split; [vm_compute; reflexivity|]. split; [vm_compute; reflexivity|].
  apply (X4_gradient_fades_between_its_end_points Icons 120 30 90);
    [exact Hin | lia | lia].
Defined.
